(** * Carrion: the lexer's layout pass and the tree-walking evaluator

    A shallow embedding of [src/lexer] (the unnamed source file that holds
    [Lexer.NextToken]) and of [src/evaluator] (the evaluator whose [Eval]
    dispatches on the AST), together with the part of [src/object] they use
    and the rendering of errors of [src/object/error_handling.go].

    Go values are pointers; the embedding keeps a store for everything the
    evaluator mutates or compares by identity (environments, the backing
    arrays of Array and Tuple elements, grimoires) and treats the remaining
    objects as values.  Go's [int64] is [Z] with the wrap-around written out,
    [float64] is the kernel's binary64 [float]. *)

From Stdlib Require Import ZArith Lia Floats.PrimFloat Uint63 Strings.String Strings.Ascii List.
From stdpp Require Import gmap strings list pretty.

#[local] Open Scope Z_scope.
#[local] Set Warnings "-register-all".

(** ** Go's 64-bit integers *)

Module int64.

Definition min : Z := - 2 ^ 63.
Definition max : Z := 2 ^ 63 - 1.

Definition in_range (z : Z) : Prop := min <= z <= max.

(** Two's-complement wrap-around of an arithmetic result. *)
Definition wrap (z : Z) : Z := (z + 2 ^ 63) mod 2 ^ 64 - 2 ^ 63.

Definition add (a b : Z) : Z := wrap (a + b).
Definition sub (a b : Z) : Z := wrap (a - b).
Definition mul (a b : Z) : Z := wrap (a * b).
Definition neg (a : Z) : Z := wrap (- a).

(** [a / b] and [a % b] truncate toward zero; a zero divisor is a run-time
    panic, rendered as [None]. *)
Definition quo (a b : Z) : option Z :=
  if b =? 0 then None else Some (wrap (Z.quot a b)).
Definition rem (a b : Z) : option Z :=
  if b =? 0 then None else Some (Z.rem a b).

(** [uint(v)]: the shift count of [<<] and [>>] is the operand converted to
    an unsigned 64-bit integer. *)
Definition to_uint (v : Z) : Z := v mod 2 ^ 64.

Definition shl (a n : Z) : Z :=
  let c := to_uint n in if 64 <=? c then 0 else wrap (Z.shiftl a c).
Definition shr (a n : Z) : Z :=
  let c := to_uint n in
  if 64 <=? c then (if a <? 0 then -1 else 0) else Z.shiftr a c.

(** [float64(v)]: the nearest binary64, ties to even. *)
Definition to_float64 (v : Z) : float :=
  if v =? min then (- (of_uint63 (Uint63.of_Z (2 ^ 62)) * 2))%float
  else if v <? 0 then (- of_uint63 (Uint63.of_Z (- v)))%float
  else of_uint63 (Uint63.of_Z v).

End int64.

(** ** Tokens and positions ([src/token], used by the lexer and by errors) *)

Module token.

Record Position : Type := mkPosition { File : string; Line : Z; Column : Z }.

Definition Position_zero : Position := mkPosition "" 0 0.

(** Modelled from the spec: the token kinds.  The [token] package is not part
    of the sources; the constants below are the ones the lexer and the
    evaluator name, [IDENT] is what [LookupIdent] answers outside its keyword
    table and [KEYWORD] stands for the kinds of that table. *)
Inductive TokenType : Type :=
| ILLEGAL | EOF | NEWLINE | INDENT | DEDENT
| IDENT | INT | FLOAT | STRING | DOCSTRING | FSTRING
| KEYWORD (name : string)
| ASSIGN | EQ | NOT_EQ | PLUS | PLUS_INCREMENT | INCREMENT
| MINUS | MINUS_DECREMENT | DECREMENT
| ASTERISK | MULTASSGN | EXPONENT | SLASH | DIVASSGN | MOD
| LT | LE | LSHIFT | GT | GE | RSHIFT
| XOR | TILDE | BANG | AMPERSAND | PIPE
| COMMA | COLON | SEMICOLON | LPAREN | RPAREN | LBRACK | RBRACK
| LBRACE | RBRACE | DOT | HASH | AT | UNDERSCORE.

Record Token : Type := mkToken { Type_ : TokenType; Literal : string; Pos : Position }.

End token.

(** ** The lexer ([src/lexer]) *)

Module lexer.

Record Lexer : Type := mkLexer {
  lines : list string;
  lineIndex : nat;
  charIndex : nat;
  indentStack : list nat;
  currLine : string;
  finished : bool;
  fileName : string;
  indentResolved : bool
}.

Definition with_charIndex (l : Lexer) (i : nat) : Lexer :=
  mkLexer (lines l) (lineIndex l) i (indentStack l) (currLine l) (finished l)
    (fileName l) (indentResolved l).

Definition with_indentResolved (l : Lexer) (b : bool) : Lexer :=
  mkLexer (lines l) (lineIndex l) (charIndex l) (indentStack l) (currLine l)
    (finished l) (fileName l) b.

Definition with_indentStack (l : Lexer) (stack : list nat) : Lexer :=
  mkLexer (lines l) (lineIndex l) (charIndex l) stack (currLine l) (finished l)
    (fileName l) (indentResolved l).

Definition LF : ascii := ascii_of_nat 10.
Definition TAB : ascii := ascii_of_nat 9.
Definition CR : ascii := ascii_of_nat 13.
Definition DQUOTE : ascii := ascii_of_nat 34.
Definition SQUOTE : ascii := ascii_of_nat 39.
Definition BACKSLASH : ascii := ascii_of_nat 92.

(** [strings.Split(input, "\n")]: never empty. *)
Fixpoint split_lines (input : string) (current : string) : list string :=
  match input with
  | EmptyString => [current]
  | String c rest =>
      if Ascii.eqb c LF then current :: split_lines rest EmptyString
      else split_lines rest (current +:+ String c EmptyString)
  end.

(** [New]. *)
Definition New (input : string) (fileName : string) : Lexer :=
  let rawLines := split_lines input EmptyString in
  match rawLines with
  | [] => mkLexer rawLines 0 0 [0%nat] EmptyString true fileName false
  | first :: _ => mkLexer rawLines 0 0 [0%nat] first false fileName false
  end.

(** The position of the character under the cursor. *)
Definition position (l : Lexer) : token.Position :=
  token.mkPosition (fileName l) (Z.of_nat (lineIndex l) + 1) (Z.of_nat (charIndex l) + 1).

(** [measureIndent]: a space counts one column, a tab four. *)
Fixpoint measureIndent (line : string) : nat :=
  match line with
  | String c rest =>
      if Ascii.eqb c " " then S (measureIndent rest)
      else if Ascii.eqb c TAB then (4 + measureIndent rest)%nat
      else 0%nat
  | EmptyString => 0%nat
  end.

(** [handleIndentChange]; the stack is never empty, its bottom is 0. *)
Definition handleIndentChange (l : Lexer) (newIndent : nat) : option (token.Token * Lexer) :=
  match last (indentStack l) with
  | None => None
  | Some currentIndent =>
      if Nat.eqb newIndent currentIndent then
        Some (token.mkToken token.NEWLINE "" (position l), with_charIndex l newIndent)
      else if Nat.ltb currentIndent newIndent then
        Some (token.mkToken token.INDENT "" (position l),
              with_charIndex (with_indentStack l (indentStack l ++ [newIndent])) newIndent)
      else
        Some (token.mkToken token.DEDENT "" (position l),
              with_indentStack l (removelast (indentStack l)))
  end.

(** [advanceLine]. *)
Definition advanceLine (l : Lexer) : Lexer :=
  let lineIndex' := S (lineIndex l) in
  match lines l !! lineIndex' with
  | None => mkLexer (lines l) lineIndex' 0 (indentStack l) EmptyString true (fileName l) false
  | Some line => mkLexer (lines l) lineIndex' 0 (indentStack l) line (finished l) (fileName l) false
  end.

(** [l.currLine[i]]. *)
Definition charAt (l : Lexer) (i : nat) : option ascii := String.get i (currLine l).

(** [peekChar]: the byte after the cursor, 0 past the end of the line. *)
Definition peekChar (l : Lexer) : ascii :=
  match charAt l (S (charIndex l)) with
  | Some c => c
  | None => Ascii.zero
  end.

(** [unicode.IsDigit] and [unicode.IsLetter] on a byte read as a rune, that
    is on Latin-1. *)
Definition isDigit (ch : ascii) : bool :=
  let n := nat_of_ascii ch in (48 <=? n)%nat && (n <=? 57)%nat.

Definition unicode_IsLetter (ch : ascii) : bool :=
  let n := nat_of_ascii ch in
  ((65 <=? n) && (n <=? 90) || (97 <=? n) && (n <=? 122)
   || (n =? 170) || (n =? 181) || (n =? 186)
   || (192 <=? n) && (n <=? 214) || (216 <=? n) && (n <=? 246)
   || (248 <=? n) && (n <=? 255))%nat.

Definition isLetter (ch : ascii) : bool := unicode_IsLetter ch || Ascii.eqb ch "_".

Definition isLetterOrDigit (ch : ascii) : bool := isLetter ch || isDigit ch.

Definition isHorizontalWhitespace (ch : ascii) : bool :=
  Ascii.eqb ch " " || Ascii.eqb ch TAB.

Definition peekCharIsLetterOrDigitOrUnderscore (l : Lexer) : bool :=
  let nxt := peekChar l in
  if Ascii.eqb nxt Ascii.zero then false
  else isLetterOrDigit nxt || Ascii.eqb nxt "_".

(** [skipLineComment]. *)
Definition skipLineComment (l : Lexer) : Lexer :=
  with_charIndex l (String.length (currLine l)).

(** The loop of [skipBlockComment]. *)
Fixpoint skipBlockComment_loop (fuel : nat) (l : Lexer) : option Lexer :=
  match fuel with
  | O => None
  | S fuel' =>
      match charAt l (charIndex l) with
      | None =>
          let l' := advanceLine l in
          if finished l' then Some l' else skipBlockComment_loop fuel' l'
      | Some c =>
          if Ascii.eqb c "*" && Ascii.eqb (peekChar l) "/" then
            Some (with_charIndex l (charIndex l + 2))
          else skipBlockComment_loop fuel' (with_charIndex l (S (charIndex l)))
      end
  end.

Definition skipBlockComment (fuel : nat) (l : Lexer) : option Lexer :=
  skipBlockComment_loop fuel (with_charIndex l (charIndex l + 2)).

(** The byte an escape sequence stands for. *)
Definition unescape (quote esc : ascii) : ascii :=
  if Ascii.eqb esc "n" then LF
  else if Ascii.eqb esc "t" then TAB
  else if Ascii.eqb esc "r" then CR
  else esc.

Definition append_byte (sb : string) (c : ascii) : string := sb +:+ String c EmptyString.

(** One step of a string body at the byte [ch] under the cursor: the text
    and the cursor after it. *)
Definition string_step (quote ch : ascii) (sb : string) (l : Lexer) : string * Lexer :=
  if Ascii.eqb ch BACKSLASH then
    let l1 := with_charIndex l (S (charIndex l)) in
    match charAt l1 (charIndex l1) with
    | Some esc => (append_byte sb (unescape quote esc), with_charIndex l1 (S (charIndex l1)))
    | None => (sb, with_charIndex l1 (S (charIndex l1)))
    end
  else (append_byte sb ch, with_charIndex l (S (charIndex l))).

(** The loop of a triple-quoted body, shared by [readString] and
    [readFString]. *)
Fixpoint readTriple (fuel : nat) (quote : ascii) (sb : string) (l : Lexer)
    : option (string * Lexer) :=
  match fuel with
  | O => None
  | S fuel' =>
      match charAt l (charIndex l) with
      | None =>
          let sb' := append_byte sb LF in
          let l' := advanceLine l in
          if finished l' then Some (sb', l') else readTriple fuel' quote sb' l'
      | Some ch =>
          match charAt l (S (charIndex l)), charAt l (S (S (charIndex l))) with
          | Some c1, Some c2 =>
              if Ascii.eqb ch quote && Ascii.eqb c1 quote && Ascii.eqb c2 quote then
                Some (sb, with_charIndex l (charIndex l + 3))
              else
                let '(sb', l') := string_step quote ch sb l in readTriple fuel' quote sb' l'
          | _, _ =>
              let '(sb', l') := string_step quote ch sb l in readTriple fuel' quote sb' l'
          end
      end
  end.

(** The loop of a single-line body. *)
Fixpoint readSingle (fuel : nat) (quote : ascii) (sb : string) (l : Lexer)
    : option (string * Lexer) :=
  match fuel with
  | O => None
  | S fuel' =>
      match charAt l (charIndex l) with
      | None => Some (sb, l)
      | Some ch =>
          if Ascii.eqb ch quote then Some (sb, with_charIndex l (S (charIndex l)))
          else let '(sb', l') := string_step quote ch sb l in readSingle fuel' quote sb' l'
      end
  end.

(** After the opening quote: is the literal triple-quoted? *)
Definition opensTriple (quote : ascii) (l : Lexer) : bool :=
  match charAt l (charIndex l), charAt l (S (charIndex l)) with
  | Some c0, Some c1 => Ascii.eqb c0 quote && Ascii.eqb c1 quote
  | _, _ => false
  end.

(** [readString]. *)
Definition readString (fuel : nat) (l : Lexer) : option (token.Token * Lexer) :=
  let pos := position l in
  match charAt l (charIndex l) with
  | None => None
  | Some quoteChar =>
      let l1 := with_charIndex l (S (charIndex l)) in
      if opensTriple quoteChar l1 then
        match readTriple fuel quoteChar EmptyString (with_charIndex l1 (charIndex l1 + 2)) with
        | Some (sb, l2) => Some (token.mkToken token.DOCSTRING sb pos, l2)
        | None => None
        end
      else
        match readSingle fuel quoteChar EmptyString l1 with
        | Some (sb, l2) => Some (token.mkToken token.STRING sb pos, l2)
        | None => None
        end
  end.

(** [readFString]; the cursor is on the opening quote. *)
Definition readFString (fuel : nat) (l : Lexer) : option (token.Token * Lexer) :=
  let pos := token.mkPosition (fileName l) (Z.of_nat (lineIndex l) + 1)
               (Z.of_nat (charIndex l)) in
  match charAt l (charIndex l) with
  | None => Some (token.mkToken token.ILLEGAL "unexpected end of line after f" pos, l)
  | Some openingQuote =>
      let l1 := with_charIndex l (S (charIndex l)) in
      let body :=
        if opensTriple openingQuote l1 then
          readTriple fuel openingQuote EmptyString (with_charIndex l1 (charIndex l1 + 2))
        else readSingle fuel openingQuote EmptyString l1 in
      match body with
      | Some (sb, l2) => Some (token.mkToken token.FSTRING sb pos, l2)
      | None => None
      end
  end.

(** The end of the run of bytes satisfying [p] from index [i] of [line]. *)
Fixpoint scan_while (p : ascii -> bool) (line : string) (i : nat) (fuel : nat) : nat :=
  match fuel with
  | O => i
  | S fuel' =>
      match String.get i line with
      | Some c => if p c then scan_while p line (S i) fuel' else i
      | None => i
      end
  end.

(** The loop of [readNumber]: the end of the number and whether it holds a
    point. *)
Fixpoint scan_number (line : string) (i : nat) (isFloat : bool) (fuel : nat) : nat * bool :=
  match fuel with
  | O => (i, isFloat)
  | S fuel' =>
      match String.get i line with
      | Some c =>
          if Ascii.eqb c "." then
            if isFloat then (i, isFloat) else scan_number line (S i) true fuel'
          else if negb (isDigit c) then (i, isFloat)
          else scan_number line (S i) isFloat fuel'
      | None => (i, isFloat)
      end
  end.

Section WithKeywords.

(** [token.LookupIdent]: the keyword table is not part of the sources. *)
Variable LookupIdent : string -> token.TokenType.

(** [readIdentifier]. *)
Definition readIdentifier (l : Lexer) : token.Token * Lexer :=
  let start := charIndex l in
  let stop := scan_while isLetterOrDigit (currLine l) start (String.length (currLine l)) in
  let literal := String.substring start (stop - start) (currLine l) in
  (token.mkToken (LookupIdent literal) literal (position l), with_charIndex l stop).

(** [readNumber]. *)
Definition readNumber (l : Lexer) : token.Token * Lexer :=
  let start := charIndex l in
  let '(stop, isFloat) := scan_number (currLine l) start false (String.length (currLine l)) in
  let literal := String.substring start (stop - start) (currLine l) in
  (token.mkToken (if isFloat then token.FLOAT else token.INT) literal (position l),
   with_charIndex l stop).

(** A token of [n] bytes at the cursor. *)
Definition emit (l : Lexer) (n : nat) (ty : token.TokenType) (literal : string)
    : option (token.Token * Lexer) :=
  Some (token.mkToken ty literal (position l), with_charIndex l (charIndex l + n)).

(** The operators and punctuation of [NextToken]'s [switch] that need no
    further call. *)
Definition operatorToken (l : Lexer) (ch : ascii) : option (token.Token * Lexer) :=
  let nxt := peekChar l in
  if Ascii.eqb ch "=" then
    if Ascii.eqb nxt "=" then emit l 2 token.EQ "==" else emit l 1 token.ASSIGN "="
  else if Ascii.eqb ch "+" then
    if Ascii.eqb nxt "+" then emit l 2 token.PLUS_INCREMENT "++"
    else if Ascii.eqb nxt "=" then emit l 2 token.INCREMENT "+="
    else emit l 1 token.PLUS "+"
  else if Ascii.eqb ch "-" then
    if Ascii.eqb nxt "-" then emit l 2 token.MINUS_DECREMENT "--"
    else if Ascii.eqb nxt "=" then emit l 2 token.DECREMENT "-="
    else emit l 1 token.MINUS "-"
  else if Ascii.eqb ch "*" then
    if Ascii.eqb nxt "=" then emit l 2 token.MULTASSGN "*="
    else if Ascii.eqb nxt "*" then emit l 2 token.EXPONENT "**"
    else emit l 1 token.ASTERISK "*"
  else if Ascii.eqb ch "%" then emit l 1 token.MOD "%"
  else if Ascii.eqb ch "<" then
    if Ascii.eqb nxt "<" then emit l 2 token.LSHIFT "<<"
    else if Ascii.eqb nxt "=" then emit l 2 token.LE "<="
    else emit l 1 token.LT "<"
  else if Ascii.eqb ch ">" then
    if Ascii.eqb nxt ">" then emit l 2 token.RSHIFT ">>"
    else if Ascii.eqb nxt "=" then emit l 2 token.GE ">="
    else emit l 1 token.GT ">"
  else if Ascii.eqb ch "^" then emit l 1 token.XOR "^"
  else if Ascii.eqb ch "~" then emit l 1 token.TILDE "~"
  else if Ascii.eqb ch "!" then
    if Ascii.eqb nxt "=" then emit l 2 token.NOT_EQ "!=" else emit l 1 token.BANG "!"
  else if Ascii.eqb ch "," then emit l 1 token.COMMA ","
  else if Ascii.eqb ch ":" then emit l 1 token.COLON ":"
  else if Ascii.eqb ch ";" then emit l 1 token.SEMICOLON ";"
  else if Ascii.eqb ch "(" then emit l 1 token.LPAREN "("
  else if Ascii.eqb ch ")" then emit l 1 token.RPAREN ")"
  else if Ascii.eqb ch "[" then emit l 1 token.LBRACK "["
  else if Ascii.eqb ch "]" then emit l 1 token.RBRACK "]"
  else if Ascii.eqb ch "{" then emit l 1 token.LBRACE "{"
  else if Ascii.eqb ch "}" then emit l 1 token.RBRACE "}"
  else if Ascii.eqb ch "." then emit l 1 token.DOT "."
  else if Ascii.eqb ch "#" then emit l 1 token.HASH "#"
  else if Ascii.eqb ch "&" then emit l 1 token.AMPERSAND "&"
  else if Ascii.eqb ch "|" then emit l 1 token.PIPE "|"
  else if Ascii.eqb ch "@" then emit l 1 token.AT "@"
  else if isLetter ch then Some (readIdentifier l)
  else if isDigit ch then Some (readNumber l)
  else emit l 1 token.ILLEGAL (String ch EmptyString).

(** [NextToken]; [None] when the bound [fuel] on its calls to itself and on
    the loops of strings and comments is reached. *)
Fixpoint NextToken (fuel : nat) (l : Lexer) : option (token.Token * Lexer) :=
  match fuel with
  | O => None
  | S fuel' =>
      if finished l then
        Some (token.mkToken token.EOF "" (position l), l)
      else if Nat.eqb (charIndex l) 0 && negb (indentResolved l) then
        handleIndentChange (with_indentResolved l true) (measureIndent (currLine l))
      else
        match charAt l (charIndex l) with
        | None =>
            Some (token.mkToken token.NEWLINE "\n" (position l), advanceLine l)
        | Some ch =>
            if isHorizontalWhitespace ch then
              NextToken fuel' (with_charIndex l (S (charIndex l)))
            else if Ascii.eqb ch "f" then
              let next := peekChar l in
              if Ascii.eqb next DQUOTE || Ascii.eqb next SQUOTE then
                readFString fuel' (with_charIndex l (S (charIndex l)))
              else Some (readIdentifier l)
            else if Ascii.eqb ch "_" then
              if peekCharIsLetterOrDigitOrUnderscore l then Some (readIdentifier l)
              else emit l 1 token.UNDERSCORE "_"
            else if Ascii.eqb ch "/" then
              let next := peekChar l in
              if Ascii.eqb next "=" then emit l 2 token.DIVASSGN "/="
              else if Ascii.eqb next "/" then NextToken fuel' (skipLineComment l)
              else if Ascii.eqb next "*" then
                match skipBlockComment fuel' l with
                | Some l' => NextToken fuel' l'
                | None => None
                end
              else emit l 1 token.SLASH "/"
            else if Ascii.eqb ch DQUOTE || Ascii.eqb ch SQUOTE then readString fuel' l
            else operatorToken l ch
        end
  end.

(** The kinds and literals of the tokens that the first [n] calls of
    [NextToken] give, each call with [fuel]. *)
Fixpoint tokens (fuel : nat) (n : nat) (l : Lexer) : list (token.TokenType * string) :=
  match n with
  | O => []
  | S n' =>
      match NextToken fuel l with
      | Some (tok, l') => (token.Type_ tok, token.Literal tok) :: tokens fuel n' l'
      | None => []
      end
  end.

End WithKeywords.

End lexer.

(** ** The abstract syntax the evaluator consumes *)

Module ast.

(** Modelled from the spec: the node variants of section 6 with the fields
    the evaluator reads.  The [ast] package is not part of the sources.  A
    field of Go type [*ast.BlockStatement] holds the block's [Statements];
    a field the evaluator tests against [nil] is an [option]; [Nil] is the
    [nil] node.  [is_arcane] and [is_arcanespell] record whether the node's
    token is [token.ARCANE], respectively [token.ARCANESPELL]. *)
Inductive Node : Type :=
| Nil
| Program (Statements : list Node)
| ExpressionStatement (Expression : Node)
| BlockStatement (Statements : list Node)
| IfStatement (Condition : Node) (Consequence : list Node)
    (OtherwiseBranches : list (Node * list Node))
    (Alternative : option (list Node))
| StopStatement
| SkipStatement
| CheckStatement (Condition : Node) (Message : option Node)
| PrefixExpression (Operator : string) (Right : Node)
| InfixExpression (Left : Node) (Operator : string) (Right : Node)
| PostfixExpression (Left : Node) (Operator : string)
| IntegerLiteral (Value : Z)
| FloatLiteral (Value : float)
| FStringLiteral (Parts : list (string + Node))
| NoneLiteral
| ReturnStatement (ReturnValue : Node)
| Boolean (Value : bool)
| AssignStatement (Name : Node) (Value : Node)
| WhileStatement (Condition : Node) (Body : list Node)
| ForStatement (Variable_ : Node) (Iterable : Node) (Body : list Node)
    (Alternative : option (list Node))
| ImportStatement (FilePath : string) (Alias : option string)
| MatchStatement (MatchValue : Node) (Cases : list (Node * list Node))
    (Default : option (list Node))
| RaiseStatement (Position : token.Position) (Error : Node)
| ArcaneGrimoire (Name : string)
    (Methods : list (string * list (string * option Node) * list Node))
| Identifier (Value : string)
| ArrayLiteral (Elements : list Node)
| StringLiteral (Value : string)
| TupleLiteral (Elements : list Node)
| TupleAssignment (Elements : list Node)
| HashLiteral (Pairs : list (Node * Node))
| FunctionDefinition (Name : string)
    (Parameters : list (string * option Node)) (Body : list Node)
| DotExpression (Left : Node) (Right : string)
| IndexExpression (Left : Node) (Index : Node)
| RangeExpression (Start : option Node) (End_ : option Node)
| GrimoireDefinition (is_arcane : bool) (Name : string)
    (Inherits : option string)
    (InitMethod : option (list (string * option Node) * list Node))
    (Methods : list (bool * string * list (string * option Node) * list Node))
| AttemptStatement (TryBlock : list Node)
    (EnsnareClauses : list (Node * list Node))
    (ResolveBlock : option (list Node))
| IgnoreStatement
| CallExpression (Function : Node) (Arguments : list Node).

(** A parameter: its name and its default expression, if any. *)
Definition Param : Type := (string * option Node)%type.

(** What [fmt]'s [%T] prints for a node. *)
Definition GoType (n : Node) : string :=
  match n with
  | Nil => "<nil>"
  | Program _ => "*ast.Program"
  | ExpressionStatement _ => "*ast.ExpressionStatement"
  | BlockStatement _ => "*ast.BlockStatement"
  | IfStatement _ _ _ _ => "*ast.IfStatement"
  | StopStatement => "*ast.StopStatement"
  | SkipStatement => "*ast.SkipStatement"
  | CheckStatement _ _ => "*ast.CheckStatement"
  | PrefixExpression _ _ => "*ast.PrefixExpression"
  | InfixExpression _ _ _ => "*ast.InfixExpression"
  | PostfixExpression _ _ => "*ast.PostfixExpression"
  | IntegerLiteral _ => "*ast.IntegerLiteral"
  | FloatLiteral _ => "*ast.FloatLiteral"
  | FStringLiteral _ => "*ast.FStringLiteral"
  | NoneLiteral => "*ast.NoneLiteral"
  | ReturnStatement _ => "*ast.ReturnStatement"
  | Boolean _ => "*ast.Boolean"
  | AssignStatement _ _ => "*ast.AssignStatement"
  | WhileStatement _ _ => "*ast.WhileStatement"
  | ForStatement _ _ _ _ => "*ast.ForStatement"
  | ImportStatement _ _ => "*ast.ImportStatement"
  | MatchStatement _ _ _ => "*ast.MatchStatement"
  | RaiseStatement _ _ => "*ast.RaiseStatement"
  | ArcaneGrimoire _ _ => "*ast.ArcaneGrimoire"
  | Identifier _ => "*ast.Identifier"
  | ArrayLiteral _ => "*ast.ArrayLiteral"
  | StringLiteral _ => "*ast.StringLiteral"
  | TupleLiteral _ => "*ast.TupleLiteral"
  | TupleAssignment _ => "*ast.TupleAssignment"
  | HashLiteral _ => "*ast.HashLiteral"
  | FunctionDefinition _ _ _ => "*ast.FunctionDefinition"
  | DotExpression _ _ => "*ast.DotExpression"
  | IndexExpression _ _ => "*ast.IndexExpression"
  | RangeExpression _ _ => "*ast.RangeExpression"
  | GrimoireDefinition _ _ _ _ _ => "*ast.GrimoireDefinition"
  | AttemptStatement _ _ _ => "*ast.AttemptStatement"
  | IgnoreStatement => "*ast.IgnoreStatement"
  | CallExpression _ _ => "*ast.CallExpression"
  end.

End ast.

(** ** Run-time values ([src/object]) *)

Module object.

(** A pointer into one of the store's heaps. *)
Definition loc : Type := nat.

(** Modelled from the spec: the type tags ("every Object has a stable type
    tag").  [object.go], which declares them, is not part of the sources;
    [CUSTOM_ERROR_OBJ] is declared in [error_handling.go]. *)
Inductive ObjectType : Type :=
| INTEGER_OBJ | FLOAT_OBJ | BOOLEAN_OBJ | STRING_OBJ | NONE_OBJ
| ARRAY_OBJ | TUPLE_OBJ | HASH_OBJ | RANGE_OBJ
| FUNCTION_OBJ | GRIMOIRE_OBJ | INSTANCE_OBJ | BOUND_METHOD_OBJ
| RETURN_VALUE_OBJ | STOP_OBJ | SKIP_OBJ
| ERROR_OBJ | CUSTOM_ERROR_OBJ | NAMESPACE_OBJ | BUILTIN_OBJ.

#[global] Instance ObjectType_eq_dec : EqDecision ObjectType.
Proof. solve_decision. Defined.

(** Modelled from the spec: how a type tag prints inside a message.  The
    evaluator's own messages spell INTEGER, FLOAT and RANGE this way and
    [error_handling.go] gives the tag of a user-defined error. *)
Definition ObjectType_string (t : ObjectType) : string :=
  match t with
  | INTEGER_OBJ => "INTEGER" | FLOAT_OBJ => "FLOAT" | BOOLEAN_OBJ => "BOOLEAN"
  | STRING_OBJ => "STRING" | NONE_OBJ => "NONE" | ARRAY_OBJ => "ARRAY"
  | TUPLE_OBJ => "TUPLE" | HASH_OBJ => "HASH" | RANGE_OBJ => "RANGE"
  | FUNCTION_OBJ => "FUNCTION" | GRIMOIRE_OBJ => "GRIMOIRE"
  | INSTANCE_OBJ => "INSTANCE" | BOUND_METHOD_OBJ => "BOUND_METHOD"
  | RETURN_VALUE_OBJ => "RETURN_VALUE" | STOP_OBJ => "STOP" | SKIP_OBJ => "SKIP"
  | ERROR_OBJ => "ERROR" | CUSTOM_ERROR_OBJ => "USER DEFINED ERROR"
  | NAMESPACE_OBJ => "NAMESPACE" | BUILTIN_OBJ => "BUILTIN"
  end.

Inductive ErrorType : Type :=
| RuntimeError | SyntaxError | TypeError | ReferenceError | ImportError
| IndexError | AttributeError | NameError | ValueError | OverflowError
| AssertionError | NotImplementedErr | DivisionByZeroErr.

(** [Args] and [Context] of a stack entry stay empty in the evaluator
    ([AddStackEntry] passes [nil] and the empty string). *)
Record StackTraceEntry : Type := mkStackTraceEntry {
  entry_Position : token.Position;
  entry_Function : string
}.

(** [*object.Error]; [Cause], [Suggestions] and [Context] keep their zero
    values in everything the evaluator builds. *)
Record ErrorObj : Type := mkError {
  ErrorKind : ErrorType;
  Message : string;
  StackTrace : list StackTraceEntry;
  Position : token.Position
}.

(** [*object.Instance]: the grimoire it was made from and its field
    environment. *)
Record InstanceObj : Type := mkInstance {
  inst_Grimoire : loc;
  inst_Env : loc
}.

(** [*object.CustomError]; [ErrorType] is the declared class ([nil] for an
    error raised from a string), [Details] stays empty in the evaluator. *)
Record CustomErrorObj : Type := mkCustomError {
  cerr_Name : string;
  cerr_Message : string;
  cerr_ErrorType : option loc;
  cerr_Instance : option InstanceObj;
  cerr_Position : token.Position;
  cerr_StackTrace : list StackTraceEntry
}.

(** [*object.Function]. *)
Record FunctionObj : Type := mkFunction {
  Parameters : list ast.Param;
  Body : list ast.Node;
  fn_Env : loc;
  IsPrivate : bool;
  IsProtected : bool;
  IsAbstract : bool
}.

(** The two [None] singletons: [object.NONE] of the object package and the
    evaluator's own [NONE]; they are distinct allocations and the evaluator
    compares against them by identity. *)
Inductive NonePtr : Type := object_NONE | evaluator_NONE.

(** An [object.Object] interface value.  [Nil] is Go's [nil].  Array and
    Tuple hold the location of their [Elements]; booleans are the
    evaluator's [TRUE] and [FALSE] singletons. *)
Inductive Object : Type :=
| Nil
| Integer (Value : Z)
| Float (Value : float)
| Boolean (Value : bool)
| String (Value : string)
| None (ptr : NonePtr)
| Array (Elements : loc)
| Tuple (Elements : loc)
| Hash (Pairs : list (Object * Object))
| Range (Start : Object) (End_ : Object)
| Function (fn : FunctionObj)
| Grimoire (ptr : loc)
| Instance (inst : InstanceObj)
| BoundMethod (inst : InstanceObj) (Method : FunctionObj)
| ReturnValue (Value : Object)
| Stop
| Skip
| Error (e : ErrorObj)
| CustomError (e : CustomErrorObj)
| Namespace (Env : loc)
| Builtin (name : string).

Definition NONE : Object := None object_NONE.
Definition STOP : Object := Stop.
Definition SKIP : Object := Skip.

(** [obj.Type()]; calling a method on the [nil] interface panics. *)
Definition Type_ (obj : Object) : option ObjectType :=
  match obj with
  | Nil => Datatypes.None
  | Integer _ => Some INTEGER_OBJ
  | Float _ => Some FLOAT_OBJ
  | Boolean _ => Some BOOLEAN_OBJ
  | String _ => Some STRING_OBJ
  | None _ => Some NONE_OBJ
  | Array _ => Some ARRAY_OBJ
  | Tuple _ => Some TUPLE_OBJ
  | Hash _ => Some HASH_OBJ
  | Range _ _ => Some RANGE_OBJ
  | Function _ => Some FUNCTION_OBJ
  | Grimoire _ => Some GRIMOIRE_OBJ
  | Instance _ => Some INSTANCE_OBJ
  | BoundMethod _ _ => Some BOUND_METHOD_OBJ
  | ReturnValue _ => Some RETURN_VALUE_OBJ
  | Stop => Some STOP_OBJ
  | Skip => Some SKIP_OBJ
  | Error _ => Some ERROR_OBJ
  | CustomError _ => Some CUSTOM_ERROR_OBJ
  | Namespace _ => Some NAMESPACE_OBJ
  | Builtin _ => Some BUILTIN_OBJ
  end.

(** What [fmt]'s [%T] prints for an object. *)
Definition GoType (obj : Object) : string :=
  match obj with
  | Nil => "<nil>"
  | Integer _ => "*object.Integer"
  | Float _ => "*object.Float"
  | Boolean _ => "*object.Boolean"
  | String _ => "*object.String"
  | None _ => "*object.None"
  | Array _ => "*object.Array"
  | Tuple _ => "*object.Tuple"
  | Hash _ => "*object.Hash"
  | Range _ _ => "*object.Range"
  | Function _ => "*object.Function"
  | Grimoire _ => "*object.Grimoire"
  | Instance _ => "*object.Instance"
  | BoundMethod _ _ => "*object.BoundMethod"
  | ReturnValue _ => "*object.ReturnValue"
  | Stop => "*object.Stop"
  | Skip => "*object.Skip"
  | Error _ => "*object.Error"
  | CustomError _ => "*object.CustomError"
  | Namespace _ => "*object.Namespace"
  | Builtin _ => "*object.Builtin"
  end.

(** [*object.Environment] ([environment.go]). *)
Record Environment : Type := mkEnvironment {
  store : gmap string Object;
  outer : option loc
}.

(** [*object.Grimoire]. *)
Record GrimoireObj : Type := mkGrimoire {
  Name : string;
  Methods : gmap string FunctionObj;
  InitMethod : option FunctionObj;
  grim_Env : loc;
  Inherits : option loc;
  IsArcane : bool
}.

(** The heaps.  [next] is the next free location; [callStack] is the call
    stack of the evaluator's global [ctx] (empty when [ctx] is [nil]). *)
Record Store : Type := mkStore {
  envs : gmap loc Environment;
  slices : gmap loc (list Object);
  grimoires : gmap loc GrimoireObj;
  next : loc;
  callStack : list StackTraceEntry
}.

Definition set_envs (st : Store) (e : gmap loc Environment) : Store :=
  mkStore e (slices st) (grimoires st) (next st) (callStack st).
Definition set_slices (st : Store) (s : gmap loc (list Object)) : Store :=
  mkStore (envs st) s (grimoires st) (next st) (callStack st).
Definition set_grimoires (st : Store) (g : gmap loc GrimoireObj) : Store :=
  mkStore (envs st) (slices st) g (next st) (callStack st).
Definition bump (st : Store) : Store :=
  mkStore (envs st) (slices st) (grimoires st) (S (next st)) (callStack st).

(** [NewError]. *)
Definition NewError (errorType : ErrorType) (message : string)
    (pos : token.Position) : ErrorObj :=
  mkError errorType message [] pos.

(** [Error.AddStackEntry]. *)
Definition Error_AddStackEntry (e : ErrorObj) (position : token.Position)
    (function : string) : ErrorObj :=
  mkError (ErrorKind e) (Message e)
    (StackTrace e ++ [mkStackTraceEntry position function]) (Position e).

(** [NewCustomError]. *)
Definition NewCustomError (name message : string) (pos : token.Position)
    : CustomErrorObj :=
  mkCustomError name message Datatypes.None Datatypes.None pos [].

(** [CustomError.AddStackEntry]. *)
Definition CustomError_AddStackEntry (ce : CustomErrorObj)
    (position : token.Position) (function : string) : CustomErrorObj :=
  mkCustomError (cerr_Name ce) (cerr_Message ce) (cerr_ErrorType ce)
    (cerr_Instance ce) (cerr_Position ce)
    (cerr_StackTrace ce ++ [mkStackTraceEntry position function]).

(** [Environment.Get] on the environment at [e]: the binding of [name] in
    the nearest enclosing environment that has one.  An enclosed environment
    is allocated after the one it encloses, so the chain from [e] has at most
    [S e] links, which is the bound of the walk. *)
Fixpoint Get_from (n : nat) (es : gmap loc Environment) (e : loc)
    (name : string) : option Object :=
  match n with
  | O => Datatypes.None
  | S n' =>
      match es !! e with
      | Datatypes.None => Datatypes.None
      | Some E =>
          match store E !! name with
          | Some obj => Some obj
          | Datatypes.None =>
              match outer E with
              | Some o => Get_from n' es o name
              | Datatypes.None => Datatypes.None
              end
          end
      end
  end.

Definition Get (st : Store) (e : loc) (name : string) : option Object :=
  Get_from (S e) (envs st) e name.

(** [Environment.Set]: writes into the environment at [e] itself. *)
Definition Set_ (st : Store) (e : loc) (name : string) (val : Object) : Store :=
  match envs st !! e with
  | Some E => set_envs st (<[e := mkEnvironment (<[name := val]> (store E)) (outer E)]> (envs st))
  | Datatypes.None => st
  end.

(** [Environment.GetOuter]. *)
Definition GetOuter (st : Store) (e : loc) : option loc :=
  match envs st !! e with
  | Some E => outer E
  | Datatypes.None => Datatypes.None
  end.

(** [NewEnclosedEnvironment(outer)] ([NewEnvironment] when [o] is [None]). *)
Definition NewEnclosedEnvironment (st : Store) (o : option loc) : loc * Store :=
  let e := next st in
  (e, bump (set_envs st (<[e := mkEnvironment ∅ o]> (envs st)))).

(** [Environment.GetFunctionName]. *)
Fixpoint GetFunctionName_from (n : nat) (st : Store) (e : loc) : string :=
  match n with
  | O => ""
  | S n' =>
      let self_name :=
        match Get st e "self" with
        | Some (Instance i) =>
            match grimoires st !! inst_Grimoire i with
            | Some g => Some (Name g ++ " method")%string
            | Datatypes.None => Datatypes.None
            end
        | _ => Datatypes.None
        end in
      match self_name with
      | Some s => s
      | Datatypes.None =>
          match Get st e "__function_name" with
          | Some (String s) => s
          | _ =>
              match GetOuter st e with
              | Some o => GetFunctionName_from n' st o
              | Datatypes.None => ""
              end
          end
      end
  end.

Definition GetFunctionName (st : Store) (e : loc) : string :=
  GetFunctionName_from (S e) st e.

End object.

(** ** The evaluator ([src/evaluator]) *)

Module evaluator.

(** How a call into Go code ends: with a value and the store it left; with a
    run-time panic (a method call on [nil], a failed type assertion, an index
    out of range, an integer division by zero); out of fuel, which stands for
    a computation that has not finished within the bound; or on a construct
    that is beyond this embedding. *)
Inductive Outcome (A : Type) : Type :=
| Done (a : A) (st : object.Store)
| Panic
| OutOfFuel
| Beyond.
Arguments Done {A} a st.
Arguments Panic {A}.
Arguments OutOfFuel {A}.
Arguments Beyond {A}.

Definition M (A : Type) : Type := object.Store -> Outcome A.

Definition ret {A : Type} (a : A) : M A := fun st => Done a st.

Definition bind {A B : Type} (m : M A) (k : A -> M B) : M B :=
  fun st =>
    match m st with
    | Done a st' => k a st'
    | Panic => Panic
    | OutOfFuel => OutOfFuel
    | Beyond => Beyond
    end.

Notation "'do' x <- m ; k" := (bind m (fun x => k))
  (at level 10, x name, m at level 100, k at level 200, only parsing).
Notation "'do' ' p <- m ; k" := (bind m (fun x => match x with p => k end))
  (at level 10, p pattern, m at level 100, k at level 200, only parsing).

Definition panic {A : Type} : M A := fun _ => Panic.
Definition beyond {A : Type} : M A := fun _ => Beyond.
Definition out_of_fuel {A : Type} : M A := fun _ => OutOfFuel.
Definition get_store : M object.Store := fun st => Done st st.
Definition put_store (st : object.Store) : M unit := fun _ => Done tt st.

(** A value that Go obtains by a call that panics on [None]. *)
Definition must {A : Type} (o : option A) : M A :=
  match o with Some a => ret a | None => panic end.

(** What the evaluator takes from code that is not part of the sources. *)
Record Host : Type := mkHost {
  (** [math.Pow] *)
  math_Pow : float -> float -> float;
  (** the conversion [int64(f)] of a [float64] *)
  float64_to_int64 : float -> Z;
  (** [obj.Inspect()] *)
  Inspect : object.Store -> object.Object -> string;
  (** [node.String()] of an AST node *)
  Node_String : ast.Node -> string;
  (** the node details [newAssignmentError] prints from [TokenLiteral] *)
  Node_details : ast.Node -> string;
  (** membership in the [builtins] table *)
  builtins : string -> bool;
  (** [fn.Fn(args...)] of the builtin of that name *)
  builtin_Fn : string -> list object.Object -> M object.Object
}.

Definition NONE : object.Object := object.None object.evaluator_NONE.

(** The line feed inside a message. *)
Definition nl : string := String (ascii_of_nat 10) EmptyString.

Definition TRUE : object.Object := object.Boolean true.
Definition FALSE : object.Object := object.Boolean false.

Definition nativeBoolToBooleanObject (input : bool) : object.Object :=
  if input then TRUE else FALSE.

(** [newError]: a RuntimeError carrying the current call stack of [ctx]. *)
Definition newError (message : string) : M object.Object :=
  fun st =>
    Done (object.Error
            (object.mkError object.RuntimeError message (object.callStack st)
               token.Position_zero)) st.

Definition isError (obj : object.Object) : bool :=
  match obj with
  | object.Error _ | object.CustomError _ => true
  | _ => false
  end.

(** [obj.Type()] as a step of the evaluator. *)
Definition Type_of (obj : object.Object) : M object.ObjectType :=
  must (object.Type_ obj).

Definition type_name (obj : object.Object) : M string :=
  do t <- Type_of obj; ret (object.ObjectType_string t).

(** [len(x.Elements)] and [x.Elements] of an Array or Tuple. *)
Definition elements_at (l : object.loc) : M (list object.Object) :=
  fun st => must (object.slices st !! l) st.

(** A freshly allocated backing array holding [els]. *)
Definition new_slice (els : list object.Object) : M object.loc :=
  fun st =>
    let l := object.next st in
    Done l (object.bump (object.set_slices st (<[l := els]> (object.slices st)))).

Definition isTruthy (obj : object.Object) : M bool :=
  match obj with
  | object.Boolean b => ret b
  | object.String s => ret (negb (String.eqb s ""))
  | object.Array l => do els <- elements_at l; ret (negb (Nat.eqb (length els) 0))
  | object.Tuple l => do els <- elements_at l; ret (negb (Nat.eqb (length els) 0))
  | object.Hash ps => ret (negb (Nat.eqb (length ps) 0))
  | object.None _ => ret false
  | _ => ret true
  end.

(** The conditions of a Go [switch] without tag: [None] is a condition whose
    evaluation panics, conjunction and disjunction short-circuit. *)
Definition type_is (obj : object.Object) (t : object.ObjectType) : option bool :=
  match object.Type_ obj with
  | Some t' => Some (bool_decide (t' = t))
  | None => None
  end.

Definition and_then (a b : option bool) : option bool :=
  match a with Some true => b | _ => a end.

Definition or_else (a b : option bool) : option bool :=
  match a with Some false => b | _ => a end.

(** [switch cases default]: the body of the first case whose condition holds;
    [default] is what follows the [switch] when no case is taken. *)
Fixpoint switch {A : Type} (cases : list (option bool * M A)) (default : M A) : M A :=
  match cases with
  | [] => default
  | (None, _) :: _ => panic
  | (Some true, body) :: _ => body
  | (Some false, _) :: rest => switch rest default
  end.

Definition is_object_NONE (obj : object.Object) : bool :=
  match obj with object.None object.object_NONE => true | _ => false end.

Definition toFloat (obj : object.Object) : float :=
  match obj with
  | object.Integer v => int64.to_float64 v
  | object.Float v => v
  | _ => 0%float
  end.

(** [evalTupleIndexExpression]: no negative indices on a Tuple. *)
Definition evalTupleIndexExpression (tuple index : object.Object) : M object.Object :=
  match tuple, index with
  | object.Tuple t, object.Integer idx =>
      do els <- elements_at t;
      if (idx <? 0) || (idx >=? Z.of_nat (length els)) then ret NONE
      else must (els !! Z.to_nat idx)
  | _, _ => panic
  end.

(** [evalArrayIndexExpression]. *)
Definition evalArrayIndexExpression (array index : object.Object) : M object.Object :=
  match array, index with
  | object.Array a, object.Integer idx0 =>
      do els <- elements_at a;
      let length := Z.of_nat (length els) in
      let maxIndex := int64.sub length 1 in
      let idx := if idx0 <? 0 then int64.add length idx0 else idx0 in
      if (idx <? 0) || (idx >? maxIndex) then ret NONE
      else must (els !! Z.to_nat idx)
  | _, _ => panic
  end.

(** The older [evalArrayIndexExpression] that the source file holds as well,
    in its second copy of the evaluator: it has no negative indices. *)
Definition evalArrayIndexExpression_older (array index : object.Object) : M object.Object :=
  match array, index with
  | object.Array a, object.Integer idx =>
      do els <- elements_at a;
      let maxIndex := int64.wrap (Z.of_nat (length els) - 1) in
      if (idx <? 0) || (idx >? maxIndex) then ret NONE
      else must (els !! Z.to_nat idx)
  | _, _ => panic
  end.

(** One bound of a slice: [None] and an absent bound give [default], an
    Integer gives its value, counted from the end when negative; anything
    else is the error named by [what]. *)
Definition slice_bound (what : string) (len default : Z) (b : object.Object)
    : M (object.Object + Z) :=
  match b with
  | object.Nil | object.None _ => ret (inr default)
  | object.Integer v => ret (inr (if v <? 0 then int64.add len v else v))
  | _ =>
      do t <- type_name b;
      do e <- newError ("array slice " +:+ what +:+ " index must be INTEGER, got " +:+ t);
      ret (inl e)
  end.

(** [evalArraySliceExpression]. *)
Definition evalArraySliceExpression (array rangeObj : object.Object) : M object.Object :=
  match array, rangeObj with
  | object.Array a, object.Range Start End_ =>
      do els <- elements_at a;
      let len := Z.of_nat (length els) in
      do s <- slice_bound "start" len 0 Start;
      match s with
      | inl e => ret e
      | inr startIdx =>
          do e <- slice_bound "end" len len End_;
          match e with
          | inl e => ret e
          | inr endIdx =>
              let startIdx := if startIdx <? 0 then 0 else startIdx in
              let endIdx := if endIdx >? len then len else endIdx in
              if (startIdx >=? len) || (endIdx <=? 0) || (startIdx >=? endIdx) then
                do l <- new_slice []; ret (object.Array l)
              else
                do l <- new_slice (take (Z.to_nat (endIdx - startIdx))
                                     (drop (Z.to_nat startIdx) els));
                ret (object.Array l)
          end
      end
  | _, _ => panic
  end.

(** [evalIndexExpression]; indexing a Hash needs the hash keys of
    [object.go], which are not part of the sources. *)
Definition evalIndexExpression (left index : object.Object) : M object.Object :=
  do lt <- Type_of left;
  match lt with
  | object.TUPLE_OBJ => evalTupleIndexExpression left index
  | object.ARRAY_OBJ =>
      do it <- Type_of index;
      match it with
      | object.INTEGER_OBJ => evalArrayIndexExpression left index
      | object.RANGE_OBJ => evalArraySliceExpression left index
      | _ => newError ("array index must be INTEGER or RANGE, got " +:+ object.ObjectType_string it)
      end
  | object.HASH_OBJ => beyond
  | _ => newError ("index operator not supported: " +:+ object.ObjectType_string lt)
  end.

Section WithHost.

Variable host : Host.

Definition evalIntegerInfixExpression (operator : string)
    (left right : object.Object) : M object.Object :=
  match left, right with
  | object.Integer leftVal, object.Integer rightVal =>
      if String.eqb operator "+" then ret (object.Integer (int64.add leftVal rightVal))
      else if String.eqb operator "-" then ret (object.Integer (int64.sub leftVal rightVal))
      else if String.eqb operator "*" then ret (object.Integer (int64.mul leftVal rightVal))
      else if String.eqb operator "/" then
        do q <- must (int64.quo leftVal rightVal); ret (object.Integer q)
      else if String.eqb operator "%" then
        do r <- must (int64.rem leftVal rightVal); ret (object.Integer r)
      else if String.eqb operator "<" then ret (nativeBoolToBooleanObject (leftVal <? rightVal))
      else if String.eqb operator ">" then ret (nativeBoolToBooleanObject (leftVal >? rightVal))
      else if String.eqb operator "**" then
        ret (object.Integer
               (float64_to_int64 host
                  (math_Pow host (int64.to_float64 leftVal) (int64.to_float64 rightVal))))
      else if String.eqb operator "==" then ret (nativeBoolToBooleanObject (leftVal =? rightVal))
      else if String.eqb operator "!=" then ret (nativeBoolToBooleanObject (negb (leftVal =? rightVal)))
      else if String.eqb operator ">=" then ret (nativeBoolToBooleanObject (leftVal >=? rightVal))
      else if String.eqb operator "<=" then ret (nativeBoolToBooleanObject (leftVal <=? rightVal))
      else if String.eqb operator "<<" then ret (object.Integer (int64.shl leftVal rightVal))
      else if String.eqb operator ">>" then ret (object.Integer (int64.shr leftVal rightVal))
      else if String.eqb operator "&" then ret (object.Integer (Z.land leftVal rightVal))
      else if String.eqb operator "^" then ret (object.Integer (Z.lxor leftVal rightVal))
      else if String.eqb operator "|" then ret (object.Integer (Z.lor leftVal rightVal))
      else newError ("unknown operator: INTEGER " +:+ operator +:+ " INTEGER")
  | _, _ => panic
  end.

Definition evalBooleanInfixExpression (operator : string)
    (left right : object.Object) : M object.Object :=
  match left, right with
  | object.Boolean leftVal, object.Boolean rightVal =>
      if String.eqb operator "==" then ret (nativeBoolToBooleanObject (Bool.eqb leftVal rightVal))
      else if String.eqb operator "!=" then ret (nativeBoolToBooleanObject (negb (Bool.eqb leftVal rightVal)))
      else newError ("unknown operator: BOOLEAN " +:+ operator +:+ " BOOLEAN")
  | _, _ => panic
  end.

Definition evalStringInfixExpression (operator : string)
    (left right : object.Object) : M object.Object :=
  if negb (String.eqb operator "+") then
    do lt <- type_name left; do rt <- type_name right;
    newError ("unknown operator: " +:+ lt +:+ " " +:+ operator +:+ " " +:+ rt)
  else
    match left, right with
    | object.String leftVal, object.String rightVal =>
        ret (object.String (leftVal +:+ rightVal))
    | _, _ => panic
    end.

Definition evalArrayInfixExpression (operator : string)
    (left right : object.Object) : M object.Object :=
  if negb (String.eqb operator "+") then
    do lt <- type_name left; do rt <- type_name right;
    newError ("unknown operator: " +:+ lt +:+ " " +:+ operator +:+ " " +:+ rt)
  else
    match left, right with
    | object.Array leftVal, object.Array rightVal =>
        do ls <- elements_at leftVal;
        do rs <- elements_at rightVal;
        do newElements <- new_slice (ls ++ rs);
        ret (object.Array newElements)
    | _, _ => panic
    end.

(** [inst.Grimoire.Name]. *)
Definition grimoire_at (g : object.loc) : M object.GrimoireObj :=
  fun st => must (object.grimoires st !! g) st.

(** The branch of [evalInfixExpression] for operands of which at least one
    is a Float, once the dispatch has reached it. *)
Definition evalFloatInfix (operator : string) (left right : object.Object)
    : M object.Object :=
  let leftVal := toFloat left in
  let rightVal := toFloat right in
  if String.eqb operator "+" then ret (object.Float (leftVal + rightVal)%float)
  else if String.eqb operator "-" then ret (object.Float (leftVal - rightVal)%float)
  else if String.eqb operator "*" then ret (object.Float (leftVal * rightVal)%float)
  else if String.eqb operator "/" then ret (object.Float (leftVal / rightVal)%float)
  else if String.eqb operator "**" then ret (object.Float (math_Pow host leftVal rightVal))
  else
    do lt <- type_name left; do rt <- type_name right;
    newError ("unknown operator: " +:+ lt +:+ " " +:+ operator +:+ " " +:+ rt).

(** [evalInfixExpression]; the cases of its [switch] in source order.  The
    fuel bounds the recursion on the [elements] of two Array instances. *)
Fixpoint evalInfixExpression (fuel : nat) (operator : string)
    (left right : object.Object) {struct fuel} : M object.Object :=
  match fuel with
  | O => out_of_fuel
  | S fuel' =>
      switch
        [ (and_then (type_is left object.INTEGER_OBJ) (type_is right object.INTEGER_OBJ),
           evalIntegerInfixExpression operator left right);
          (and_then (type_is left object.BOOLEAN_OBJ) (type_is right object.BOOLEAN_OBJ),
           evalBooleanInfixExpression operator left right);
          (and_then (type_is left object.STRING_OBJ) (type_is right object.STRING_OBJ),
           evalStringInfixExpression operator left right);
          (and_then (type_is left object.ARRAY_OBJ) (type_is right object.ARRAY_OBJ),
           evalArrayInfixExpression operator left right);
          (and_then (type_is left object.INSTANCE_OBJ) (type_is right object.INSTANCE_OBJ),
           match left, right with
           | object.Instance leftInst, object.Instance rightInst =>
               do lg <- grimoire_at (object.inst_Grimoire leftInst);
               do rg <- grimoire_at (object.inst_Grimoire rightInst);
               if String.eqb (object.Name lg) "Array" && String.eqb (object.Name rg) "Array"
                  && String.eqb operator "+" then
                 do st <- get_store;
                 match object.Get st (object.inst_Env leftInst) "elements",
                       object.Get st (object.inst_Env rightInst) "elements" with
                 | Some leftElements, Some rightElements =>
                     do resultArray <- evalInfixExpression fuel' operator leftElements rightElements;
                     if isError resultArray then ret resultArray
                     else
                       do st1 <- get_store;
                       let '(e, st2) := object.NewEnclosedEnvironment st1
                                          (object.GetOuter st1 (object.inst_Env leftInst)) in
                       do _ <- put_store (object.Set_ st2 e "elements" resultArray);
                       ret (object.Instance (object.mkInstance (object.inst_Grimoire leftInst) e))
                 | _, _ => newError "Array instance missing elements field"
                 end
               else
                 newError ("unknown operator or unsupported instance operation: "
                           +:+ object.Name lg +:+ " " +:+ operator +:+ " " +:+ object.Name rg)
           | _, _ => panic
           end);
          (Some (is_object_NONE left && is_object_NONE right),
           ret (nativeBoolToBooleanObject (String.eqb operator "==")));
          (Some (is_object_NONE left || is_object_NONE right),
           if String.eqb operator "==" then ret (nativeBoolToBooleanObject false)
           else if String.eqb operator "!=" then ret (nativeBoolToBooleanObject true)
           else
             do lt <- type_name left; do rt <- type_name right;
             newError ("unknown operator or type mismatch: " +:+ lt +:+ " " +:+ operator +:+ " " +:+ rt));
          (match object.Type_ left, object.Type_ right with
           | Some lt, Some rt => Some (negb (bool_decide (lt = rt)))
           | _, _ => None
           end,
           do lt <- type_name left; do rt <- type_name right;
           newError ("type mismatch: " +:+ lt +:+ " " +:+ operator +:+ " " +:+ rt));
          (or_else (type_is left object.FLOAT_OBJ) (type_is right object.FLOAT_OBJ),
           evalFloatInfix operator left right) ]
        (do lt <- type_name left; do rt <- type_name right;
         newError ("unknown operator or type mismatch: " +:+ lt +:+ " " +:+ operator +:+ " " +:+ rt))
  end.

(** *** Environment access as evaluator steps *)

Definition env_Get (env : object.loc) (name : string) : M (option object.Object) :=
  fun st => Done (object.Get st env name) st.

Definition env_Set (env : object.loc) (name : string) (val : object.Object) : M unit :=
  fun st => Done tt (object.Set_ st env name val).

Definition new_env (outer : option object.loc) : M object.loc :=
  fun st => let '(e, st') := object.NewEnclosedEnvironment st outer in Done e st'.

(** [getGlobalEnv]: the outermost environment; as in [object.Get_from] the
    chain from [env] has at most [S env] links. *)
Fixpoint getGlobalEnv_from (n : nat) (st : object.Store) (env : object.loc) : object.loc :=
  match n with
  | O => env
  | S n' =>
      match object.GetOuter st env with
      | Some o => getGlobalEnv_from n' st o
      | None => env
      end
  end.

Definition getGlobalEnv (env : object.loc) : M object.loc :=
  fun st => Done (getGlobalEnv_from (S env) st env) st.

(** The type tags on which a block stops: the unwinding sentinels. *)
Definition is_signal (rt : object.ObjectType) : bool :=
  match rt with
  | object.RETURN_VALUE_OBJ | object.ERROR_OBJ | object.CUSTOM_ERROR_OBJ
  | object.STOP_OBJ | object.SKIP_OBJ => true
  | _ => false
  end.

Definition unwrapReturnValue (obj : object.Object) : object.Object :=
  match obj with
  | object.ReturnValue v => v
  | _ => obj
  end.

(** *** The evaluation functions, over the evaluation of their sub-nodes

    [Eval] is recursive through every function below.  Each of them is
    written against [ev], the evaluator they call on sub-nodes; [Eval] itself
    ties the knot further down. *)

Section WithEval.

Variable ev : ast.Node -> object.loc -> M object.Object.

(** [evalIdentifier]. *)
Definition evalIdentifier (Value : string) (env : object.loc) : M object.Object :=
  if builtins host Value then ret (object.Builtin Value)
  else
    do val <- env_Get env Value;
    match val with
    | Some v => ret v
    | None =>
        if String.eqb Value "None" then ret object.NONE
        else newError ("identifier not found: " +:+ Value)
    end.

(** [evalExpressions]: the values of [exps] in order, or the one-element
    list of the first error. *)
Fixpoint evalExpressions_loop (exps : list ast.Node) (env : object.loc)
    (result : list object.Object) : M (list object.Object) :=
  match exps with
  | [] => ret result
  | e :: rest =>
      do evaluated <- ev e env;
      if isError evaluated then ret [evaluated]
      else evalExpressions_loop rest env (result ++ [evaluated])
  end.

Definition evalExpressions (exps : list ast.Node) (env : object.loc)
    : M (list object.Object) :=
  evalExpressions_loop exps env [].

(** [evalProgram]; [result] is the value of the statement before. *)
Fixpoint evalProgram_loop (statements : list ast.Node) (env : object.loc)
    (result : object.Object) : M object.Object :=
  match statements with
  | [] => ret result
  | statement :: rest =>
      do result <- ev statement env;
      match result with
      | object.ReturnValue v => ret v
      | object.Error _ | object.CustomError _ => ret result
      | _ => evalProgram_loop rest env result
      end
  end.

Definition evalProgram (statements : list ast.Node) (env : object.loc) : M object.Object :=
  evalProgram_loop statements env object.Nil.

(** The test of [evalBlockStatement] on a statement's result: not [nil] and
    of a sentinel's type. *)
Definition block_stops (result : object.Object) : bool :=
  match object.Type_ result with
  | Some rt => is_signal rt
  | None => false
  end.

(** [evalBlockStatement]. *)
Fixpoint evalBlockStatement_loop (statements : list ast.Node) (env : object.loc)
    (result : object.Object) : M object.Object :=
  match statements with
  | [] => ret result
  | statement :: rest =>
      do result <- ev statement env;
      if block_stops result then ret result
      else evalBlockStatement_loop rest env result
  end.

Definition evalBlockStatement (statements : list ast.Node) (env : object.loc)
    : M object.Object :=
  evalBlockStatement_loop statements env object.Nil.

(** The [otherwise] branches of [evalIfExpression]: [inl] is the value to
    return, [inr] says that no branch was taken. *)
Fixpoint evalOtherwiseBranches (branches : list (ast.Node * list ast.Node))
    (env : object.loc) : M (object.Object + unit) :=
  match branches with
  | [] => ret (inr tt)
  | (Condition, Consequence) :: rest =>
      do condition <- ev Condition env;
      if isError condition then ret (inl condition)
      else
        do t <- isTruthy condition;
        if t then do r <- ev (ast.BlockStatement Consequence) env; ret (inl r)
        else evalOtherwiseBranches rest env
  end.

(** [evalIfExpression]. *)
Definition evalIfExpression (Condition : ast.Node) (Consequence : list ast.Node)
    (OtherwiseBranches : list (ast.Node * list ast.Node))
    (Alternative : option (list ast.Node)) (env : object.loc) : M object.Object :=
  do condition <- ev Condition env;
  do t <- isTruthy condition;
  if t then ev (ast.BlockStatement Consequence) env
  else
    do r <- evalOtherwiseBranches OtherwiseBranches env;
    match r with
    | inl v => ret v
    | inr _ =>
        match Alternative with
        | Some alt => ev (ast.BlockStatement alt) env
        | None => ret NONE
        end
    end.

(** The first loop of a [while] iteration, over [Statements[0 .. n-2]]: the
    control signal it leaves, [nil] when there is none. *)
Fixpoint evalWhileBodyPrefix (statements : list ast.Node) (env : object.loc)
    : M object.Object :=
  match statements with
  | [] => ret object.Nil
  | statement :: rest =>
      do res <- ev statement env;
      do rt <- Type_of res;
      if is_signal rt then ret res
      else evalWhileBodyPrefix rest env
  end.

(** [evalWhileStatement]; [iterations] bounds the number of times the
    condition is evaluated. *)
Fixpoint evalWhileStatement (iterations : nat) (Condition : ast.Node)
    (Body : list ast.Node) (env : object.loc) : M object.Object :=
  match iterations with
  | O => out_of_fuel
  | S iterations' =>
      do condition <- ev Condition env;
      if isError condition then ret condition
      else
        do t <- isTruthy condition;
        if negb t then ret NONE
        else
          let n := length Body in
          do controlSignal <- evalWhileBodyPrefix (take (n - 1) Body) env;
          do _ <- match last Body with
                  | Some statement => ev statement env
                  | None => ret object.Nil
                  end;
          match controlSignal with
          | object.Nil => evalWhileStatement iterations' Condition Body env
          | object.Stop => ret NONE
          | object.Skip => evalWhileStatement iterations' Condition Body env
          | object.ReturnValue _ | object.Error _ | object.CustomError _ =>
              ret controlSignal
          | _ => evalWhileStatement iterations' Condition Body env
          end
  end.

(** The statements of a [for] body on one element: [inr v] returns [v] from
    the loop, [inl result] goes on with the next element. *)
Fixpoint evalForBody (statements : list ast.Node) (env : object.loc)
    (result : object.Object) : M (object.Object + object.Object) :=
  match statements with
  | [] => ret (inl result)
  | stmt :: rest =>
      do result <- ev stmt env;
      do rt <- Type_of result;
      match rt with
      | object.STOP_OBJ => ret (inr NONE)
      | object.SKIP_OBJ => ret (inl result)
      | object.RETURN_VALUE_OBJ | object.ERROR_OBJ | object.CUSTOM_ERROR_OBJ =>
          ret (inr result)
      | _ => evalForBody rest env result
      end
  end.

(** Binding the targets of a tuple pattern of a [for] to [items]. *)
Fixpoint bindForTargets (targets : list ast.Node) (items : list object.Object)
    (env : object.loc) : M (option object.Object) :=
  match targets, items with
  | ast.Identifier name :: targets', item :: items' =>
      do _ <- env_Set env name item; bindForTargets targets' items' env
  | [], _ => ret None
  | _ :: _, [] => panic
  | _ :: _, _ =>
      do e <- newError "invalid assignment target in for loop"; ret (Some e)
  end.

(** Binding the loop variable of a [for] to [elem]; [Some e] is an error to
    return from the loop. *)
Definition bindForVariable (Variable_ : ast.Node) (elem : object.Object)
    (env : object.loc) : M (option object.Object) :=
  match Variable_ with
  | ast.Identifier name => do _ <- env_Set env name elem; ret None
  | ast.TupleLiteral targets =>
      match elem with
      | object.Tuple l | object.Array l =>
          do items <- elements_at l;
          if negb (Nat.eqb (length targets) (length items)) then
            do e <- newError ("unpacking mismatch: expected "
                              +:+ pretty (Z.of_nat (length targets)) +:+ " values, got "
                              +:+ pretty (Z.of_nat (length items)));
            ret (Some e)
          else bindForTargets targets items env
      | _ =>
          do t <- type_name elem;
          do e <- newError ("cannot unpack non-iterable element: " +:+ t);
          ret (Some e)
      end
  | _ => do _ <- env_Set env (Node_String host Variable_) elem; ret None
  end.

(** The iterations of a [for] over the backing array at [l], from index [i]
    for [remaining] elements; each element is read when its turn comes. *)
Fixpoint evalForElements (remaining : nat) (i : nat) (l : object.loc)
    (Variable_ : ast.Node) (Body : list ast.Node) (env : object.loc)
    (result : object.Object) : M (object.Object + object.Object) :=
  match remaining with
  | O => ret (inl result)
  | S remaining' =>
      do els <- elements_at l;
      do elem <- must (els !! i);
      do bound <- bindForVariable Variable_ elem env;
      match bound with
      | Some e => ret (inr e)
      | None =>
          do r <- evalForBody Body env result;
          match r with
          | inr v => ret (inr v)
          | inl result' => evalForElements remaining' (S i) l Variable_ Body env result'
          end
      end
  end.

(** [evalForStatement]. *)
Definition evalForStatement (Variable_ Iterable : ast.Node) (Body : list ast.Node)
    (Alternative : option (list ast.Node)) (env : object.loc) : M object.Object :=
  do iterable <- ev Iterable env;
  if isError iterable then ret iterable
  else
    match iterable with
    | object.Array l =>
        do els <- elements_at l;
        do r <- evalForElements (length els) 0 l Variable_ Body env NONE;
        match r with
        | inr v => ret v
        | inl result =>
            match Alternative with
            | Some alt => ev (ast.BlockStatement alt) env
            | None => ret result
            end
        end
    | _ =>
        do t <- type_name iterable;
        newError ("unsupported iterable type: " +:+ t)
    end.

(** *** Assignment *)

(** [newAssignmentError]: a TypeError whose message is [message] (what
    [fmt.Sprintf] makes of the format and its arguments), the details of
    [node] and the closing note. *)
Definition newAssignmentError (message : string) (node : ast.Node) : M object.Object :=
  fun st =>
    let details := match node with ast.Nil => "" | _ => Node_details host node end in
    Done (object.Error
            (object.mkError object.TypeError
               (message +:+ details +:+ nl +:+ nl
                +:+ "WORKAROUND: Try using individual assignments with a temporary variable instead of tuple unpacking in loops.")
               (object.callStack st) token.Position_zero)) st.

(** [arrayObj.Elements[idx] = val] with the negative-index and range checks
    that every assignment to an element repeats. *)
Definition assignElement (a : object.loc) (idx0 : Z) (val : object.Object)
    : M object.Object :=
  do els <- elements_at a;
  let length := Z.of_nat (length els) in
  let idx := if idx0 <? 0 then int64.add length idx0 else idx0 in
  if (idx <? 0) || (idx >=? length) then
    newError ("array index out of range: " +:+ pretty idx)
  else
    fun st =>
      Done val (object.set_slices st (<[a := <[Z.to_nat idx := val]> els]> (object.slices st))).

(** The closure [assignToTarget] of [evalTupleUnpacking]; [unpack] is
    [evalTupleUnpacking] itself, which the closure calls on a nested
    pattern. *)
Definition assignToTarget (unpack : list ast.Node -> object.loc -> object.loc -> M object.Object)
    (env : object.loc) (target : ast.Node) (value : object.Object) : M object.Object :=
  match target with
  | ast.Identifier name =>
      do _ <- env_Set env name value; ret value
  | ast.IndexExpression Left Index =>
      do leftObj <- ev Left env;
      if isError leftObj then ret leftObj
      else
        let regular :=
          do idxObj <- ev Index env;
          if isError idxObj then ret idxObj
          else
            switch
              [ (and_then (type_is leftObj object.ARRAY_OBJ)
                   (type_is idxObj object.INTEGER_OBJ),
                 match leftObj, idxObj with
                 | object.Array a, object.Integer idx => assignElement a idx value
                 | _, _ => panic
                 end) ]
              (do lt <- type_name leftObj; do it <- type_name idxObj;
               newError ("invalid assignment target in tuple unpacking: "
                         +:+ lt +:+ "[" +:+ it +:+ "]")) in
        match Left with
        | ast.DotExpression dotLeft dotRight =>
            if String.eqb dotRight "elements" then
              do instance <- ev dotLeft env;
              if isError instance then ret instance
              else
                match instance with
                | object.Instance objInstance =>
                    do elements <- env_Get (object.inst_Env objInstance) "elements";
                    match elements with
                    | None => newError "property not found: elements"
                    | Some (object.Array a) =>
                        do idxObj <- ev Index env;
                        if isError idxObj then ret idxObj
                        else
                          do it <- Type_of idxObj;
                          match idxObj with
                          | object.Integer idx => assignElement a idx value
                          | _ => newError ("array index must be INTEGER, got "
                                           +:+ object.ObjectType_string it)
                          end
                    | Some other =>
                        newError ("elements is not an array: " +:+ object.GoType other)
                    end
                | _ =>
                    do t <- type_name instance;
                    newError ("invalid assignment target: " +:+ t +:+ " is not an instance")
                end
            else regular
        | _ => regular
        end
  | ast.DotExpression Left Right =>
      do leftObj <- ev Left env;
      if isError leftObj then ret leftObj
      else
        match leftObj with
        | object.Instance instance =>
            do _ <- env_Set (object.inst_Env instance) Right value; ret value
        | _ =>
            do t <- type_name leftObj;
            newError ("invalid assignment target in tuple unpacking: " +:+ t)
        end
  | ast.TupleAssignment elements | ast.TupleLiteral elements =>
      match value with
      | object.Tuple nestedValues | object.Array nestedValues =>
          unpack elements nestedValues env
      | _ =>
          do t <- type_name value;
          newError ("cannot unpack non-iterable " +:+ t +:+ " into tuple")
      end
  | _ => newAssignmentError "invalid assignment target in tuple unpacking" target
  end.

(** The last loop of [evalTupleUnpacking]: the targets against the copied
    values, in order, up to the first error; [whole] is the tuple returned
    when all are assigned. *)
Fixpoint assignTargets (assign : ast.Node -> object.Object -> M object.Object)
    (whole : object.Object) (targets : list ast.Node)
    (tempValues : list object.Object) : M object.Object :=
  match targets, tempValues with
  | target :: targets', value :: tempValues' =>
      do result <- assign target value;
      if isError result then ret result
      else assignTargets assign whole targets' tempValues'
  | [], _ => ret whole
  | _ :: _, [] => panic
  end.

(** [evalTupleUnpacking]; [values] is the location of the right-hand side's
    elements, [tempValues] their copy, and [fuel] bounds the nesting of
    patterns. *)
Fixpoint evalTupleUnpacking (fuel : nat) (targets : list ast.Node)
    (values : object.loc) (env : object.loc) {struct fuel} : M object.Object :=
  match fuel with
  | O => out_of_fuel
  | S fuel' =>
      do vals <- elements_at values;
      if negb (Nat.eqb (length targets) (length vals)) then
        newError ("unpacking mismatch: expected " +:+ pretty (Z.of_nat (length targets))
                  +:+ " values, got " +:+ pretty (Z.of_nat (length vals)))
      else
        let tempValues := vals in
        assignTargets (assignToTarget (evalTupleUnpacking fuel') env)
          (object.Tuple values) targets tempValues
  end.

(** The elements of the value on the right of an unpacking assignment. *)
Definition unpackable (val : object.Object) : option object.loc :=
  match val with
  | object.Tuple l | object.Array l => Some l
  | _ => None
  end.

(** [evalAssignStatement]. *)
Definition evalAssignStatement (fuel : nat) (Name Value : ast.Node)
    (env : object.loc) : M object.Object :=
  match Name with
  | ast.Identifier name =>
      do val <- ev Value env;
      if isError val then ret val
      else do _ <- env_Set env name val; ret val
  | ast.TupleAssignment Elements =>
      do val <- ev Value env;
      if isError val then ret val
      else
        match unpackable val with
        | None =>
            do t <- type_name val;
            newError ("cannot unpack non-iterable " +:+ t +:+ " into "
                      +:+ pretty (Z.of_nat (length Elements)) +:+ " values")
        | Some values =>
            do vals <- elements_at values;
            if negb (Nat.eqb (length vals) (length Elements)) then
              newError ("cannot unpack " +:+ pretty (Z.of_nat (length vals))
                        +:+ " values into " +:+ pretty (Z.of_nat (length Elements))
                        +:+ " variables")
            else evalTupleUnpacking fuel Elements values env
        end
  | ast.DotExpression Left Right =>
      do left <- ev Left env;
      if isError left then ret left
      else
        match left with
        | object.Instance instance =>
            do val <- ev Value env;
            if isError val then ret val
            else do _ <- env_Set (object.inst_Env instance) Right val; ret val
        | _ =>
            do t <- type_name left;
            newError ("invalid assignment target: " +:+ t)
        end
  | ast.CallExpression Function Arguments =>
      let diagnostic :=
        do diagError <- newAssignmentError
             "invalid assignment target: *ast.CallExpression%!(EXTRA string=Cannot directly assign to a method call result)"
             Name;
        match diagError with
        | object.Error e =>
            let hint :=
              match Function with
              | ast.DotExpression _ Right =>
                  (nl +:+ "Attempting to assign to property/method '" +:+ Right +:+ "'")
                  +:+ (if Nat.eqb (length Arguments) 0 && String.eqb Right "sort" then
                        nl +:+ "Direct assignment to a method call (arr.sort()) is not supported. The 'sort' method will modify the array in-place, but cannot be used as an assignment target."
                      else "")
                  +:+ (if Nat.ltb 0 (length Arguments) then
                        nl +:+ "Method has " +:+ pretty (Z.of_nat (length Arguments))
                        +:+ " arguments. Try accessing the array directly."
                      else "")
              | _ => ""
              end in
            ret (object.Error
                   (object.mkError (object.ErrorKind e)
                      (object.Message e +:+ hint +:+ nl +:+ nl
                       +:+ "Possible fix: If you're trying to modify an array element, use direct indexing:"
                       +:+ nl +:+ "  arr.elements[index] = value  // correct"
                       +:+ nl +:+ "instead of:"
                       +:+ nl +:+ "  arr.method()[index] = value  // incorrect - method results can't be assigned to")
                      (object.StackTrace e) (object.Position e)))
        | _ => panic
        end in
      match Function, Arguments with
      | ast.DotExpression dotLeft dotRight, [argument] =>
          if String.eqb dotRight "elements" then
            do instance <- ev dotLeft env;
            if isError instance then ret instance
            else
              match instance with
              | object.Instance objInstance =>
                  do elements <- env_Get (object.inst_Env objInstance) "elements";
                  match elements with
                  | None => newError "property not found: elements"
                  | Some (object.Array a) =>
                      do index <- ev argument env;
                      if isError index then ret index
                      else
                        match index with
                        | object.Integer indexInt =>
                            do val <- ev Value env;
                            if isError val then ret val
                            else assignElement a indexInt val
                        | _ =>
                            do t <- type_name index;
                            newError ("array index must be an integer, got " +:+ t)
                        end
                  | Some other =>
                      do t <- type_name other;
                      newError ("property 'elements' is not an array, got " +:+ t)
                  end
              | _ =>
                  do t <- type_name instance;
                  newError ("invalid assignment target: " +:+ t)
              end
          else diagnostic
      | _, _ => diagnostic
      end
  | ast.IndexExpression Left Index =>
      do left <- ev Left env;
      if isError left then ret left
      else
        do index <- ev Index env;
        if isError index then ret index
        else
          do val <- ev Value env;
          if isError val then ret val
          else
            switch
              [ (and_then (type_is left object.ARRAY_OBJ) (type_is index object.INTEGER_OBJ),
                 match left, index with
                 | object.Array a, object.Integer idx => assignElement a idx val
                 | _, _ => panic
                 end) ]
              (do lt <- type_name left; do it <- type_name index;
               newError ("invalid assignment target: " +:+ lt +:+ "[" +:+ it +:+ "]"))
  | ast.TupleLiteral Elements =>
      do val <- ev Value env;
      if isError val then ret val
      else
        match unpackable val with
        | None =>
            do t <- type_name val;
            newError ("cannot unpack non-iterable type: " +:+ t)
        | Some values => evalTupleUnpacking fuel Elements values env
        end
  | _ => newError ("invalid assignment target: " +:+ ast.GoType Name)
  end.

(** *** Operators on one operand and compound assignment *)

Definition evalBangOperatorExpression (right : object.Object) : object.Object :=
  match right with
  | object.Boolean true => FALSE
  | object.Boolean false => TRUE
  | object.None object.evaluator_NONE => TRUE
  | _ => FALSE
  end.

Definition evalMinusPrefixOperatorExpression (right : object.Object) : M object.Object :=
  do rt <- Type_of right;
  match right with
  | object.Integer v => ret (object.Integer (int64.neg v))
  | object.Float v => ret (object.Float (- v)%float)
  | _ => newError ("unknown operator: -" +:+ object.ObjectType_string rt)
  end.

(** [evalPrefixExpression]; it evaluates the operand itself, after [Eval]
    has already evaluated it once. *)
Definition evalPrefixExpression (operator : string) (Right : ast.Node)
    (env : object.loc) : M object.Object :=
  if String.eqb operator "!" then
    do right <- ev Right env; ret (evalBangOperatorExpression right)
  else if String.eqb operator "not" then
    do right <- ev Right env;
    if isError right then ret right else ret (evalBangOperatorExpression right)
  else if String.eqb operator "~" then
    do right <- ev Right env;
    if isError right then ret right
    else
      match right with
      | object.Integer v => ret (object.Integer (Z.lnot v))
      | _ =>
          do t <- type_name right;
          newError ("unsupported operand type for ~: " +:+ t)
      end
  else if String.eqb operator "-" then
    do right <- ev Right env; evalMinusPrefixOperatorExpression right
  else
    do right <- ev Right env;
    do t <- type_name right;
    newError ("unknown operator: " +:+ operator +:+ t).

(** [evalPrefixIncrementDecrement].  On an integer variable the source
    updates the Integer object in place, which every other holder of that
    object observes; integers are values here, so that step is beyond the
    embedding. *)
Definition evalPrefixIncrementDecrement (operator : string) (Right : ast.Node)
    (env : object.loc) : M object.Object :=
  match Right with
  | ast.Identifier name =>
      do obj <- env_Get env name;
      match obj with
      | None => newError ("undefined variable '" +:+ name +:+ "'")
      | Some (object.Integer _) => beyond
      | Some _ =>
          newError ("prefix '" +:+ operator +:+ "' operator requires an integer variable '"
                    +:+ name +:+ "'")
      end
  | _ => newError ("prefix '" +:+ operator +:+ "' operator requires an integer or identifier")
  end.

(** [evalPostfixIncrementDecrement]. *)
Definition evalPostfixIncrementDecrement (operator : string) (Left : ast.Node)
    (env : object.loc) : M object.Object :=
  match Left with
  | ast.Identifier name =>
      do obj <- env_Get env name;
      match obj with
      | None => newError ("undefined variable '" +:+ name +:+ "'")
      | Some (object.Integer oldValue) =>
          let newValue :=
            if String.eqb operator "++" then int64.add oldValue 1
            else if String.eqb operator "--" then int64.sub oldValue 1
            else 0 in
          do _ <- env_Set env name (object.Integer newValue);
          ret (object.Integer oldValue)
      | Some _ =>
          newError ("postfix '" +:+ operator +:+ "' operator requires an integer variable '"
                    +:+ name +:+ "'")
      end
  | _ => newError ("postfix '" +:+ operator +:+ "' operator requires an integer or identifier")
  end.

(** [applyCompoundOperator]. *)
Definition applyCompoundOperator (operator : string) (leftVal rightVal : object.Object)
    : M object.Object :=
  match leftVal with
  | object.Integer l =>
      match rightVal with
      | object.Integer r =>
          if String.eqb operator "+=" then ret (object.Integer (int64.add l r))
          else if String.eqb operator "-=" then ret (object.Integer (int64.sub l r))
          else if String.eqb operator "*=" then ret (object.Integer (int64.mul l r))
          else if String.eqb operator "/=" then
            if r =? 0 then newError "division by zero"
            else ret (object.Integer (int64.wrap (Z.quot l r)))
          else newError ("unknown operator: " +:+ operator)
      | _ =>
          do t <- type_name rightVal;
          newError ("type mismatch: expected INTEGER, got " +:+ t)
      end
  | object.Float l =>
      match rightVal with
      | object.Float r =>
          if String.eqb operator "+=" then ret (object.Float (l + r)%float)
          else if String.eqb operator "-=" then ret (object.Float (l - r)%float)
          else if String.eqb operator "*=" then ret (object.Float (l * r)%float)
          else if String.eqb operator "/=" then
            if PrimFloat.eqb r 0 then newError "division by zero"
            else ret (object.Float (l / r)%float)
          else newError ("unknown operator: " +:+ operator)
      | _ =>
          do t <- type_name rightVal;
          newError ("type mismatch: expected FLOAT, got " +:+ t)
      end
  | _ =>
      do t <- type_name leftVal;
      newError ("unsupported type for compound assignment: " +:+ t)
  end.

(** [evalCompoundAssignment]. *)
Definition evalCompoundAssignment (Left : ast.Node) (Operator : string)
    (Right : ast.Node) (env : object.loc) : M object.Object :=
  do rightVal <- ev Right env;
  if isError rightVal then ret rightVal
  else
    match Left with
    | ast.Identifier name =>
        do currVal <- env_Get env name;
        match currVal with
        | None => newError ("undefined variable: " +:+ name)
        | Some currVal =>
            do newVal <- applyCompoundOperator Operator currVal rightVal;
            if isError newVal then ret newVal
            else do _ <- env_Set env name newVal; ret newVal
        end
    | _ => newError ("invalid assignment target: " +:+ ast.GoType Left)
    end.

(** The case of [Eval] for an infix expression. *)
Definition evalInfixNode (fuel : nat) (Left : ast.Node) (Operator : string)
    (Right : ast.Node) (env : object.loc) : M object.Object :=
  if String.eqb Operator "+=" || String.eqb Operator "-="
     || String.eqb Operator "*=" || String.eqb Operator "/=" then
    evalCompoundAssignment Left Operator Right env
  else if String.eqb Operator "and" then
    do left <- ev Left env;
    if isError left then ret left
    else
      do t <- isTruthy left;
      if negb t then ret left else ev Right env
  else if String.eqb Operator "or" then
    do left <- ev Left env;
    if isError left then ret left
    else
      do t <- isTruthy left;
      if t then ret left else ev Right env
  else
    do right <- ev Right env;
    if isError right then ret right
    else
      do left <- ev Left env;
      if isError left then ret left
      else evalInfixExpression fuel Operator left right.

(** *** Literals with parts *)

(** [evalFStringLiteral]; [sb] is the text built so far. *)
Fixpoint evalFStringParts (Parts : list (string + ast.Node)) (env : object.loc)
    (sb : string) : M object.Object :=
  match Parts with
  | [] => ret (object.String sb)
  | inl text :: rest => evalFStringParts rest env (sb +:+ text)
  | inr Expr :: rest =>
      do val <- ev Expr env;
      if isError val then ret val
      else
        match val with
        | object.Nil => panic
        | _ =>
            do st <- get_store;
            evalFStringParts rest env (sb +:+ Inspect host st val)
        end
  end.

Definition evalFStringLiteral (Parts : list (string + ast.Node)) (env : object.loc)
    : M object.Object :=
  evalFStringParts Parts env "".

(** The cases of [Eval] for an array literal and [evalTupleLiteral]. *)
Definition evalArrayLiteral (Elements : list ast.Node) (env : object.loc) : M object.Object :=
  do elements <- evalExpressions Elements env;
  match elements with
  | [e] => if isError e then ret e
           else do l <- new_slice elements; ret (object.Array l)
  | _ => do l <- new_slice elements; ret (object.Array l)
  end.

Definition evalTupleLiteral (Elements : list ast.Node) (env : object.loc) : M object.Object :=
  do elements <- evalExpressions Elements env;
  match elements with
  | [e] => if isError e then ret e
           else do l <- new_slice elements; ret (object.Tuple l)
  | _ => do l <- new_slice elements; ret (object.Tuple l)
  end.

(** The case of [Eval] for an index expression. *)
Definition evalIndexNode (Left Index : ast.Node) (env : object.loc) : M object.Object :=
  do left <- ev Left env;
  if isError left then ret left
  else
    match Index with
    | ast.RangeExpression Start End_ =>
        do start <- match Start with
                    | Some n => ev n env
                    | None => ret NONE
                    end;
        if isError start then ret start
        else
          do end_ <- match End_ with
                     | Some n => ev n env
                     | None => ret NONE
                     end;
          if isError end_ then ret end_
          else evalIndexExpression left (object.Range start end_)
    | _ =>
        do index <- ev Index env;
        if isError index then ret index
        else evalIndexExpression left index
    end.

(** The case of [Eval] for [check]. *)
Definition evalCheckStatement (Condition : ast.Node) (Message : option ast.Node)
    (env : object.loc) : M object.Object :=
  do cond <- ev Condition env;
  if isError cond then ret cond
  else
    do t <- isTruthy cond;
    if t then ret object.NONE
    else
      do msg <- match Message with
                | None => ret ("Assertion failed: " +:+ Node_String host Condition)
                | Some m =>
                    do mv <- ev m env;
                    if isError mv then ret ("Assertion failed: " +:+ Node_String host Condition)
                    else
                      match mv with
                      | object.Nil => panic
                      | _ => do st <- get_store; ret (Inspect host st mv)
                      end
                end;
      ret (object.CustomError
             (object.NewCustomError "Assertion Check Failed: " msg token.Position_zero)).

(** *** [match], [raise], [attempt] *)

Definition isEqual (obj1 obj2 : object.Object) : bool :=
  match obj1, obj2 with
  | object.Integer a, object.Integer b => a =? b
  | object.String a, object.String b => String.eqb a b
  | _, _ => false
  end.

Fixpoint evalMatchCases (matchValue : object.Object) (Cases : list (ast.Node * list ast.Node))
    (env : object.loc) : M (option object.Object) :=
  match Cases with
  | [] => ret None
  | (Condition, Body) :: rest =>
      do caseCondition <- ev Condition env;
      if isError caseCondition then ret (Some caseCondition)
      else if isEqual matchValue caseCondition then
        do r <- ev (ast.BlockStatement Body) env; ret (Some r)
      else evalMatchCases matchValue rest env
  end.

Definition evalMatchStatement (MatchValue : ast.Node) (Cases : list (ast.Node * list ast.Node))
    (Default : option (list ast.Node)) (env : object.loc) : M object.Object :=
  do matchValue <- ev MatchValue env;
  if isError matchValue then ret matchValue
  else
    do r <- evalMatchCases matchValue Cases env;
    match r with
    | Some v => ret v
    | None =>
        match Default with
        | Some body => ev (ast.BlockStatement body) env
        | None => ret NONE
        end
    end.

Definition evalRaiseStatement (position : token.Position) (Error : ast.Node)
    (env : object.loc) : M object.Object :=
  do errObj <- ev Error env;
  if isError errObj then ret errObj
  else
    do st <- get_store;
    let functionName :=
      let f := object.GetFunctionName st env in
      if String.eqb f "" then "main" else f in
    match errObj with
    | object.Instance instance =>
        let message :=
          match object.Get st (object.inst_Env instance) "message" with
          | Some (object.String m) => m
          | _ => ""
          end in
        do g <- grimoire_at (object.inst_Grimoire instance);
        ret (object.CustomError
               (object.CustomError_AddStackEntry
                  (object.mkCustomError (object.Name g) message
                     (Some (object.inst_Grimoire instance)) (Some instance) position [])
                  position functionName))
    | object.String str =>
        ret (object.CustomError
               (object.CustomError_AddStackEntry
                  (object.NewCustomError "Error" str position) position functionName))
    | _ =>
        do t <- type_name errObj;
        do err <- newError ("cannot raise non-error object: " +:+ t);
        match err with
        | object.Error e =>
            ret (object.Error
                   (object.Error_AddStackEntry
                      (object.mkError (object.ErrorKind e) (object.Message e)
                         (object.StackTrace e) position)
                      position functionName))
        | _ => panic
        end
    end.

(** The [ensnare] clauses of an [attempt] against the custom error
    [customErr]: the result they leave, [nil] when no clause applies. *)
Fixpoint evalEnsnareClauses (customErr : object.CustomErrorObj)
    (EnsnareClauses : list (ast.Node * list ast.Node)) (env : object.loc)
    : M object.Object :=
  match EnsnareClauses with
  | [] => ret object.Nil
  | (Condition, Consequence) :: rest =>
      do condition <- ev Condition env;
      if isError condition then ret condition
      else
        match condition with
        | object.Grimoire grimoire =>
            if bool_decide (object.cerr_ErrorType customErr = Some grimoire) then
              ev (ast.BlockStatement Consequence) env
            else evalEnsnareClauses customErr rest env
        | object.String str =>
            if String.eqb (object.cerr_Name customErr) str then
              ev (ast.BlockStatement Consequence) env
            else evalEnsnareClauses customErr rest env
        | _ => evalEnsnareClauses customErr rest env
        end
  end.

(** [evalAttemptStatement]. *)
Definition evalAttemptStatement (TryBlock : list ast.Node)
    (EnsnareClauses : list (ast.Node * list ast.Node))
    (ResolveBlock : option (list ast.Node)) (env : object.loc) : M object.Object :=
  do tryResult <- ev (ast.BlockStatement TryBlock) env;
  do result <-
    (if isError tryResult then
       do result <- match tryResult with
                    | object.CustomError customErr =>
                        evalEnsnareClauses customErr EnsnareClauses env
                    | _ => ret object.Nil
                    end;
       match result with
       | object.Nil => ret tryResult
       | _ => ret result
       end
     else ret tryResult);
  match ResolveBlock with
  | Some resolve =>
      do resolveResult <- ev (ast.BlockStatement resolve) env;
      if isError resolveResult then ret resolveResult else ret result
  | None => ret result
  end.

(** *** Grimoires, member access and calls *)

Definition new_grimoire (g : object.GrimoireObj) : M object.loc :=
  fun st =>
    let l := object.next st in
    Done l (object.bump (object.set_grimoires st (<[l := g]> (object.grimoires st)))).

(** [evalArcaneGrimoire]. *)
Definition evalArcaneGrimoire (Name : string)
    (Methods : list (string * list ast.Param * list ast.Node))
    (env : object.loc) : M object.Object :=
  let methods :=
    foldl (fun (m : gmap string object.FunctionObj) '(name, params, body) =>
             <[name := object.mkFunction params body env false false false]> m)
          ∅ Methods in
  do g <- new_grimoire (object.mkGrimoire Name methods None env None true);
  do _ <- env_Set env Name (object.Grimoire g);
  ret (object.Grimoire g).

(** The method table of [evalGrimoireDefinition]: the parent's methods, then
    the grimoire's own, flagged by name and token. *)
Definition grimoireMethods (inherited : gmap string object.FunctionObj)
    (Methods : list (bool * string * list ast.Param * list ast.Node))
    (env : object.loc) : gmap string object.FunctionObj :=
  foldl (fun (m : gmap string object.FunctionObj) '(is_arcanespell, name, params, body) =>
           let private := String.prefix "__" name in
           let protected := negb private && String.prefix "_" name in
           <[name := object.mkFunction params body env private protected is_arcanespell]> m)
        inherited Methods.

(** [evalGrimoireDefinition]. *)
Definition evalGrimoireDefinition (is_arcane : bool) (Name : string)
    (Inherits : option string)
    (InitMethod : option (list ast.Param * list ast.Node))
    (Methods : list (bool * string * list ast.Param * list ast.Node))
    (env : object.loc) : M object.Object :=
  let define (parentGrimoire : option object.loc)
      (parentMethods : gmap string object.FunctionObj) : M object.Object :=
    let methods := grimoireMethods parentMethods Methods env in
    match List.find (fun '(name, method) =>
                       object.IsAbstract method
                       && match methods !! name with None => true | Some _ => false end)
                    (map_to_list parentMethods) with
    | Some (name, _) =>
        newError ("grimoire '" +:+ Name +:+ "' must implement abstract method '"
                  +:+ name +:+ "'")
    | None =>
        let init :=
          match InitMethod with
          | Some (params, body) => Some (object.mkFunction params body env false false false)
          | None => None
          end in
        do g <- new_grimoire (object.mkGrimoire Name methods init env parentGrimoire is_arcane);
        do _ <- env_Set env Name (object.Grimoire g);
        ret (object.Grimoire g)
    end in
  match Inherits with
  | None => define None ∅
  | Some parentName =>
      do parentObj <- env_Get env parentName;
      match parentObj with
      | None => newError ("parent grimoire '" +:+ parentName +:+ "' not found")
      | Some (object.Grimoire p) =>
          do pg <- grimoire_at p;
          define (Some p) (object.Methods pg)
      | Some _ => newError ("'" +:+ parentName +:+ "' is not a grimoire")
      end
  end.

Definition sameClass (env : object.loc) (target : object.loc) : M bool :=
  do callerSelf <- env_Get env "self";
  match callerSelf with
  | Some (object.Instance callerInst) =>
      ret (Nat.eqb (object.inst_Grimoire callerInst) target)
  | _ => ret false
  end.

(** The walk of [sameOrSubclass] up the [Inherits] links from [grim]; a
    parent is allocated before its children, which bounds the walk. *)
Fixpoint inheritsFrom (n : nat) (st : object.Store) (grim target : object.loc) : bool :=
  match n with
  | O => false
  | S n' =>
      if Nat.eqb grim target then true
      else
        match object.grimoires st !! grim with
        | Some g =>
            match object.Inherits g with
            | Some parent => inheritsFrom n' st parent target
            | None => false
            end
        | None => false
        end
  end.

Definition sameOrSubclass (env : object.loc) (target : object.loc) : M bool :=
  do callerSelf <- env_Get env "self";
  match callerSelf with
  | Some (object.Instance callerInst) =>
      do st <- get_store;
      ret (inheritsFrom (S (object.inst_Grimoire callerInst)) st
             (object.inst_Grimoire callerInst) target)
  | _ => ret false
  end.

(** [evalDotExpression]. *)
Definition evalDotExpression (Left : ast.Node) (Right : string) (env : object.loc)
    : M object.Object :=
  do leftObj <- ev Left env;
  if isError leftObj then ret leftObj
  else if String.eqb (Node_String host Left) "super" then
    do instance <- env_Get env "self";
    match instance with
    | None | Some object.Nil => newError "'super' can only be used in an instance method"
    | Some (object.Instance inst) =>
        do g <- grimoire_at (object.inst_Grimoire inst);
        match object.Inherits g with
        | None => newError "no parent class found for 'super'"
        | Some parent =>
            do pg <- grimoire_at parent;
            match object.Methods pg !! Right with
            | None => newError ("no method '" +:+ Right +:+ "' found in parent class")
            | Some parentMethod => ret (object.BoundMethod inst parentMethod)
            end
        end
    | Some _ => newError "'super' must be used in an instance of a grimoire"
    end
  else
    match leftObj with
    | object.Instance instance =>
        do val <- env_Get (object.inst_Env instance) Right;
        match val with
        | Some v => ret v
        | None =>
            do g <- grimoire_at (object.inst_Grimoire instance);
            match object.Methods g !! Right with
            | None => newError ("undefined property or method: " +:+ Right)
            | Some method =>
                do same <- (if object.IsPrivate method
                            then sameClass env (object.inst_Grimoire instance)
                            else ret true);
                if object.IsPrivate method && negb same then
                  newError ("private method '" +:+ Right
                            +:+ "' not accessible outside its defining class")
                else
                  do sub <- (if object.IsProtected method
                             then sameOrSubclass env (object.inst_Grimoire instance)
                             else ret true);
                  if object.IsProtected method && negb sub then
                    newError ("protected method '" +:+ Right +:+ "' not accessible here")
                  else ret (object.BoundMethod instance method)
            end
        end
    | _ =>
        do t <- type_name leftObj;
        newError ("type error: " +:+ t +:+ " is not an instance")
    end.

(** [extendFunctionEnv]: the call frame of [fn] on [args]. *)
Fixpoint bindParameters (params : list ast.Param) (args : list object.Object)
    (fnEnv global env : object.loc) : M unit :=
  match params with
  | [] => ret tt
  | (name, DefaultValue) :: params' =>
      match args with
      | arg :: args' =>
          do _ <- env_Set env name arg;
          bindParameters params' args' fnEnv global env
      | [] =>
          do _ <- match DefaultValue with
                  | Some (ast.Identifier ident) =>
                      do val <- env_Get global ident;
                      match val with
                      | Some v => env_Set env name v
                      | None =>
                          do e <- newError ("identifier not found: " +:+ ident);
                          env_Set env name e
                      end
                  | Some other =>
                      do defaultVal <- ev other fnEnv;
                      env_Set env name defaultVal
                  | None => env_Set env name NONE
                  end;
          bindParameters params' [] fnEnv global env
      end
  end.

Definition extendFunctionEnv (fn : object.FunctionObj) (args : list object.Object)
    (global : object.loc) (functionName : string) : M object.loc :=
  do env <- new_env (Some (object.fn_Env fn));
  do _ <- env_Set env "__function_name" (object.String functionName);
  do _ <- bindParameters (object.Parameters fn) args (object.fn_Env fn) global env;
  ret env.

(** The first step of [evalCallExpression]: a single Tuple argument stands
    for its elements. *)
Definition unpackArgs (args : list object.Object) : M (list object.Object) :=
  match args with
  | [object.Tuple tup] => elements_at tup
  | _ => ret args
  end.

(** [evalCallExpression]. *)
Definition evalCallExpression (fn : object.Object) (args : list object.Object)
    (env : object.loc) : M object.Object :=
  do args <- unpackArgs args;
  match fn with
  | object.Function fn =>
      do globalEnv <- getGlobalEnv (object.fn_Env fn);
      do extendedEnv <- extendFunctionEnv fn args globalEnv "function";
      do evaluated <- ev (ast.BlockStatement (object.Body fn)) extendedEnv;
      ret (unwrapReturnValue evaluated)
  | object.BoundMethod instance method =>
      do globalEnv <- getGlobalEnv (object.fn_Env method);
      do g <- grimoire_at (object.inst_Grimoire instance);
      do extendedEnv <- extendFunctionEnv method args globalEnv (object.Name g +:+ ".method");
      do _ <- env_Set extendedEnv "self" (object.Instance instance);
      if object.IsAbstract method then newError "Cannot call abstract method"
      else
        do evaluated <- ev (ast.BlockStatement (object.Body method)) extendedEnv;
        ret (unwrapReturnValue evaluated)
  | object.Grimoire g =>
      do fn <- grimoire_at g;
      if object.IsArcane fn then
        newError ("cannot instantiate arcane grimoire: " +:+ object.Name fn)
      else
        do instEnv <- new_env (Some (object.grim_Env fn));
        let instance := object.Instance (object.mkInstance g instEnv) in
        match object.InitMethod fn with
        | Some init =>
            do globalEnv <- getGlobalEnv (object.grim_Env fn);
            do extendedEnv <- extendFunctionEnv init args globalEnv (object.Name fn +:+ ".init");
            do _ <- env_Set extendedEnv "self" instance;
            do _ <- ev (ast.BlockStatement (object.Body init)) extendedEnv;
            ret instance
        | None => ret instance
        end
  | object.Builtin name => builtin_Fn host name args
  | _ =>
      do t <- type_name fn;
      newError ("not a function: " +:+ t)
  end.

(** *** [Eval]'s dispatch on the node *)

Definition Eval_node (fuel : nat) (node : ast.Node) (env : object.loc) : M object.Object :=
  match node with
  | ast.Program Statements => evalProgram Statements env
  | ast.ExpressionStatement Expression => ev Expression env
  | ast.BlockStatement Statements => evalBlockStatement Statements env
  | ast.IfStatement Condition Consequence OtherwiseBranches Alternative =>
      evalIfExpression Condition Consequence OtherwiseBranches Alternative env
  | ast.StopStatement => ret object.STOP
  | ast.SkipStatement => ret object.SKIP
  | ast.CheckStatement Condition Message => evalCheckStatement Condition Message env
  | ast.PrefixExpression Operator Right =>
      if String.eqb Operator "++" || String.eqb Operator "--" then
        evalPrefixIncrementDecrement Operator Right env
      else
        do right <- ev Right env;
        if isError right then ret right
        else evalPrefixExpression Operator Right env
  | ast.InfixExpression Left Operator Right => evalInfixNode fuel Left Operator Right env
  | ast.PostfixExpression Left Operator => evalPostfixIncrementDecrement Operator Left env
  | ast.IntegerLiteral Value => ret (object.Integer Value)
  | ast.FloatLiteral Value => ret (object.Float Value)
  | ast.FStringLiteral Parts => evalFStringLiteral Parts env
  | ast.NoneLiteral => ret object.NONE
  | ast.ReturnStatement ReturnValue =>
      do val <- ev ReturnValue env;
      if isError val then ret val else ret (object.ReturnValue val)
  | ast.Boolean Value => ret (nativeBoolToBooleanObject Value)
  | ast.AssignStatement Name Value => evalAssignStatement fuel Name Value env
  | ast.WhileStatement Condition Body => evalWhileStatement fuel Condition Body env
  | ast.ForStatement Variable_ Iterable Body Alternative =>
      evalForStatement Variable_ Iterable Body Alternative env
  | ast.ImportStatement _ _ => beyond
  | ast.MatchStatement MatchValue Cases Default =>
      evalMatchStatement MatchValue Cases Default env
  | ast.RaiseStatement position Error_ => evalRaiseStatement position Error_ env
  | ast.ArcaneGrimoire Name Methods => evalArcaneGrimoire Name Methods env
  | ast.Identifier Value => evalIdentifier Value env
  | ast.ArrayLiteral Elements => evalArrayLiteral Elements env
  | ast.StringLiteral Value => ret (object.String Value)
  | ast.TupleLiteral Elements => evalTupleLiteral Elements env
  | ast.HashLiteral _ => beyond
  | ast.FunctionDefinition Name Parameters Body =>
      let fnObj := object.Function (object.mkFunction Parameters Body env false false false) in
      do _ <- env_Set env Name fnObj;
      ret fnObj
  | ast.DotExpression Left Right => evalDotExpression Left Right env
  | ast.IndexExpression Left Index => evalIndexNode Left Index env
  | ast.GrimoireDefinition is_arcane Name Inherits InitMethod Methods =>
      evalGrimoireDefinition is_arcane Name Inherits InitMethod Methods env
  | ast.AttemptStatement TryBlock EnsnareClauses ResolveBlock =>
      evalAttemptStatement TryBlock EnsnareClauses ResolveBlock env
  | ast.IgnoreStatement => ret object.NONE
  | ast.CallExpression Function Arguments =>
      do fn <- ev Function env;
      do args <- evalExpressions Arguments env;
      evalCallExpression fn args env
  | ast.Nil | ast.TupleAssignment _ | ast.RangeExpression _ _ => ret NONE
  end.

End WithEval.

(** [Eval]: the evaluator with a bound on the depth of its recursion.
    The evaluation of a hash literal, of an [import], of an index into a
    Hash and the in-place [++x] and [--x] are [Beyond]: they need the hash
    keys, the file system, respectively shared mutable integers. *)
Fixpoint Eval (fuel : nat) (node : ast.Node) (env : object.loc) {struct fuel}
    : M object.Object :=
  match fuel with
  | O => out_of_fuel
  | S fuel' => Eval_node (Eval fuel') fuel' node env
  end.

End WithHost.

End evaluator.

(** ** Errors and their rendering ([src/object/error_handling.go]) *)

Module error_handling.

(** The escape byte of the terminal colours. *)
Definition ESC : string := String (ascii_of_nat 27) EmptyString.
Definition LF : string := String lexer.LF EmptyString.

(** [strings.Split(s, "\n")] and [strings.Join(elems, sep)]. *)
Definition Split (s : string) : list string := lexer.split_lines s EmptyString.

Fixpoint Join (elems : list string) (sep : string) : string :=
  match elems with
  | [] => EmptyString
  | [elem] => elem
  | elem :: rest => elem +:+ sep +:+ Join rest sep
  end.

(** [strings.Repeat(" ", count)]: a negative count panics. *)
Fixpoint spaces (count : nat) : string :=
  match count with
  | O => EmptyString
  | S count' => String " " (spaces count')
  end.

Definition Repeat_space (count : Z) : option string :=
  if count <? 0 then None else Some (spaces (Z.to_nat count)).

(** The value of an [ErrorType] constant, as [%s] prints it. *)
Definition ErrorType_string (t : object.ErrorType) : string :=
  match t with
  | object.RuntimeError => "RuntimeError"
  | object.SyntaxError => "SyntaxError"
  | object.TypeError => "TypeError"
  | object.ReferenceError => "ReferenceError"
  | object.ImportError => "ImportError"
  | object.IndexError => "IndexError"
  | object.AttributeError => "AttributeError"
  | object.NameError => "NameError"
  | object.ValueError => "ValueError"
  | object.OverflowError => "OverflowError"
  | object.AssertionError => "AssertionError"
  | object.NotImplementedErr => "NotImplementedError"
  | object.DivisionByZeroErr => "DivisionByZeroError"
  end.

(** [StackTraceEntry] with all its fields; a [nil] [Args] is the empty
    list. *)
Record StackTraceEntry : Type := mkStackTraceEntry {
  entry_Position : token.Position;
  entry_Function : string;
  entry_Args : list string;
  entry_Context : string
}.

(** [*Error] with all its fields.  [Cause] is a pointer in the source; a
    chain of causes is finite here. *)
Inductive Error : Type :=
  mkError (ErrorKind : object.ErrorType) (Message : string)
    (StackTrace : list StackTraceEntry) (Position : token.Position)
    (Cause : option Error) (Suggestions : list string) (Context : string).

Definition ErrorKind (e : Error) : object.ErrorType :=
  match e with mkError k _ _ _ _ _ _ => k end.
Definition Message (e : Error) : string :=
  match e with mkError _ m _ _ _ _ _ => m end.
Definition StackTrace (e : Error) : list StackTraceEntry :=
  match e with mkError _ _ s _ _ _ _ => s end.
Definition Position (e : Error) : token.Position :=
  match e with mkError _ _ _ p _ _ _ => p end.
Definition Cause (e : Error) : option Error :=
  match e with mkError _ _ _ _ c _ _ => c end.
Definition Suggestions (e : Error) : list string :=
  match e with mkError _ _ _ _ _ s _ => s end.
Definition Context (e : Error) : string :=
  match e with mkError _ _ _ _ _ _ c => c end.

(** [NewError]; [position] is [token.Position_zero] when the caller gives
    none. *)
Definition NewError (errorType : object.ErrorType) (message : string)
    (position : token.Position) : Error :=
  mkError errorType message [] position None [] EmptyString.

(** [AddDetailedStackEntry] and [AddStackEntry]. *)
Definition AddDetailedStackEntry (e : Error) (position : token.Position)
    (function : string) (args : list string) (context : string) : Error :=
  mkError (ErrorKind e) (Message e)
    (StackTrace e ++ [mkStackTraceEntry position function args context])
    (Position e) (Cause e) (Suggestions e) (Context e).

Definition AddStackEntry (e : Error) (position : token.Position) (function : string) : Error :=
  AddDetailedStackEntry e position function [] EmptyString.

(** [WithCause], [WithSuggestion], [WithSuggestions], [WithContext]. *)
Definition WithCause (e cause : Error) : Error :=
  mkError (ErrorKind e) (Message e) (StackTrace e) (Position e) (Some cause)
    (Suggestions e) (Context e).

Definition WithSuggestion (e : Error) (suggestion : string) : Error :=
  mkError (ErrorKind e) (Message e) (StackTrace e) (Position e) (Cause e)
    (Suggestions e ++ [suggestion]) (Context e).

Definition WithSuggestions (e : Error) (suggestions : list string) : Error :=
  mkError (ErrorKind e) (Message e) (StackTrace e) (Position e) (Cause e)
    (Suggestions e ++ suggestions) (Context e).

Definition WithContext (e : Error) (context : string) : Error :=
  mkError (ErrorKind e) (Message e) (StackTrace e) (Position e) (Cause e)
    (Suggestions e) context.

(** The loop [for i := startLine; i < endLine; i++] that collects
    [lines[i]] for the indices below [len(lines)]. *)
Definition lines_between (lines : list string) (startLine endLine : Z) : list string :=
  take (Z.to_nat (endLine - startLine)) (drop (Z.to_nat startLine) lines).

(** [CreateErrorWithContext]; Go's [int] is taken to be 64 bits wide. *)
Definition CreateErrorWithContext (errorType : object.ErrorType) (message : string)
    (position : token.Position) (source : string) : Error :=
  let err := NewError errorType message position in
  if negb (String.eqb source EmptyString) && (token.Line position >? 0) then
    let lines := Split source in
    if token.Line position <=? Z.of_nat (length lines) then
      let startLine := int64.sub (token.Line position) 2 in
      let startLine := if startLine <? 0 then 0 else startLine in
      let endLine := int64.add (token.Line position) 1 in
      let endLine := if endLine >? Z.of_nat (length lines) then Z.of_nat (length lines)
                     else endLine in
      WithContext err (Join (lines_between lines startLine endLine) LF)
    else err
  else err.

(** [GetContextFromSource]. *)
Definition GetContextFromSource (source : string) (position : token.Position)
    (contextLines : Z) : string :=
  if String.eqb source EmptyString || (token.Line position <=? 0) then EmptyString
  else
    let lines := Split source in
    if token.Line position >? Z.of_nat (length lines) then EmptyString
    else
      let startLine := int64.sub (token.Line position) contextLines in
      let startLine := if startLine <? 0 then 0 else startLine in
      let endLine := int64.add (token.Line position) contextLines in
      let endLine := if endLine >? Z.of_nat (length lines) then Z.of_nat (length lines)
                     else endLine in
      Join (lines_between lines startLine endLine) LF.

Section Rendering.

(** [filepath.Rel(".", file)], the empty string when it fails. *)
Variable filepath_Rel : string -> string.

Definition relative (file : string) : string :=
  let relPath := filepath_Rel file in
  if String.eqb relPath EmptyString then file else relPath.

Definition red (s : string) : string := ESC +:+ "[31m" +:+ s +:+ ESC +:+ "[0m".
Definition cyan (s : string) : string := ESC +:+ "[36m" +:+ s +:+ ESC +:+ "[0m".
Definition yellow (s : string) : string := ESC +:+ "[33m" +:+ s +:+ ESC +:+ "[0m".

(** A line of the code context shown under [lineNum]: plain, or highlighted
    with a caret after [pad] under it. *)
Definition plain_context_line (lineNum : Z) (line : string) : string :=
  "  " +:+ yellow (pretty lineNum) +:+ " | " +:+ line +:+ LF.

Definition highlighted_context_line (lineNum : Z) (line pad : string) : string :=
  "  " +:+ yellow (pretty lineNum) +:+ " | " +:+ red line +:+ LF
  +:+ "     | " +:+ pad +:+ red "^" +:+ LF.

(** One line of the code context: the line shown under the number of the
    error's position is the highlighted one, its caret under the error's
    column. *)
Definition context_line (position : token.Position) (lineNum : Z) (line : string)
    : option string :=
  if lineNum =? token.Line position then
    match Repeat_space (int64.sub (token.Column position) 1) with
    | Some pad => Some (highlighted_context_line lineNum line pad)
    | None => None
    end
  else Some (plain_context_line lineNum line).

(** The loop over the lines of [e.Context], from index [i]; [count] is
    [len(lines)]. *)
Fixpoint context_lines (position : token.Position) (count : Z) (i : Z)
    (lines : list string) : option string :=
  match lines with
  | [] => Some EmptyString
  | line :: rest =>
      let lineNum := int64.add (int64.sub (token.Line position) (int64.sub count 1)) i in
      match context_line position lineNum line with
      | None => None
      | Some shown =>
          match context_lines position count (i + 1) rest with
          | None => None
          | Some more => Some (shown +:+ more)
          end
      end
  end.

Definition code_context (position : token.Position) (context : string) : option string :=
  if String.eqb context EmptyString then Some EmptyString
  else
    let lines := Split context in
    match context_lines position (Z.of_nat (length lines)) 0 lines with
    | Some shown => Some (LF +:+ "Code context:" +:+ LF +:+ shown)
    | None => None
    end.

(** One entry of the stack trace. *)
Definition stack_entry (entry : StackTraceEntry) : string :=
  let funcName :=
    if String.eqb (entry_Function entry) EmptyString then "<module>"
    else entry_Function entry in
  let relPath := relative (token.File (entry_Position entry)) in
  let argStr :=
    match entry_Args entry with
    | [] => EmptyString
    | args => "(" +:+ Join args ", " +:+ ")"
    end in
  "  at " +:+ cyan (funcName +:+ argStr) +:+ " in " +:+ cyan relPath +:+ ":"
  +:+ yellow (pretty (token.Line (entry_Position entry))) +:+ ":"
  +:+ yellow (pretty (token.Column (entry_Position entry))) +:+ LF
  +:+ (if String.eqb (entry_Context entry) EmptyString then EmptyString
       else foldr (fun line shown => "    | " +:+ line +:+ LF +:+ shown) EmptyString
              (Split (entry_Context entry))).

(** The stack trace, the entry added last first. *)
Definition stack_trace (entries : list StackTraceEntry) : string :=
  match entries with
  | [] => EmptyString
  | _ =>
      LF +:+ "Stack trace (most recent call last):" +:+ LF
      +:+ foldr (fun entry shown => stack_entry entry +:+ shown) EmptyString (rev entries)
  end.

Definition suggestions (items : list string) : string :=
  match items with
  | [] => EmptyString
  | _ =>
      LF +:+ "Suggestions:" +:+ LF
      +:+ foldr (fun item shown => "  - " +:+ item +:+ LF +:+ shown) EmptyString items
  end.

(** The first line of a rendered error and the line that names its
    position, which an error without a file name does not get. *)
Definition header (kind : object.ErrorType) (message : string) : string :=
  red (ErrorType_string kind) +:+ ": " +:+ message +:+ LF.

Definition place (position : token.Position) : string :=
  if String.eqb (token.File position) EmptyString then EmptyString
  else "  at " +:+ cyan (relative (token.File position)) +:+ ":"
       +:+ yellow (pretty (token.Line position)) +:+ ":"
       +:+ yellow (pretty (token.Column position)) +:+ LF.

(** [Error.Inspect]; [None] is the panic of [strings.Repeat] on a negative
    count. *)
Fixpoint Inspect (e : Error) : option string :=
  match e with
  | mkError kind message trace position cause items context =>
      match code_context position context with
      | None => None
      | Some shown =>
          let body := header kind message +:+ place position +:+ shown
                      +:+ stack_trace trace +:+ suggestions items in
          match cause with
          | None => Some body
          | Some c =>
              match Inspect c with
              | None => None
              | Some inner =>
                  Some (body +:+ LF +:+ "Caused by:" +:+ LF
                        +:+ foldr (fun line shown => "  " +:+ line +:+ LF +:+ shown)
                              EmptyString (Split inner))
              end
          end
      end
  end.

End Rendering.

End error_handling.

(** ** Fixtures of the examples *)

(** A host whose functions the examples never reach. *)
Definition host_stub : evaluator.Host :=
  evaluator.mkHost (fun _ _ => 0%float) (fun _ => 0) (fun _ _ => EmptyString)
    (fun _ => EmptyString) (fun _ => EmptyString) (fun _ => false)
    (fun _ _ => evaluator.beyond).

(** The store of a fresh session: the global environment at location 0
    ([object.NewEnvironment]) and nothing else. *)
Definition fresh_store : object.Store :=
  object.mkStore {[ 0%nat := object.mkEnvironment ∅ None ]} ∅ ∅ 1%nat [].

(** The global environment of [fresh_store]. *)
Definition global : object.loc := 0%nat.

(** The binding of [name] in the global environment after a run. *)
Definition global_binding (o : evaluator.Outcome object.Object) (name : string)
    : option object.Object :=
  match o with
  | evaluator.Done _ st => object.Get st global name
  | _ => None
  end.

(** The value a run ends with. *)
Definition value_of (o : evaluator.Outcome object.Object) : option object.Object :=
  match o with
  | evaluator.Done v _ => Some v
  | _ => None
  end.

(** The RuntimeError [newError] builds in the store [st]. *)
Definition runtime_error (st : object.Store) (message : string) : object.Object :=
  object.Error (object.mkError object.RuntimeError message (object.callStack st)
                  token.Position_zero).

(** ** The slice the specification describes *)

(** A bound of the range as the specification reads it: missing, or an
    integer. *)
Definition bound_of (b : object.Object) : option (option Z) :=
  match b with
  | object.Nil | object.None _ => Some None
  | object.Integer v => Some (Some v)
  | _ => None
  end.

(** "resolve start (default 0; negative = len+start) and end (default len;
    negative = len+end)". *)
Definition resolve_bound (len default : Z) (b : option Z) : Z :=
  match b with
  | None => default
  | Some v => if v <? 0 then len + v else v
  end.

(** "clamp to [0, len]". *)
Definition clamp (len x : Z) : Z := Z.max 0 (Z.min len x).

(** "if empty or inverted, yield empty Array; otherwise copy the half-open
    range [start, end)". *)
Definition slice_as_specified (els : list object.Object) (start end_ : option Z)
    : list object.Object :=
  let len := Z.of_nat (length els) in
  let s := clamp len (resolve_bound len 0 start) in
  let e := clamp len (resolve_bound len len end_) in
  if e <=? s then [] else take (Z.to_nat (e - s)) (drop (Z.to_nat s) els).

(** A bound that fits Go's [int64]. *)
Definition bound_in_range (b : option Z) : Prop :=
  match b with
  | None => True
  | Some v => int64.in_range v
  end.

(** The store after the allocation of a backing array holding [els]. *)
Definition with_new_slice (st : object.Store) (els : list object.Object) : object.Store :=
  object.bump (object.set_slices st (<[object.next st := els]> (object.slices st))).

(** [[1, 2, 3, 4]] and the slice expressions of the specification's
    examples. *)
Definition one_to_four : ast.Node :=
  ast.ArrayLiteral [ast.IntegerLiteral 1; ast.IntegerLiteral 2;
                    ast.IntegerLiteral 3; ast.IntegerLiteral 4].

Definition slice_of (a : ast.Node) (start end_ : option Z) : ast.Node :=
  ast.IndexExpression a
    (ast.RangeExpression (option_map ast.IntegerLiteral start)
       (option_map ast.IntegerLiteral end_)).

(** A store whose only backing array, at location 7, holds 1, 2, 3, 4. *)
Definition four_store : object.Store :=
  object.mkStore ∅ {[ 7%nat := [object.Integer 1; object.Integer 2;
                                object.Integer 3; object.Integer 4] ]} ∅ 8%nat [].

(** The elements of the Array a run ends with. *)
Definition array_elements (o : evaluator.Outcome object.Object) : option (list object.Object) :=
  match o with
  | evaluator.Done (object.Array l) st => object.slices st !! l
  | _ => None
  end.

(** ** Fixtures of the operand-order examples *)

(** The operators of an infix expression other than [and], [or] and the
    compound assignments. *)
Definition plain_operator (operator : string) : bool :=
  negb (String.eqb operator "+=" || String.eqb operator "-="
        || String.eqb operator "*=" || String.eqb operator "/="
        || String.eqb operator "and" || String.eqb operator "or").

(** A session in which the global [n] is bound to 0. *)
Definition counter_store : object.Store :=
  object.Set_ fresh_store global "n" (object.Integer 0).

(** [missing + n++]: the left operand is unbound, the right one counts. *)
Definition missing_plus_count : ast.Node :=
  ast.InfixExpression (ast.Identifier "missing") "+"
    (ast.PostfixExpression (ast.Identifier "n") "++").

(** [missing + absent]: both operands are unbound. *)
Definition missing_plus_absent : ast.Node :=
  ast.InfixExpression (ast.Identifier "missing") "+" (ast.Identifier "absent").

(** ** Fixtures of the instantiation example *)

(** [raise "boom"]. *)
Definition raise_boom : ast.Node :=
  ast.RaiseStatement token.Position_zero (ast.StringLiteral "boom").

(** [grim Faulty: init(): raise "boom"]. *)
Definition define_Faulty : ast.Node :=
  ast.GrimoireDefinition false "Faulty" None
    (Some ([], [raise_boom]))
    [].

(** The session after the definition of [Faulty]: the grimoire is at
    location 1. *)
Definition Faulty_store : object.Store :=
  match evaluator.Eval host_stub 5 define_Faulty global fresh_store with
  | evaluator.Done _ st => st
  | _ => fresh_store
  end.

(** The store in which the body of [Faulty]'s [init] runs when [Faulty()] is
    called in [Faulty_store]: the instance's environment is at location 2,
    the frame of [init] at location 3, with [self] bound to the instance. *)
Definition Faulty_frame : object.Store :=
  object.Set_
    (object.Set_
       (snd (object.NewEnclosedEnvironment
               (snd (object.NewEnclosedEnvironment Faulty_store (Some global)))
               (Some global)))
       3%nat "__function_name" (object.String "Faulty.init"))
    3%nat "self" (object.Instance (object.mkInstance 1%nat 2%nat)).

(** The custom error an [init] may end with: ["boom"] raised in a frame
    named [function]. *)
Definition boom (function : string) : object.Object :=
  object.CustomError
    (object.CustomError_AddStackEntry
       (object.NewCustomError "Error" "boom" token.Position_zero)
       token.Position_zero function).

(** ** Fixtures of the unpacking examples *)

(** [a = 1; b = 2; (a, b) = (b, a)]. *)
Definition swap_program : ast.Node :=
  ast.Program
    [ ast.AssignStatement (ast.Identifier "a") (ast.IntegerLiteral 1);
      ast.AssignStatement (ast.Identifier "b") (ast.IntegerLiteral 2);
      ast.AssignStatement
        (ast.TupleAssignment [ast.Identifier "a"; ast.Identifier "b"])
        (ast.TupleLiteral [ast.Identifier "b"; ast.Identifier "a"]) ].

(** [arr = [1, 2]; (arr[1], x) = arr]: the first target overwrites the
    element that the second target is to receive. *)
Definition overlapping_program : ast.Node :=
  ast.Program
    [ ast.AssignStatement (ast.Identifier "arr")
        (ast.ArrayLiteral [ast.IntegerLiteral 1; ast.IntegerLiteral 2]);
      ast.AssignStatement
        (ast.TupleAssignment
           [ast.IndexExpression (ast.Identifier "arr") (ast.IntegerLiteral 1);
            ast.Identifier "x"])
        (ast.Identifier "arr") ].

(** The session after [a = 1; b = 2]. *)
Definition ab_store : object.Store :=
  object.Set_ (object.Set_ fresh_store global "a" (object.Integer 1))
    global "b" (object.Integer 2).

(** The targets bound one after the other, in the order of the pattern. *)
Definition bind_in_order (env : object.loc) (st : object.Store)
    (names : list string) (vals : list object.Object) : object.Store :=
  foldl (fun s '(x, v) => object.Set_ s env x v) st (zip names vals).

(** ** What an [attempt] does, in the words of its amended description *)

(** A guard's value against the custom error: a Grimoire matches when it is
    the error's declared class itself, a String when it is the error's
    name, nothing else matches. *)
Definition guard_matches (customErr : object.CustomErrorObj) (guard : object.Object) : bool :=
  match guard with
  | object.Grimoire g => bool_decide (object.cerr_ErrorType customErr = Some g)
  | object.String name => String.eqb (object.cerr_Name customErr) name
  | _ => false
  end.

Section Ensnare.

Variable ev : ast.Node -> object.loc -> evaluator.M object.Object.
Variable customErr : object.CustomErrorObj.
Variable env : object.loc.

(** The search through the [ensnare] clauses from the store [st]: it ends
    with a value and a store.  The guards are evaluated in order; a guard
    that evaluates to an error ends the search with that error; the first
    guard that matches hands over to its handler; past the last clause the
    search ends with no value ([nil]). *)
Inductive ensnare_search
    : list (ast.Node * list ast.Node) -> object.Store -> object.Object -> object.Store -> Prop :=
| search_exhausted (st : object.Store) :
    ensnare_search [] st object.Nil st
| search_guard_error (guard : ast.Node) (handler : list ast.Node)
    (rest : list (ast.Node * list ast.Node)) (st st1 : object.Store) (g : object.Object) :
    ev guard env st = evaluator.Done g st1 ->
    evaluator.isError g = true ->
    ensnare_search ((guard, handler) :: rest) st g st1
| search_match (guard : ast.Node) (handler : list ast.Node)
    (rest : list (ast.Node * list ast.Node)) (st st1 st2 : object.Store)
    (g r : object.Object) :
    ev guard env st = evaluator.Done g st1 ->
    guard_matches customErr g = true ->
    ev (ast.BlockStatement handler) env st1 = evaluator.Done r st2 ->
    ensnare_search ((guard, handler) :: rest) st r st2
| search_next (guard : ast.Node) (handler : list ast.Node)
    (rest : list (ast.Node * list ast.Node)) (st st1 st2 : object.Store)
    (g r : object.Object) :
    ev guard env st = evaluator.Done g st1 ->
    evaluator.isError g = false ->
    guard_matches customErr g = false ->
    ensnare_search rest st1 r st2 ->
    ensnare_search ((guard, handler) :: rest) st r st2.

End Ensnare.

(** The result of an [attempt] before its [resolve] block, from the value
    [tryResult] and the store [st] of the try block: a value that is no
    error stays; a built-in Error stays, no guard is evaluated; for a
    CustomError the clauses are searched, and the error stays when the
    search ends with no value. *)
Inductive attempt_result (ev : ast.Node -> object.loc -> evaluator.M object.Object)
    (env : object.loc) (clauses : list (ast.Node * list ast.Node))
    : object.Object -> object.Store -> object.Object -> object.Store -> Prop :=
| attempt_no_error (tryResult : object.Object) (st : object.Store) :
    evaluator.isError tryResult = false ->
    attempt_result ev env clauses tryResult st tryResult st
| attempt_builtin_error (e : object.ErrorObj) (st : object.Store) :
    attempt_result ev env clauses (object.Error e) st (object.Error e) st
| attempt_custom_error (customErr : object.CustomErrorObj) (st st' : object.Store)
    (r : object.Object) :
    ensnare_search ev customErr env clauses st r st' ->
    attempt_result ev env clauses (object.CustomError customErr) st
      (match r with object.Nil => object.CustomError customErr | _ => r end) st'.

(** The [resolve] block after the result [result]: it runs if there is one,
    and an error from it replaces the result. *)
Definition resolve_after (ev : ast.Node -> object.loc -> evaluator.M object.Object)
    (env : object.loc) (ResolveBlock : option (list ast.Node)) (result : object.Object)
    : evaluator.M object.Object :=
  match ResolveBlock with
  | None => evaluator.ret result
  | Some resolve =>
      evaluator.bind (ev (ast.BlockStatement resolve) env)
        (fun resolveResult =>
           evaluator.ret (if evaluator.isError resolveResult then resolveResult else result))
  end.

(** ** Fixtures of the [attempt] examples *)

(** [n++] as a guard: evaluating it is visible in the binding of [n]. *)
Definition counting_guard : ast.Node := ast.PostfixExpression (ast.Identifier "n") "++".

(** [x = "caught"]. *)
Definition caught_handler : list ast.Node :=
  [ast.AssignStatement (ast.Identifier "x") (ast.StringLiteral "caught")].

(** [y = "done"]. *)
Definition done_resolve : list ast.Node :=
  [ast.AssignStatement (ast.Identifier "y") (ast.StringLiteral "done")].

(** A try block that ends with the built-in error of an unbound name. *)
Definition failing_try : list ast.Node := [ast.ExpressionStatement (ast.Identifier "missing")].

(** A try block that raises the custom error named "Error". *)
Definition raising_try : list ast.Node :=
  [ast.RaiseStatement token.Position_zero (ast.StringLiteral "bad")].

(** [attempt: missing  ensnare n++: x = "caught"]. *)
Definition attempt_builtin : ast.Node :=
  ast.AttemptStatement failing_try [(counting_guard, caught_handler)] None.

(** [attempt: raise "bad"  ensnare n++: ..  ensnare "Error": x = "caught"
    resolve: y = "done"]. *)
Definition attempt_custom : ast.Node :=
  ast.AttemptStatement raising_try
    [(counting_guard, []); (ast.StringLiteral "Error", caught_handler)]
    (Some done_resolve).

(** The custom error that [raise "bad"] builds at top level. *)
Definition raised_bad : object.Object :=
  object.CustomError
    (object.CustomError_AddStackEntry
       (object.NewCustomError "Error" "bad" token.Position_zero)
       token.Position_zero "main").

(** The session of [counter_store] after the guard [n++], the handler
    [x = "caught"] and the resolve block [y = "done"]. *)
Definition caught_store : object.Store :=
  object.Set_
    (object.Set_ (object.Set_ counter_store global "n" (object.Integer 1))
       global "x" (object.String "caught"))
    global "y" (object.String "done").

(** ** Fixtures of the loop and branch examples *)

(** [x = x + 1]. *)
Definition increment_x : ast.Node :=
  ast.AssignStatement (ast.Identifier "x")
    (ast.InfixExpression (ast.Identifier "x") "+" (ast.IntegerLiteral 1)).

(** [x < k]. *)
Definition x_below (k : Z) : ast.Node :=
  ast.InfixExpression (ast.Identifier "x") "<" (ast.IntegerLiteral k).

(** [x = 0; while x < 3: x = x + 1; stop]: the last statement of the body
    produces Stop. *)
Definition stop_last_program : ast.Node :=
  ast.Program
    [ ast.AssignStatement (ast.Identifier "x") (ast.IntegerLiteral 0);
      ast.WhileStatement (x_below 3) [increment_x; ast.StopStatement] ].

(** [while True: stop; y = 1]: a statement follows the one that produces
    Stop. *)
Definition stop_first_program : ast.Node :=
  ast.Program
    [ ast.WhileStatement (ast.Boolean true)
        [ast.StopStatement; ast.AssignStatement (ast.Identifier "y") (ast.IntegerLiteral 1)] ].

(** [x = 0; while x < 2: x = x + 1; raise "boom"]: the last statement of the
    body produces an error. *)
Definition raise_last_program : ast.Node :=
  ast.Program
    [ ast.AssignStatement (ast.Identifier "x") (ast.IntegerLiteral 0);
      ast.WhileStatement (x_below 2) [increment_x; raise_boom] ].

(** [x = 0; while x < 2: x = x + 1; return 7]: the last statement of the
    body produces a ReturnValue. *)
Definition return_last_program : ast.Node :=
  ast.Program
    [ ast.AssignStatement (ast.Identifier "x") (ast.IntegerLiteral 0);
      ast.WhileStatement (x_below 2)
        [increment_x; ast.ReturnStatement (ast.IntegerLiteral 7)] ].

(** [while True: raise "boom"; y = 1]: a statement follows the one that
    produces the error. *)
Definition raise_first_program : ast.Node :=
  ast.Program
    [ ast.WhileStatement (ast.Boolean true)
        [raise_boom; ast.AssignStatement (ast.Identifier "y") (ast.IntegerLiteral 1)] ].

(** [if missing: y = 1]: the condition evaluates to an error. *)
Definition if_missing_program : ast.Node :=
  ast.Program
    [ ast.IfStatement (ast.Identifier "missing")
        [ast.AssignStatement (ast.Identifier "y") (ast.IntegerLiteral 1)] [] None ].

(** [if False: ignore otherwise missing: y = 1]: the same condition in an
    [otherwise] branch. *)
Definition otherwise_missing_program : ast.Node :=
  ast.Program
    [ ast.IfStatement (ast.Boolean false) [ast.IgnoreStatement]
        [(ast.Identifier "missing",
          [ast.AssignStatement (ast.Identifier "y") (ast.IntegerLiteral 1)])] None ].

(** [for i in [1, 2]: stop; y = 1] and [for i in [1, 2]: raise "boom";
    y = 1]: the same bodies in a [for]. *)
Definition for_program (first : ast.Node) : ast.Node :=
  ast.Program
    [ ast.ForStatement (ast.Identifier "i")
        (ast.ArrayLiteral [ast.IntegerLiteral 1; ast.IntegerLiteral 2])
        [first; ast.AssignStatement (ast.Identifier "y") (ast.IntegerLiteral 1)] None ].

(** The custom error that [raise "boom"] builds at top level. *)
Definition raised_boom : object.Object := boom "main".

(** ** Fixtures of the layout example *)

(** A keyword table for the examples: [if] is a keyword, every other word
    an identifier. *)
Definition lookup_if (literal : string) : token.TokenType :=
  if String.eqb literal "if" then token.KEYWORD "if" else token.IDENT.

(** What every keyword table answers: a keyword's kind or [IDENT]. *)
Definition names_words (LookupIdent : string -> token.TokenType) : Prop :=
  forall literal : string,
    LookupIdent literal = token.IDENT
    \/ exists name : string, LookupIdent literal = token.KEYWORD name.

(** Lines joined by line feeds. *)
Fixpoint source_of (source_lines : list string) : string :=
  match source_lines with
  | [] => EmptyString
  | [line] => line
  | line :: rest => line +:+ String lexer.LF (source_of rest)
  end.

(** Two nested blocks, then two lines at the left margin: the line [d]
    drops across two levels of the indent stack. *)
Definition nested_source : string :=
  source_of ["if a:"; "  if b:"; "    c"; "d"; "e"].

(** The lexer of [nested_source] when it has consumed the line [c]: it
    stands at the start of the line [d] with the stack [0, 2, 4]. *)
Definition at_line_d : lexer.Lexer :=
  lexer.mkLexer ["if a:"; "  if b:"; "    c"; "d"; "e"] 3 0 [0; 2; 4]%nat "d" false
    EmptyString false.

(** The content token of the line [d]. *)
Definition token_d : token.Token :=
  token.mkToken token.IDENT "d" (token.mkPosition EmptyString 4 1).

(** [y = 1]. *)
Definition bind_y : ast.Node :=
  ast.AssignStatement (ast.Identifier "y") (ast.IntegerLiteral 1).

(** ** Well-formed environment heaps *)

(** The shape of the heap of environments that [NewEnclosedEnvironment]
    maintains: every environment lies below [next], and an enclosed
    environment was allocated after the one it encloses. *)
Definition env_ok (next e : object.loc) (E : object.Environment) : Prop :=
  (e < next)%nat /\ match object.outer E with Some o => (o < e)%nat | None => True end.

Definition envs_ok (st : object.Store) : Prop :=
  map_Forall (env_ok (object.next st)) (object.envs st).

(** ** Auxiliary notions of the properties *)

(** The conditions of the cases of a [match] all evaluate, one after the
    other from [st] to [st'], and none to an error. *)
Fixpoint conditions_pass (ev : ast.Node -> object.loc -> evaluator.M object.Object)
    (Cases : list (ast.Node * list ast.Node)) (env : object.loc)
    (st st' : object.Store) : Prop :=
  match Cases with
  | [] => st' = st
  | (Condition, _) :: rest =>
      exists v st1,
        ev Condition env st = evaluator.Done v st1
        /\ evaluator.isError v = false
        /\ conditions_pass ev rest env st1 st'
  end.

(** The values [isEqual] compares: Integers and Strings. *)
Definition comparable (obj : object.Object) : bool :=
  match obj with
  | object.Integer _ | object.String _ => true
  | _ => false
  end.

(** An argument list that [evalCallExpression] spreads: one Tuple. *)
Definition single_tuple (args : list object.Object) : bool :=
  match args with
  | [object.Tuple _] => true
  | _ => false
  end.

(** [match True: case True: 1  else: 0] at the top level. *)
Definition match_true_program : ast.Node :=
  ast.MatchStatement (ast.Boolean true)
    [(ast.Boolean true, [ast.ExpressionStatement (ast.IntegerLiteral 1)])]
    (Some [ast.ExpressionStatement (ast.IntegerLiteral 0)]).

(** A function of one parameter [a] whose body is [a]. *)
Definition identity_function : object.FunctionObj :=
  object.mkFunction [("a", None)] [ast.ExpressionStatement (ast.Identifier "a")]
    global false false false.

(** The store of [fresh_store] with the Tuple [(1, 2)] at location 1. *)
Definition pair_store : object.Store :=
  object.mkStore {[ 0%nat := object.mkEnvironment ∅ None ]}
    {[ 1%nat := [object.Integer 1; object.Integer 2] ]} ∅ 2%nat [].

(** The expressions [exps] evaluate, one after the other from [st] to
    [st'], to the values [vals], none of them an error. *)
Fixpoint expressions_give (ev : ast.Node -> object.loc -> evaluator.M object.Object)
    (exps : list ast.Node) (env : object.loc) (st : object.Store)
    (vals : list object.Object) (st' : object.Store) : Prop :=
  match exps, vals with
  | [], [] => st' = st
  | e :: exps', v :: vals' =>
      exists st1,
        ev e env st = evaluator.Done v st1
        /\ evaluator.isError v = false
        /\ expressions_give ev exps' env st1 vals' st'
  | _, _ => False
  end.

(** [spell seven(a): return 7], and the store of a session that has
    defined it. *)
Definition define_seven : ast.Node :=
  ast.FunctionDefinition "seven" [("a", None)] [ast.ReturnStatement (ast.IntegerLiteral 7)].

Definition seven_store : object.Store :=
  object.Set_ fresh_store global "seven"
    (object.Function
       (object.mkFunction [("a", None)] [ast.ReturnStatement (ast.IntegerLiteral 7)]
          global false false false)).

(** [seven(1, missing)]. *)
Definition call_seven_with_missing : ast.Node :=
  ast.CallExpression (ast.Identifier "seven") [ast.IntegerLiteral 1; ast.Identifier "missing"].

(** The names of the methods a grimoire definition declares. *)
Definition method_names (Methods : list (bool * string * list ast.Param * list ast.Node))
    : list string :=
  map (fun m => m.1.1.2) Methods.

(** The position of the index [i] in an Array of [len] elements. *)
Definition element_position (len i : Z) : nat :=
  Z.to_nat (if i <? 0 then len + i else i).

(** [Shape] with the abstract method [area] and [Square], which inherits
    from it and declares nothing. *)
Definition define_Shape : ast.Node :=
  ast.GrimoireDefinition true "Shape" None None [(true, "area", [], [])].

Definition define_Square : ast.Node :=
  ast.GrimoireDefinition false "Square" (Some "Shape") None [].

(** The store after [define_Shape] at the top level of a fresh session. *)
Definition Shape_store : object.Store :=
  object.Set_
    (object.mkStore {[ 0%nat := object.mkEnvironment ∅ None ]} ∅
       {[ 1%nat := object.mkGrimoire "Shape"
                     {[ "area" := object.mkFunction [] [] global false false true ]}
                     None global None true ]}
       2%nat [])
    global "Shape" (object.Grimoire 1%nat).

(** The store of a session in which [xs] is bound to the Array [[1, 2, 3]]
    at location 1. *)
Definition xs_store : object.Store :=
  object.Set_
    (object.mkStore {[ 0%nat := object.mkEnvironment ∅ None ]}
       {[ 1%nat := [object.Integer 1; object.Integer 2; object.Integer 3] ]} ∅ 2%nat [])
    global "xs" (object.Array 1%nat).

(** [Point], a grimoire without methods defined at the top level of a
    session that binds [origin] to 0. *)
Definition Point_store : object.Store :=
  object.Set_
    (object.Set_
       (object.mkStore {[ 0%nat := object.mkEnvironment ∅ None ]} ∅
          {[ 1%nat := object.mkGrimoire "Point" ∅ None global None false ]} 2%nat [])
       global "Point" (object.Grimoire 1%nat))
    global "origin" (object.Integer 0).

(** ** Measures on the lexer's state *)

(** The shape of the indent stack: strictly increasing from its bottom 0. *)
Fixpoint increasing (stack : list nat) : bool :=
  match stack with
  | a :: (b :: _) as rest => Nat.ltb a b && increasing rest
  | _ => true
  end.

Definition stack_ok (stack : list nat) : bool :=
  match stack with
  | O :: _ => increasing stack
  | _ => false
  end.

(** What the lexer has left to do: the bytes of the current line from the
    cursor on, its end of line and its layout step when that is still due,
    and the same for every later line; nothing once it is finished. *)
Definition remaining (l : lexer.Lexer) : nat :=
  if lexer.finished l then 0%nat
  else ((String.length (lexer.currLine l) - lexer.charIndex l)
        + 1 + (if lexer.indentResolved l then 0 else 1)
        + sum_list (map (fun line => String.length line + 2)
                      (drop (S (lexer.lineIndex l)) (lexer.lines l))))%nat.

(** The lexer after [n] calls of [NextToken], each with [fuel]. *)
Fixpoint drain (LookupIdent : string -> token.TokenType) (fuel n : nat) (l : lexer.Lexer)
    : option lexer.Lexer :=
  match n with
  | O => Some l
  | S n' =>
      match lexer.NextToken LookupIdent fuel l with
      | Some (_, l') => drain LookupIdent fuel n' l'
      | None => None
      end
  end.

(** A line that starts with [t] tabs. *)
Fixpoint tabbed (t : nat) (content : string) : string :=
  match t with
  | O => content
  | S t' => String lexer.TAB (tabbed t' content)
  end.

(** A string body without the quote and without a backslash. *)
Fixpoint plain (quote : ascii) (body : string) : bool :=
  match body with
  | EmptyString => true
  | String c rest =>
      negb (Ascii.eqb c quote) && negb (Ascii.eqb c lexer.BACKSLASH) && plain quote rest
  end.

(** What follows a string body on its line: the closing quote and the rest
    of the line, or nothing when the literal is not closed. *)
Definition closing_of (quote : ascii) (closing : option string) : string :=
  match closing with
  | Some rest => String quote rest
  | None => EmptyString
  end.

(** A lexer at the start of the line ["\tbcdefg"], with the stack [[0]]. *)
Definition at_tabbed_line : lexer.Lexer :=
  lexer.mkLexer [tabbed 1 "bcdefg"] 0 0 [0%nat] (tabbed 1 "bcdefg") false EmptyString false.

(** A lexer on the opening quote of the line [x = 'abc' + x], a lexer on
    the opening quote of the unclosed [x = 'abc]. *)
Definition at_quoted : lexer.Lexer :=
  lexer.mkLexer ["x = 'abc' + x"] 0 4 [0%nat] "x = 'abc' + x" false EmptyString true.

Definition at_unclosed : lexer.Lexer :=
  lexer.mkLexer ["x = 'abc"] 0 4 [0%nat] "x = 'abc" false EmptyString true.

(** A string without a line feed. *)
Fixpoint noLF (s : string) : bool :=
  match s with
  | EmptyString => true
  | String c rest => negb (Ascii.eqb c lexer.LF) && noLF rest
  end.

(** A source of four lines, and an error at column 3 of its second line. *)
Definition four_lines : string := source_of ["a = 1"; "b = 2"; "c = 3"; "d = 4"].

Definition at_second_line : token.Position := token.mkPosition "main.crl" 2 3.

(** A host for which every path is already relative. *)
Definition no_Rel (file : string) : string := EmptyString.

(** * Properties *)

(** ** Go's integers *)

Lemma int64_wrap_in_range (z : Z) : int64.in_range z -> int64.wrap z = z.
Proof.
  unfold int64.in_range, int64.wrap, int64.min, int64.max. intros Hz.
  rewrite Z.mod_small by lia. lia.
Qed.

Lemma int64_wrap_range (z : Z) : int64.in_range (int64.wrap z).
Proof.
  unfold int64.in_range, int64.wrap, int64.min, int64.max.
  pose proof (Z.mod_pos_bound (z + 2 ^ 63) (2 ^ 64) ltac:(lia)). lia.
Qed.

(** ** Arithmetic on a Float and an Integer (C1) *)

(** C1, at the operands the claim names and at every other mixed pair: for
    an Integer and a Float operand, in either order and for every operator,
    [evalInfixExpression] answers the RuntimeError "type mismatch" of the
    case [left.Type() != right.Type()], which stands before the Float case
    in its [switch]; no operand is promoted.  In particular [7.0 / 2] is
    "type mismatch: FLOAT / INTEGER" and not Float 3.5. *)
Theorem C1_float_with_integer_is_type_mismatch :
  forall (host : evaluator.Host) (fuel : nat) (operator : string) (f : float) (i : Z)
         (st : object.Store),
    evaluator.evalInfixExpression host (S fuel) operator (object.Float f) (object.Integer i) st
    = evaluator.Done
        (runtime_error st ("type mismatch: " +:+ "FLOAT" +:+ " " +:+ operator +:+ " " +:+ "INTEGER"))
        st
    /\ evaluator.evalInfixExpression host (S fuel) operator (object.Integer i) (object.Float f) st
       = evaluator.Done
           (runtime_error st ("type mismatch: " +:+ "INTEGER" +:+ " " +:+ operator +:+ " " +:+ "FLOAT"))
           st
    /\ evaluator.evalInfixExpression host (S fuel) "/" (object.Float 7) (object.Integer 2) st
       <> evaluator.Done (object.Float 3.5) st.
Proof.
  intros host fuel operator f i st. repeat split; try reflexivity.
  cbn. discriminate.
Qed.

(** Two Float operands do reach the Float case: the five arithmetic
    operators answer the Float result. *)
Lemma float_with_float_arithmetic :
  forall (host : evaluator.Host) (fuel : nat) (a b : float) (st : object.Store),
    evaluator.evalInfixExpression host (S fuel) "+" (object.Float a) (object.Float b) st
    = evaluator.Done (object.Float (a + b)%float) st
    /\ evaluator.evalInfixExpression host (S fuel) "-" (object.Float a) (object.Float b) st
       = evaluator.Done (object.Float (a - b)%float) st
    /\ evaluator.evalInfixExpression host (S fuel) "*" (object.Float a) (object.Float b) st
       = evaluator.Done (object.Float (a * b)%float) st
    /\ evaluator.evalInfixExpression host (S fuel) "/" (object.Float a) (object.Float b) st
       = evaluator.Done (object.Float (a / b)%float) st
    /\ evaluator.evalInfixExpression host (S fuel) "**" (object.Float a) (object.Float b) st
       = evaluator.Done (object.Float (evaluator.math_Pow host a b)) st.
Proof. intros. repeat split; reflexivity. Qed.

Example seven_point_zero_by_two_point_zero :
  value_of (evaluator.evalInfixExpression host_stub 1 "/" (object.Float 7) (object.Float 2)
              fresh_store)
  = Some (object.Float 3.5).
Proof. vm_compute. reflexivity. Qed.

(** ** Reading an element of an Array (C6) *)

(** The position the claim names, [((i mod n) + n) mod n] with Go's
    truncating remainder, is [i] for an index from the front and [n + i] for
    one from the back. *)
Lemma wrapped_position (n i : Z) :
  - n <= i < n ->
  Z.rem (Z.rem i n + n) n = (if i <? 0 then n + i else i).
Proof.
  intros Hi. destruct (Z.ltb_spec i 0) as [Hneg | Hpos].
  - destruct (Z.eq_dec i (- n)) as [-> | Hne].
    + rewrite Z.rem_opp_l, Z.rem_same by lia.
      replace (- 0 + n) with n by lia. rewrite Z.rem_same by lia. lia.
    + replace i with (- (- i)) at 1 by lia.
      rewrite Z.rem_opp_l by lia. rewrite (Z.rem_small (- i) n) by lia.
      rewrite Z.rem_small by lia. lia.
  - rewrite (Z.rem_small i n) by lia.
    rewrite Z.rem_mod_nonneg by lia.
    replace (i + n) with (i + 1 * n) by lia.
    rewrite Z_mod_plus_full. apply Z.mod_small. lia.
Qed.

(** C6: reading [A[i]] on an Array of [n] elements gives the element at
    position [((i mod n) + n) mod n] when [-n <= i < n], and the evaluator's
    None, without an error and without touching the store, for every other
    index. *)
Theorem C6_array_index_read :
  forall (st : object.Store) (a : object.loc) (els : list object.Object) (i : Z),
    object.slices st !! a = Some els ->
    Z.of_nat (length els) <= int64.max ->
    int64.in_range i ->
    (- Z.of_nat (length els) <= i < Z.of_nat (length els) ->
       exists v,
         els !! Z.to_nat (Z.rem (Z.rem i (Z.of_nat (length els)) + Z.of_nat (length els))
                            (Z.of_nat (length els))) = Some v
         /\ evaluator.evalArrayIndexExpression (object.Array a) (object.Integer i) st
            = evaluator.Done v st)
    /\ (~ (- Z.of_nat (length els) <= i < Z.of_nat (length els)) ->
          evaluator.evalArrayIndexExpression (object.Array a) (object.Integer i) st
          = evaluator.Done evaluator.NONE st).
Proof.
  intros st a els i Hels Hlen Hi.
  set (n := Z.of_nat (length els)) in *.
  assert (Hn : 0 <= n) by (subst n; lia).
  assert (Hsub : int64.sub n 1 = n - 1).
  { apply int64_wrap_in_range. unfold int64.in_range, int64.min, int64.max in *. lia. }
  unfold evaluator.evalArrayIndexExpression, evaluator.bind, evaluator.elements_at,
    evaluator.must.
  rewrite Hels. cbn [evaluator.ret]. fold n. rewrite Hsub.
  split.
  - intros Hrange. rewrite wrapped_position by exact Hrange.
    destruct (Z.ltb_spec i 0) as [Hneg | Hpos].
    + assert (Hadd : int64.add n i = n + i).
      { apply int64_wrap_in_range. unfold int64.in_range, int64.min, int64.max in *. lia. }
      rewrite Hadd.
      destruct (lookup_lt_is_Some_2 els (Z.to_nat (n + i))) as [v Hv]; [subst n; lia |].
      exists v. split; [exact Hv |].
      replace (n + i <? 0) with false by (symmetry; apply Z.ltb_ge; lia).
      replace (n + i >? n - 1) with false by (symmetry; rewrite Z.gtb_ltb; apply Z.ltb_ge; lia).
      cbn. rewrite Hv. reflexivity.
    + destruct (lookup_lt_is_Some_2 els (Z.to_nat i)) as [v Hv]; [subst n; lia |].
      exists v. split; [exact Hv |].
      replace (i <? 0) with false by (symmetry; apply Z.ltb_ge; lia).
      replace (i >? n - 1) with false by (symmetry; rewrite Z.gtb_ltb; apply Z.ltb_ge; lia).
      cbn. rewrite Hv. reflexivity.
  - intros Hout. destruct (Z.ltb_spec i 0) as [Hneg | Hpos].
    + assert (Hadd : int64.add n i = n + i).
      { apply int64_wrap_in_range. unfold int64.in_range, int64.min, int64.max in *. lia. }
      rewrite Hadd.
      replace (n + i <? 0) with true by (symmetry; apply Z.ltb_lt; lia).
      reflexivity.
    + replace (i <? 0) with false by (symmetry; apply Z.ltb_ge; lia).
      replace (i >? n - 1) with true by (symmetry; rewrite Z.gtb_ltb; apply Z.ltb_lt; lia).
      reflexivity.
Qed.

(** The witness of C6: on [[1, 2, 3, 4]] the index -1 reads the last element
    and the index 4 reads None. *)
Lemma C6_array_index_read_witness :
  evaluator.evalArrayIndexExpression (object.Array 7%nat) (object.Integer (-1)) four_store
  = evaluator.Done (object.Integer 4) four_store
  /\ evaluator.evalArrayIndexExpression (object.Array 7%nat) (object.Integer 4) four_store
     = evaluator.Done evaluator.NONE four_store.
Proof.
  split.
  - destruct (C6_array_index_read four_store 7%nat
                [object.Integer 1; object.Integer 2; object.Integer 3; object.Integer 4]
                (-1) eq_refl ltac:(vm_compute; discriminate)
                ltac:(vm_compute; split; discriminate)) as [Hin _].
    destruct Hin as [v [Hv Hread]]; [cbn; lia |].
    vm_compute in Hv. injection Hv as <-. exact Hread.
  - apply (C6_array_index_read four_store 7%nat
             [object.Integer 1; object.Integer 2; object.Integer 3; object.Integer 4]
             4 eq_refl ltac:(vm_compute; discriminate)
             ltac:(vm_compute; split; discriminate)).
    cbn. lia.
Defined.

(** The same reads through [Eval]: [[1, 2, 3, 4][-1]] is 4, [[1, 2, 3, 4][-4]]
    is 1, and the indices 4 and -5 read None. *)
Example index_reads_through_Eval :
  value_of (evaluator.Eval host_stub 10
              (ast.IndexExpression one_to_four (ast.IntegerLiteral (-1))) global fresh_store)
  = Some (object.Integer 4)
  /\ value_of (evaluator.Eval host_stub 10
                 (ast.IndexExpression one_to_four (ast.IntegerLiteral (-4))) global fresh_store)
     = Some (object.Integer 1)
  /\ value_of (evaluator.Eval host_stub 10
                 (ast.IndexExpression one_to_four (ast.IntegerLiteral 4)) global fresh_store)
     = Some evaluator.NONE
  /\ value_of (evaluator.Eval host_stub 10
                 (ast.IndexExpression one_to_four (ast.IntegerLiteral (-5))) global fresh_store)
     = Some evaluator.NONE.
Proof. repeat split; vm_compute; reflexivity. Qed.

(** ** Slicing an Array (C7) *)

Lemma slice_bound_resolves (what : string) (len default : Z) (b : object.Object)
    (v : option Z) (st : object.Store) :
  0 <= len <= int64.max ->
  bound_of b = Some v ->
  bound_in_range v ->
  evaluator.slice_bound what len default b st
  = evaluator.Done (inr (resolve_bound len default v)) st.
Proof.
  intros Hlen Hb Hv.
  destruct b; cbn in Hb; try discriminate; injection Hb as <-; cbn; try reflexivity.
  cbn in Hv. unfold evaluator.ret. do 2 f_equal.
  destruct (Z.ltb_spec Value 0); [| reflexivity].
  apply int64_wrap_in_range.
  unfold int64.in_range, int64.min, int64.max in *. lia.
Qed.

(** C7: on an Array of [len] elements and a Range whose bounds are missing
    or Integers, the slice is a newly allocated Array that holds what the
    specification describes: the bounds resolved (missing start 0, missing
    end [len], a negative bound counted from the end), both clamped to
    [0, len], nothing when the range is empty or inverted and the elements
    of [start, end) otherwise. *)
Theorem C7_array_slice :
  forall (st : object.Store) (a : object.loc) (els : list object.Object)
         (Start End_ : object.Object) (s e : option Z),
    object.slices st !! a = Some els ->
    Z.of_nat (length els) <= int64.max ->
    bound_of Start = Some s -> bound_in_range s ->
    bound_of End_ = Some e -> bound_in_range e ->
    evaluator.evalArraySliceExpression (object.Array a) (object.Range Start End_) st
    = evaluator.Done (object.Array (object.next st))
        (with_new_slice st (slice_as_specified els s e)).
Proof.
  intros st a els Start End_ s e Hels Hlen Hs Hsr He Her.
  assert (Hn : 0 <= Z.of_nat (length els) <= int64.max) by lia.
  unfold evaluator.evalArraySliceExpression, evaluator.bind at 1, evaluator.elements_at,
    evaluator.must.
  rewrite Hels. cbn [evaluator.ret].
  unfold evaluator.bind at 1.
  rewrite (slice_bound_resolves "start" _ 0 Start s st Hn Hs Hsr).
  unfold evaluator.bind at 1.
  rewrite (slice_bound_resolves "end" _ _ End_ e st Hn He Her).
  unfold slice_as_specified, clamp.
  set (len := Z.of_nat (length els)) in *.
  set (s0 := resolve_bound len 0 s). set (e0 := resolve_bound len len e).
  destruct (Z.ltb_spec s0 0) as [Hs0 | Hs0];
    destruct (Z.gtb_spec e0 len) as [He0 | He0]; cbn zeta.
  all: repeat match goal with
       | |- context [?x >=? ?y] => destruct (Z.geb_spec x y)
       | |- context [?x <=? ?y] => destruct (Z.leb_spec x y)
       end; cbn [orb]; try lia; try reflexivity.
  all: unfold evaluator.bind, evaluator.new_slice, evaluator.ret, with_new_slice.
  all: repeat match goal with
       | |- context [Z.max 0 (Z.min ?l ?x)] =>
           first [ replace (Z.max 0 (Z.min l x)) with x by lia
                 | replace (Z.max 0 (Z.min l x)) with l by lia
                 | replace (Z.max 0 (Z.min l x)) with 0 by lia ]
       end; reflexivity.
Qed.

(** The witness of C7: [[1, 2, 3, 4][-2:]] is a new Array holding 3 and 4. *)
Lemma C7_array_slice_witness :
  evaluator.evalArraySliceExpression (object.Array 7%nat)
    (object.Range (object.Integer (-2)) evaluator.NONE) four_store
  = evaluator.Done (object.Array 8%nat)
      (with_new_slice four_store [object.Integer 3; object.Integer 4]).
Proof.
  exact (C7_array_slice four_store 7%nat
           [object.Integer 1; object.Integer 2; object.Integer 3; object.Integer 4]
           (object.Integer (-2)) evaluator.NONE (Some (-2)) None
           eq_refl ltac:(vm_compute; discriminate) eq_refl
           ltac:(vm_compute; split; discriminate) eq_refl I).
Defined.

(** The examples the specification gives, run through [Eval]. *)
Example slice_last_two_of_four :
  array_elements (evaluator.Eval host_stub 10 (slice_of one_to_four (Some (-2)) None)
                    global fresh_store)
  = Some [object.Integer 3; object.Integer 4].
Proof. vm_compute. reflexivity. Qed.

Example slice_from_ten_is_empty :
  array_elements (evaluator.Eval host_stub 10 (slice_of one_to_four (Some 10) None)
                    global fresh_store)
  = Some [].
Proof. vm_compute. reflexivity. Qed.

Example slice_to_minus_ten_is_empty :
  array_elements (evaluator.Eval host_stub 10 (slice_of one_to_four None (Some (-10)))
                    global fresh_store)
  = Some [].
Proof. vm_compute. reflexivity. Qed.

(** ** The order of the operands of an infix expression (C9) *)

(** C9: for an operator other than [and], [or] and the compound
    assignments, [Eval] evaluates the right operand first.  An error of the
    right operand is the result and the left operand is not evaluated at
    all (the result and the store are those of the right operand, whatever
    the left operand is); otherwise the left operand is evaluated in the
    store the right operand left, so that when it errors the result is its
    error and the store still carries the right operand's effects; and when
    neither errors the operator is applied to the two values. *)
Theorem C9_right_operand_first :
  forall (host : evaluator.Host) (fuel : nat) (Left : ast.Node) (Operator : string)
         (Right : ast.Node) (env : object.loc) (st st1 : object.Store) (r : object.Object),
    plain_operator Operator = true ->
    evaluator.Eval host fuel Right env st = evaluator.Done r st1 ->
    (evaluator.isError r = true ->
       evaluator.Eval host (S fuel) (ast.InfixExpression Left Operator Right) env st
       = evaluator.Done r st1)
    /\ (evaluator.isError r = false ->
          forall (l : object.Object) (st2 : object.Store),
            evaluator.Eval host fuel Left env st1 = evaluator.Done l st2 ->
            evaluator.Eval host (S fuel) (ast.InfixExpression Left Operator Right) env st
            = (if evaluator.isError l then evaluator.Done l st2
               else evaluator.evalInfixExpression host fuel Operator l r st2)).
Proof.
  intros host fuel Left Operator Right env st st1 r Hop Hright.
  unfold plain_operator in Hop. apply negb_true_iff in Hop.
  repeat (apply orb_false_iff in Hop; destruct Hop as [Hop ?]).
  cbn [evaluator.Eval evaluator.Eval_node]. unfold evaluator.evalInfixNode.
  repeat match goal with
         | H : String.eqb Operator _ = false |- _ => rewrite H; clear H
         end.
  cbn [orb]. split.
  - intros Herr. unfold evaluator.bind at 1. rewrite Hright. cbv beta iota.
    rewrite Herr. reflexivity.
  - intros Hok l st2 Hleft. unfold evaluator.bind at 1. rewrite Hright.
    cbv beta iota. rewrite Hok. unfold evaluator.bind at 1.
    rewrite Hleft. cbv beta iota. destruct (evaluator.isError l); reflexivity.
Qed.

(** The witness of C9: in [missing + n++] the right operand, which binds
    [n] to 1, runs before the left one, whose error is the result; in
    [missing + absent] the error is the right operand's. *)
Lemma C9_right_operand_first_witness :
  evaluator.Eval host_stub 3 missing_plus_count global counter_store
  = evaluator.Done
      (runtime_error counter_store "identifier not found: missing")
      (object.Set_ counter_store global "n" (object.Integer 1))
  /\ evaluator.Eval host_stub 3 missing_plus_absent global counter_store
     = evaluator.Done (runtime_error counter_store "identifier not found: absent")
         counter_store.
Proof.
  split.
  - apply (proj2 (C9_right_operand_first host_stub 2 (ast.Identifier "missing") "+"
                    (ast.PostfixExpression (ast.Identifier "n") "++") global counter_store
                    (object.Set_ counter_store global "n" (object.Integer 1))
                    (object.Integer 0) eq_refl
                    ltac:(vm_compute; reflexivity))
             eq_refl
             (runtime_error counter_store "identifier not found: missing")
             (object.Set_ counter_store global "n" (object.Integer 1))).
    vm_compute. reflexivity.
  - apply (proj1 (C9_right_operand_first host_stub 2 (ast.Identifier "missing") "+"
                    (ast.Identifier "absent") global counter_store counter_store
                    (runtime_error counter_store "identifier not found: absent") eq_refl
                    ltac:(vm_compute; reflexivity))).
    reflexivity.
Defined.

(** ** Instantiation discards what [init] evaluates to (C10) *)

(** C10: calling a grimoire that is not arcane and has an [init] method
    builds the instance, builds the frame of [init] with [self] bound to the
    instance, evaluates the body of [init] in it, and answers the instance:
    whatever the body evaluates to, an Error or a CustomError included, is
    dropped, and only the store it left remains. *)
Theorem C10_init_result_discarded :
  forall (host : evaluator.Host) (ev : ast.Node -> object.loc -> evaluator.M object.Object)
         (g : object.loc) (fn : object.GrimoireObj) (init : object.FunctionObj)
         (args args' : list object.Object) (env : object.loc)
         (st stA stB stC : object.Store) (instEnv globalEnv extendedEnv : object.loc)
         (v : object.Object),
    object.grimoires st !! g = Some fn ->
    object.IsArcane fn = false ->
    object.InitMethod fn = Some init ->
    evaluator.unpackArgs args st = evaluator.Done args' st ->
    evaluator.new_env (Some (object.grim_Env fn)) st = evaluator.Done instEnv stA ->
    evaluator.getGlobalEnv (object.grim_Env fn) stA = evaluator.Done globalEnv stA ->
    evaluator.extendFunctionEnv ev init args' globalEnv (object.Name fn +:+ ".init") stA
    = evaluator.Done extendedEnv stB ->
    ev (ast.BlockStatement (object.Body init)) extendedEnv
       (object.Set_ stB extendedEnv "self" (object.Instance (object.mkInstance g instEnv)))
    = evaluator.Done v stC ->
    evaluator.evalCallExpression host ev (object.Grimoire g) args env st
    = evaluator.Done (object.Instance (object.mkInstance g instEnv)) stC.
Proof.
  intros host ev g fn init args args' env st stA stB stC instEnv globalEnv extendedEnv v
    Hg Harcane Hinit Hargs Hnew Hglobal Hframe Hbody.
  unfold evaluator.evalCallExpression.
  unfold evaluator.bind at 1. rewrite Hargs. cbv beta iota.
  unfold evaluator.bind at 1, evaluator.grimoire_at, evaluator.must. rewrite Hg.
  cbn [evaluator.ret]. rewrite Harcane.
  unfold evaluator.bind at 1. rewrite Hnew. cbv beta iota. rewrite Hinit.
  unfold evaluator.bind at 1. rewrite Hglobal. cbv beta iota.
  unfold evaluator.bind at 1. rewrite Hframe. cbv beta iota.
  unfold evaluator.bind at 1, evaluator.env_Set. cbv beta iota.
  unfold evaluator.bind at 1. rewrite Hbody. reflexivity.
Qed.

(** The witness of C10: the [init] of [Faulty] raises ["boom"], and
    [Faulty()] is nevertheless an instance of [Faulty]. *)
Lemma C10_init_result_discarded_witness :
  evaluator.Eval host_stub 4 (ast.BlockStatement [raise_boom]) 3%nat Faulty_frame
  = evaluator.Done (boom "Faulty method") Faulty_frame
  /\ evaluator.evalCallExpression host_stub (evaluator.Eval host_stub 4)
       (object.Grimoire 1%nat) [] global Faulty_store
     = evaluator.Done (object.Instance (object.mkInstance 1%nat 2%nat)) Faulty_frame.
Proof.
  split.
  - vm_compute. reflexivity.
  - eapply (C10_init_result_discarded host_stub (evaluator.Eval host_stub 4) 1%nat _ _ [] []
              global Faulty_store _ _ _ 2%nat global 3%nat (boom "Faulty method")).
    + vm_compute. reflexivity.
    + reflexivity.
    + reflexivity.
    + reflexivity.
    + vm_compute. reflexivity.
    + vm_compute. reflexivity.
    + vm_compute. reflexivity.
    + vm_compute. reflexivity.
Defined.

(** ** Unpacking assignment (C8) *)

(** Identifier targets: each is bound to its value, in order, unless a value
    is itself an error object, on which the loop of [evalTupleUnpacking]
    stops. *)
Lemma assignTargets_identifiers
    (host : evaluator.Host) (ev : ast.Node -> object.loc -> evaluator.M object.Object)
    (unpack : list ast.Node -> object.loc -> object.loc -> evaluator.M object.Object)
    (env : object.loc) (whole : object.Object) (names : list string) :
  forall (vals : list object.Object) (st : object.Store),
    length vals = length names ->
    Forall (fun v => evaluator.isError v = false) vals ->
    evaluator.assignTargets (evaluator.assignToTarget host ev unpack env) whole
      (map ast.Identifier names) vals st
    = evaluator.Done whole (bind_in_order env st names vals).
Proof.
  induction names as [| x names IH]; intros vals st Hlen Hok.
  - destruct vals; [reflexivity | discriminate].
  - destruct vals as [| v vals]; [discriminate |].
    inversion Hok as [| ? ? Hv Hvals]; subst.
    cbn [map evaluator.assignTargets evaluator.assignToTarget].
    unfold evaluator.bind, evaluator.env_Set, evaluator.ret. rewrite Hv.
    rewrite IH by (cbn in Hlen; auto with arith || assumption). reflexivity.
Qed.

(** C8: when the right-hand side of a tuple-pattern assignment (the pattern
    is a [TupleAssignment] or a [TupleLiteral] node) evaluates to a Tuple or
    Array [val] whose elements [vals], read in the store [st1] that the
    evaluation left, are as many as the targets, the assignment is the loop
    over the targets, in order, on those values: the values are the copy
    taken in [st1], whatever the assignments to earlier targets do to the
    store.  For identifier targets this is the store in which each name is
    bound in order to its value, and the result is the tuple of the
    right-hand side's elements. *)
Theorem C8_tuple_pattern_assignment :
  forall (host : evaluator.Host) (ev : ast.Node -> object.loc -> evaluator.M object.Object)
         (fuel : nat) (pattern : ast.Node) (targets : list ast.Node) (Value : ast.Node)
         (env : object.loc) (st st1 : object.Store) (val : object.Object)
         (values : object.loc) (vals : list object.Object),
    pattern = ast.TupleAssignment targets \/ pattern = ast.TupleLiteral targets ->
    ev Value env st = evaluator.Done val st1 ->
    evaluator.isError val = false ->
    evaluator.unpackable val = Some values ->
    object.slices st1 !! values = Some vals ->
    length vals = length targets ->
    evaluator.evalAssignStatement host ev (S fuel) pattern Value env st
    = evaluator.assignTargets
        (evaluator.assignToTarget host ev (evaluator.evalTupleUnpacking host ev fuel) env)
        (object.Tuple values) targets vals st1
    /\ (forall names : list string,
          targets = map ast.Identifier names ->
          Forall (fun v => evaluator.isError v = false) vals ->
          evaluator.evalAssignStatement host ev (S fuel) pattern Value env st
          = evaluator.Done (object.Tuple values) (bind_in_order env st1 names vals)).
Proof.
  intros host ev fuel pattern targets Value env st st1 val values vals
    Hpattern Hval Herr Hunpack Hvals Hlen.
  assert (Heq : evaluator.evalAssignStatement host ev (S fuel) pattern Value env st
                = evaluator.assignTargets
                    (evaluator.assignToTarget host ev
                       (evaluator.evalTupleUnpacking host ev fuel) env)
                    (object.Tuple values) targets vals st1).
  { destruct Hpattern as [-> | ->]; unfold evaluator.evalAssignStatement;
      unfold evaluator.bind at 1; rewrite Hval; cbv beta iota; rewrite Herr, Hunpack.
    - unfold evaluator.bind at 1, evaluator.elements_at, evaluator.must. rewrite Hvals.
      cbn [evaluator.ret]. rewrite Hlen, Nat.eqb_refl. cbn [negb].
      cbn [evaluator.evalTupleUnpacking].
      unfold evaluator.bind at 1, evaluator.elements_at, evaluator.must. rewrite Hvals.
      cbn [evaluator.ret]. rewrite <- Hlen, Nat.eqb_refl. reflexivity.
    - cbn [evaluator.evalTupleUnpacking].
      unfold evaluator.bind at 1, evaluator.elements_at, evaluator.must. rewrite Hvals.
      cbn [evaluator.ret]. rewrite <- Hlen, Nat.eqb_refl. reflexivity. }
  split; [exact Heq |].
  intros names -> Hok. rewrite Heq.
  apply assignTargets_identifiers; [| exact Hok].
  rewrite Hlen. apply length_map.
Qed.

(** The witness of C8: [(a, b) = (b, a)] in the session where [a] is 1 and
    [b] is 2.  The right-hand side evaluates to a fresh tuple holding 2 and
    1, and the assignment binds [a] to 2, then [b] to 1. *)
Lemma C8_tuple_pattern_assignment_witness :
  evaluator.evalAssignStatement host_stub (evaluator.Eval host_stub 5) 5
    (ast.TupleAssignment [ast.Identifier "a"; ast.Identifier "b"])
    (ast.TupleLiteral [ast.Identifier "b"; ast.Identifier "a"]) global ab_store
  = evaluator.Done (object.Tuple 1%nat)
      (bind_in_order global
         (with_new_slice ab_store [object.Integer 2; object.Integer 1])
         ["a"; "b"] [object.Integer 2; object.Integer 1]).
Proof.
  apply (proj2 (C8_tuple_pattern_assignment host_stub (evaluator.Eval host_stub 5) 4
                  (ast.TupleAssignment [ast.Identifier "a"; ast.Identifier "b"])
                  [ast.Identifier "a"; ast.Identifier "b"]
                  (ast.TupleLiteral [ast.Identifier "b"; ast.Identifier "a"]) global
                  ab_store (with_new_slice ab_store [object.Integer 2; object.Integer 1])
                  (object.Tuple 1%nat) 1%nat [object.Integer 2; object.Integer 1]
                  (or_introl eq_refl)
                  ltac:(vm_compute; reflexivity) eq_refl eq_refl
                  ltac:(vm_compute; reflexivity) eq_refl)
           ["a"; "b"] eq_refl).
  repeat constructor.
Defined.

(** The example of the specification: after [a = 1; b = 2; (a, b) = (b, a)]
    the environment binds [a] to 2 and [b] to 1. *)
Example swap_binds_a_to_2_and_b_to_1 :
  global_binding (evaluator.Eval host_stub 8 swap_program global fresh_store) "a"
  = Some (object.Integer 2)
  /\ global_binding (evaluator.Eval host_stub 8 swap_program global fresh_store) "b"
     = Some (object.Integer 1).
Proof. split; vm_compute; reflexivity. Qed.

(** The copy at work: in [(arr[1], x) = arr] the first target overwrites
    [arr[1]] with 1 before the second target is assigned, and [x] still
    receives 2, the element as it was when the values were copied. *)
Example unpacking_reads_the_copy :
  global_binding (evaluator.Eval host_stub 8 overlapping_program global fresh_store) "x"
  = Some (object.Integer 2)
  /\ array_elements
       (evaluator.Eval host_stub 8
          (ast.Program [overlapping_program; ast.Identifier "arr"]) global fresh_store)
     = Some [object.Integer 1; object.Integer 1].
Proof. split; vm_compute; reflexivity. Qed.

(** ** [attempt], [ensnare], [resolve] (C5) *)

(** [evalEnsnareClauses] finds what the search describes. *)
Lemma evalEnsnareClauses_search
    (ev : ast.Node -> object.loc -> evaluator.M object.Object)
    (customErr : object.CustomErrorObj) (env : object.loc)
    (clauses : list (ast.Node * list ast.Node)) (st st' : object.Store) (r : object.Object) :
  ensnare_search ev customErr env clauses st r st' ->
  evaluator.evalEnsnareClauses ev customErr clauses env st = evaluator.Done r st'.
Proof.
  induction 1 as [st | guard handler rest st st1 g Hg Herr
                 | guard handler rest st st1 st2 g r Hg Hmatch Hbody
                 | guard handler rest st st1 st2 g r Hg Herr Hmatch Hrest IH];
    cbn [evaluator.evalEnsnareClauses].
  - reflexivity.
  - unfold evaluator.bind. rewrite Hg, Herr. reflexivity.
  - unfold evaluator.bind. rewrite Hg.
    destruct g; cbn in Hmatch; try discriminate; cbn [evaluator.isError];
      rewrite Hmatch; exact Hbody.
  - unfold evaluator.bind. rewrite Hg, Herr.
    destruct g; cbn in Hmatch; try rewrite Hmatch; exact IH.
Qed.

(** C5, amended: the try block runs first.  When it produces a CustomError
    the guards are evaluated in order, a guard that evaluates to an error
    ends the search with that error, a Grimoire guard matches exactly when
    it is the error's declared class and a String guard exactly when it is
    the error's name, the first matching handler's body gives the result
    (the error itself when the body gives no value), and with no match the
    error propagates.  When it produces a built-in Error no guard is
    evaluated and the error propagates.  The resolve block runs in every
    case, and an error from it replaces the result. *)
Theorem C5_attempt_ensnare_resolve :
  forall (ev : ast.Node -> object.loc -> evaluator.M object.Object)
         (TryBlock : list ast.Node) (EnsnareClauses : list (ast.Node * list ast.Node))
         (ResolveBlock : option (list ast.Node)) (env : object.loc)
         (st st1 st2 : object.Store) (tryResult result : object.Object),
    ev (ast.BlockStatement TryBlock) env st = evaluator.Done tryResult st1 ->
    attempt_result ev env EnsnareClauses tryResult st1 result st2 ->
    evaluator.evalAttemptStatement ev TryBlock EnsnareClauses ResolveBlock env st
    = resolve_after ev env ResolveBlock result st2.
Proof.
  intros ev TryBlock EnsnareClauses ResolveBlock env st st1 st2 tryResult result Htry Hres.
  unfold evaluator.evalAttemptStatement.
  unfold evaluator.bind at 1. rewrite Htry. cbv beta iota.
  assert (Hmid :
    (if evaluator.isError tryResult
     then
       evaluator.bind
         match tryResult with
         | object.CustomError customErr =>
             evaluator.evalEnsnareClauses ev customErr EnsnareClauses env
         | _ => evaluator.ret object.Nil
         end
         (fun result0 => match result0 with
                         | object.Nil => evaluator.ret tryResult
                         | _ => evaluator.ret result0
                         end)
     else evaluator.ret tryResult) st1 = evaluator.Done result st2).
  { destruct Hres as [tryResult st1 Hok | e st1 | customErr st1 st2 r Hsearch].
    - rewrite Hok. reflexivity.
    - reflexivity.
    - cbn [evaluator.isError]. unfold evaluator.bind.
      rewrite (evalEnsnareClauses_search _ _ _ _ _ _ _ Hsearch).
      destruct r; reflexivity. }
  unfold evaluator.bind at 1. rewrite Hmid.
  destruct ResolveBlock as [resolve |]; [| reflexivity].
  unfold resolve_after, evaluator.bind.
  destruct (ev (ast.BlockStatement resolve) env st2) as [rr st3 | | |]; try reflexivity.
  destruct (evaluator.isError rr); reflexivity.
Qed.

(** The witness of C5: [raise "bad"] in the try block; the guard [n++]
    is evaluated and does not match, the guard ["Error"] matches the
    error's name, its handler gives the result, and the resolve block runs
    after it. *)
Lemma C5_attempt_ensnare_resolve_witness :
  evaluator.evalAttemptStatement (evaluator.Eval host_stub 6) raising_try
    [(counting_guard, []); (ast.StringLiteral "Error", caught_handler)]
    (Some done_resolve) global counter_store
  = evaluator.Done (object.String "caught") caught_store.
Proof.
  eapply eq_trans.
  - eapply (C5_attempt_ensnare_resolve (evaluator.Eval host_stub 6) raising_try _
              (Some done_resolve) global counter_store counter_store _ raised_bad).
    + vm_compute. reflexivity.
    + apply attempt_custom_error.
      eapply search_next; [vm_compute; reflexivity | reflexivity | reflexivity |].
      eapply search_match; [vm_compute; reflexivity | reflexivity |].
      vm_compute. reflexivity.
  - vm_compute. reflexivity.
Defined.

(** C5 as stated fails on a built-in Error.  The try block of
    [attempt: missing ensnare n++: x = "caught"] ends with the error of the
    unbound name; the claim has every guard evaluated for every error, and
    evaluating the guard [n++] in that store binds [n] to 1; the attempt
    statement answers the error in the store the try block left, where [n]
    is still 0: the guard was not evaluated. *)
Lemma C5_counterexample :
  evaluator.Eval host_stub 6 (ast.BlockStatement failing_try) global counter_store
  = evaluator.Done (runtime_error counter_store "identifier not found: missing") counter_store
  /\ evaluator.Eval host_stub 6 counting_guard global counter_store
     = evaluator.Done (object.Integer 0)
         (object.Set_ counter_store global "n" (object.Integer 1))
  /\ evaluator.Eval host_stub 7 attempt_builtin global counter_store
     = evaluator.Done (runtime_error counter_store "identifier not found: missing")
         counter_store
  /\ object.Get counter_store global "n" = Some (object.Integer 0)
  /\ object.Get (object.Set_ counter_store global "n" (object.Integer 1)) global "n"
     = Some (object.Integer 1).
Proof. repeat split; vm_compute; reflexivity. Qed.

(** ** Sentinels in the body of a [while] (C2) *)

(** C2, at inputs on which the code departs from the claim.  An iteration of
    [evalWhileStatement] tests the results of [Statements[0 .. n-2]] only
    and then evaluates the last statement in every case, dropping its
    result.  So a Stop produced by the last statement does not break the
    loop (the loop below runs until its condition fails, [x] is 3 and not
    1); an error or a ReturnValue produced by the last statement does not
    propagate (the loops run on and answer None); and after a Stop produced
    by an earlier statement the last statement is still evaluated ([y] is
    bound). *)
Theorem C2_while_sentinels_at_failing_inputs :
  (value_of (evaluator.Eval host_stub 12 stop_last_program global fresh_store)
   = Some evaluator.NONE
   /\ global_binding (evaluator.Eval host_stub 12 stop_last_program global fresh_store) "x"
      = Some (object.Integer 3))
  /\ (value_of (evaluator.Eval host_stub 12 raise_last_program global fresh_store)
      = Some evaluator.NONE
      /\ global_binding (evaluator.Eval host_stub 12 raise_last_program global fresh_store) "x"
         = Some (object.Integer 2))
  /\ (value_of (evaluator.Eval host_stub 12 return_last_program global fresh_store)
      = Some evaluator.NONE
      /\ global_binding (evaluator.Eval host_stub 12 return_last_program global fresh_store) "x"
         = Some (object.Integer 2))
  /\ (value_of (evaluator.Eval host_stub 12 stop_first_program global fresh_store)
      = Some evaluator.NONE
      /\ global_binding (evaluator.Eval host_stub 12 stop_first_program global fresh_store) "y"
         = Some (object.Integer 1)).
Proof. repeat split; vm_compute; reflexivity. Qed.

(** The sibling loop does what the claim says: in a [for] a Stop ends the
    loop before the next statement of the body. *)
Example for_stops_at_stop :
  value_of (evaluator.Eval host_stub 12 (for_program ast.StopStatement) global fresh_store)
  = Some evaluator.NONE
  /\ global_binding
       (evaluator.Eval host_stub 12 (for_program ast.StopStatement) global fresh_store) "y"
     = None.
Proof. split; vm_compute; reflexivity. Qed.

(** A body of one statement is its own last statement: whatever it
    evaluates to, one iteration is the condition, the statement, and the
    next iteration. *)
Lemma while_single_statement_iteration
    (ev : ast.Node -> object.loc -> evaluator.M object.Object) (iterations : nat)
    (Condition statement : ast.Node) (env : object.loc)
    (st st1 st2 : object.Store) (condition result : object.Object) :
  ev Condition env st = evaluator.Done condition st1 ->
  evaluator.isError condition = false ->
  evaluator.isTruthy condition st1 = evaluator.Done true st1 ->
  ev statement env st1 = evaluator.Done result st2 ->
  evaluator.evalWhileStatement ev (S iterations) Condition [statement] env st
  = evaluator.evalWhileStatement ev iterations Condition [statement] env st2.
Proof.
  intros Hcond Herr Htruthy Hstmt.
  cbn [evaluator.evalWhileStatement length Nat.sub take last evaluator.evalWhileBodyPrefix].
  unfold evaluator.bind at 1. rewrite Hcond. cbv beta iota. rewrite Herr.
  unfold evaluator.bind at 1. rewrite Htruthy. cbv beta iota. cbn [negb].
  unfold evaluator.bind at 1. cbn [evaluator.ret]. cbv beta iota.
  unfold evaluator.bind at 1. rewrite Hstmt. reflexivity.
Qed.

(** [while True: stop] never ends: with every bound the evaluator is still
    running when the bound is reached. *)
Lemma while_true_stop_never_ends (fuel : nat) :
  evaluator.Eval host_stub fuel (ast.WhileStatement (ast.Boolean true) [ast.StopStatement])
    global fresh_store
  = evaluator.OutOfFuel.
Proof.
  destruct fuel as [| fuel]; [reflexivity |].
  cbn [evaluator.Eval evaluator.Eval_node].
  destruct fuel as [| fuel]; [reflexivity |].
  generalize (S fuel) at 2. intros iterations.
  induction iterations as [| iterations IH]; [reflexivity |].
  rewrite (while_single_statement_iteration _ iterations _ _ _ fresh_store fresh_store
             fresh_store evaluator.TRUE object.STOP); auto.
Qed.

(** ** Errors end a block (C3) *)

(** The loop of [evalBlockStatement] on [pre ++ s :: post]: when the
    statements up to [s] end with an error, that error is the result and
    the store is the one they left, whatever [post] is ([ev] is arbitrary:
    statements whose evaluation would panic or run for ever may follow). *)
Lemma evalBlockStatement_loop_error
    (ev : ast.Node -> object.loc -> evaluator.M object.Object) (env : object.loc)
    (s : ast.Node) (post : list ast.Node) (e : object.Object) (st1 : object.Store) :
  evaluator.isError e = true ->
  forall (pre : list ast.Node) (result : object.Object) (st : object.Store),
    evaluator.evalBlockStatement_loop ev (pre ++ [s]) env result st = evaluator.Done e st1 ->
    evaluator.evalBlockStatement_loop ev (pre ++ s :: post) env result st
    = evaluator.Done e st1.
Proof.
  intros He pre. induction pre as [| p pre IH]; intros result st Hrun.
  - cbn [app evaluator.evalBlockStatement_loop] in *.
    unfold evaluator.bind in *.
    destruct (ev s env st) as [r st' | | |]; try discriminate.
    destruct (evaluator.block_stops r) eqn:Hstop; [exact Hrun |].
    cbn in Hrun. unfold evaluator.ret in Hrun. injection Hrun as -> ->.
    destruct e; cbn in He; try discriminate; cbn in Hstop; discriminate.
  - cbn [app evaluator.evalBlockStatement_loop] in *.
    unfold evaluator.bind in *.
    destruct (ev p env st) as [r st' | | |]; try discriminate.
    destruct (evaluator.block_stops r); [exact Hrun |].
    apply IH. exact Hrun.
Qed.

(** The same for the statements of a program. *)
Lemma evalProgram_loop_error
    (ev : ast.Node -> object.loc -> evaluator.M object.Object) (env : object.loc)
    (s : ast.Node) (post : list ast.Node) (e : object.Object) (st1 : object.Store) :
  evaluator.isError e = true ->
  forall (pre : list ast.Node) (result : object.Object) (st : object.Store),
    evaluator.evalProgram_loop ev (pre ++ [s]) env result st = evaluator.Done e st1 ->
    evaluator.evalProgram_loop ev (pre ++ s :: post) env result st = evaluator.Done e st1.
Proof.
  intros He pre. induction pre as [| p pre IH]; intros result st Hrun.
  - cbn [app evaluator.evalProgram_loop] in *.
    unfold evaluator.bind in *.
    destruct (ev s env st) as [r st' | | |]; try discriminate.
    destruct r; try exact Hrun;
      cbn in Hrun; unfold evaluator.ret in Hrun; injection Hrun as <- <-;
      cbn in He; discriminate.
  - cbn [app evaluator.evalProgram_loop] in *.
    unfold evaluator.bind in *.
    destruct (ev p env st) as [r st' | | |]; try discriminate.
    destruct r; try exact Hrun; apply IH; exact Hrun.
Qed.

(** The part of C3 that holds: in a block statement and in a program, once
    the statements up to some statement have produced an error, no
    statement after it is evaluated and the error is the result. *)
Lemma block_and_program_stop_at_error
    (ev : ast.Node -> object.loc -> evaluator.M object.Object) (env : object.loc)
    (pre : list ast.Node) (s : ast.Node) (post : list ast.Node)
    (e : object.Object) (st st1 : object.Store) :
  evaluator.isError e = true ->
  (evaluator.evalBlockStatement ev (pre ++ [s]) env st = evaluator.Done e st1 ->
   evaluator.evalBlockStatement ev (pre ++ s :: post) env st = evaluator.Done e st1)
  /\ (evaluator.evalProgram ev (pre ++ [s]) env st = evaluator.Done e st1 ->
      evaluator.evalProgram ev (pre ++ s :: post) env st = evaluator.Done e st1).
Proof.
  intros He. split; intros Hrun.
  - apply evalBlockStatement_loop_error; assumption.
  - apply evalProgram_loop_error; assumption.
Qed.

(** The condition of an [if] is not tested for an error: an error object is
    truthy, so the consequence is evaluated, in the store the condition
    left, and its value is the value of the [if]. *)
Lemma if_condition_error_runs_consequence
    (ev : ast.Node -> object.loc -> evaluator.M object.Object)
    (Condition : ast.Node) (Consequence : list ast.Node)
    (OtherwiseBranches : list (ast.Node * list ast.Node))
    (Alternative : option (list ast.Node)) (env : object.loc)
    (st st1 : object.Store) (e : object.Object) :
  ev Condition env st = evaluator.Done e st1 ->
  evaluator.isError e = true ->
  evaluator.evalIfExpression ev Condition Consequence OtherwiseBranches Alternative env st
  = ev (ast.BlockStatement Consequence) env st1.
Proof.
  intros Hcond He. unfold evaluator.evalIfExpression.
  unfold evaluator.bind at 1. rewrite Hcond. cbv beta iota.
  destruct e; cbn in He; try discriminate; reflexivity.
Qed.

(** C3, at inputs on which the code departs from the claim.  In
    [if missing: y = 1] the condition evaluates to an error, and the
    consequence is evaluated all the same: the [if] answers 1 and [y] is
    bound.  In [while True: raise "boom"; y = 1] the first statement of the
    body produces an error and the last statement is still evaluated before
    the error leaves the loop: [y] is bound.  In
    [x = 0; while x < 2: x = x + 1; raise "boom"] the error of the last
    statement is not the result: the loop runs on and answers None. *)
Theorem C3_error_propagation_at_failing_inputs :
  (value_of (evaluator.Eval host_stub 12 if_missing_program global fresh_store)
   = Some (object.Integer 1)
   /\ global_binding (evaluator.Eval host_stub 12 if_missing_program global fresh_store) "y"
      = Some (object.Integer 1))
  /\ (value_of (evaluator.Eval host_stub 12 raise_first_program global fresh_store)
      = Some raised_boom
      /\ global_binding (evaluator.Eval host_stub 12 raise_first_program global fresh_store) "y"
         = Some (object.Integer 1))
  /\ (value_of (evaluator.Eval host_stub 12 raise_last_program global fresh_store)
      = Some evaluator.NONE
      /\ global_binding (evaluator.Eval host_stub 12 raise_last_program global fresh_store) "x"
         = Some (object.Integer 2)).
Proof. repeat split; vm_compute; reflexivity. Qed.

(** The sibling paths do what the claim says: an [otherwise] condition that
    evaluates to an error is the result and its branch is not evaluated; in
    a [for] an error ends the body before its next statement. *)
Example sibling_paths_stop_at_error :
  (value_of (evaluator.Eval host_stub 12 otherwise_missing_program global fresh_store)
   = Some (runtime_error fresh_store "identifier not found: missing")
   /\ global_binding
        (evaluator.Eval host_stub 12 otherwise_missing_program global fresh_store) "y"
      = None)
  /\ (value_of (evaluator.Eval host_stub 12 (for_program raise_boom) global fresh_store)
      = Some raised_boom
      /\ global_binding
           (evaluator.Eval host_stub 12 (for_program raise_boom) global fresh_store) "y"
         = None).
Proof. repeat split; vm_compute; reflexivity. Qed.

(** ** DEDENT tokens (C4) *)

(** C4, at an input on which the code departs from the claim.  The line [d]
    of [nested_source] drops from indentation 4 to 0, across two levels of
    the stack [0, 2, 4].  [NextToken] sets [indentResolved] before it calls
    [handleIndentChange] and only [advanceLine] clears it, so the call after
    a DEDENT does not reconcile the layout again: one DEDENT is emitted,
    then the content token [d]; the second DEDENT is emitted on the next
    line, before [e].  The claim has two successive DEDENT tokens before
    [d]. *)
Theorem C4_one_dedent_per_line_at_failing_input :
  lexer.tokens lookup_if 20 20 (lexer.New nested_source EmptyString)
  = [ (token.NEWLINE, ""); (token.KEYWORD "if", "if"); (token.IDENT, "a");
      (token.COLON, ":"); (token.NEWLINE, "\n");
      (token.INDENT, ""); (token.KEYWORD "if", "if"); (token.IDENT, "b");
      (token.COLON, ":"); (token.NEWLINE, "\n");
      (token.INDENT, ""); (token.IDENT, "c"); (token.NEWLINE, "\n");
      (token.DEDENT, ""); (token.IDENT, "d"); (token.NEWLINE, "\n");
      (token.DEDENT, ""); (token.IDENT, "e"); (token.NEWLINE, "\n");
      (token.EOF, "") ]
  /\ lexer.tokens lookup_if 20 2 at_line_d = [(token.DEDENT, ""); (token.IDENT, "d")].
Proof. split; vm_compute; reflexivity. Qed.

(** The part of C4 that holds: when the measured indentation is less than
    the top of the indent stack, [handleIndentChange] pops one level and
    emits DEDENT, and the character index stays where it was. *)
Lemma handleIndentChange_dedent (l : lexer.Lexer) (newIndent currentIndent : nat) :
  last (lexer.indentStack l) = Some currentIndent ->
  (newIndent < currentIndent)%nat ->
  lexer.handleIndentChange l newIndent
  = Some (token.mkToken token.DEDENT "" (lexer.position l),
          lexer.with_indentStack l (removelast (lexer.indentStack l)))
  /\ lexer.charIndex (lexer.with_indentStack l (removelast (lexer.indentStack l)))
     = lexer.charIndex l.
Proof.
  intros Htop Hlt. unfold lexer.handleIndentChange. rewrite Htop.
  replace (Nat.eqb newIndent currentIndent) with false
    by (symmetry; apply Nat.eqb_neq; lia).
  replace (Nat.ltb currentIndent newIndent) with false
    by (symmetry; apply Nat.ltb_ge; lia).
  split; reflexivity.
Qed.

(** A byte under the cursor means a line that is not empty. *)
Lemma get_Some_length (i : nat) (s : string) (c : ascii) :
  String.get i s = Some c -> String.length s <> 0%nat.
Proof. destruct s; [destruct i; discriminate | discriminate]. Qed.

(** A block comment ends at the end of the input or past its closing
    [*/], never at the start of a line. *)
Lemma skipBlockComment_loop_lands (fuel : nat) :
  forall l l' : lexer.Lexer,
    lexer.skipBlockComment_loop fuel l = Some l' ->
    lexer.finished l' = true \/ (2 <= lexer.charIndex l')%nat.
Proof.
  induction fuel as [| fuel IH]; intros l l' Hskip; [discriminate |].
  cbn [lexer.skipBlockComment_loop] in Hskip.
  destruct (lexer.charAt l (lexer.charIndex l)) as [c |].
  - destruct (Ascii.eqb c "*" && Ascii.eqb (lexer.peekChar l) "/").
    + injection Hskip as <-. right. cbn. lia.
    + eauto.
  - destruct (lexer.finished (lexer.advanceLine l)) eqn:Hfin.
    + injection Hskip as <-. left. exact Hfin.
    + eauto.
Qed.

Section Dedent.

Variable LookupIdent : string -> token.TokenType.
Hypothesis LookupIdent_names_words : names_words LookupIdent.

Lemma LookupIdent_not_DEDENT (literal : string) : LookupIdent literal <> token.DEDENT.
Proof.
  destruct (LookupIdent_names_words literal) as [H | [name H]]; rewrite H; discriminate.
Qed.

Lemma operatorToken_not_DEDENT (l l' : lexer.Lexer) (ch : ascii) (tok : token.Token) :
  lexer.operatorToken LookupIdent l ch = Some (tok, l') ->
  token.Type_ tok <> token.DEDENT.
Proof.
  unfold lexer.operatorToken, lexer.emit, lexer.readIdentifier, lexer.readNumber.
  intros H.
  repeat match type of H with
         | context [if ?c then _ else _] => destruct c
         | context [let '(_, _) := ?p in _] => destruct p
         end;
    injection H as <- <-; cbn [token.Type_];
    first [discriminate | apply LookupIdent_not_DEDENT].
Qed.

Lemma readString_not_DEDENT (fuel : nat) (l l' : lexer.Lexer) (tok : token.Token) :
  lexer.readString fuel l = Some (tok, l') -> token.Type_ tok <> token.DEDENT.
Proof.
  unfold lexer.readString. intros H.
  repeat match type of H with
         | context [match ?x with _ => _ end] => destruct x
         end; try discriminate;
    injection H as <- <-; discriminate.
Qed.

Lemma readFString_not_DEDENT (fuel : nat) (l l' : lexer.Lexer) (tok : token.Token) :
  lexer.readFString fuel l = Some (tok, l') -> token.Type_ tok <> token.DEDENT.
Proof.
  unfold lexer.readFString. intros H.
  repeat match type of H with
         | context [match ?x with _ => _ end] => destruct x
         end; try discriminate;
    injection H as <- <-; discriminate.
Qed.

(** A DEDENT comes from the layout step only: the lexer stood at the start
    of a line whose indentation was not yet resolved, and the call left the
    character index at 0, popped one level, and left the line resolved. *)
Lemma NextToken_dedent_origin (fuel : nat) :
  forall (l l' : lexer.Lexer) (tok : token.Token),
    lexer.NextToken LookupIdent fuel l = Some (tok, l') ->
    token.Type_ tok = token.DEDENT ->
    lexer.finished l = false /\ lexer.charIndex l = 0%nat
    /\ lexer.indentResolved l = false
    /\ l' = lexer.with_indentStack (lexer.with_indentResolved l true)
              (removelast (lexer.indentStack l)).
Proof.
  induction fuel as [| fuel IH]; intros l l' tok Hnext Hdedent; [discriminate |].
  cbn [lexer.NextToken] in Hnext.
  destruct (lexer.finished l) eqn:Hfin.
  { injection Hnext as <- <-. discriminate. }
  destruct (Nat.eqb (lexer.charIndex l) 0 && negb (lexer.indentResolved l)) eqn:Hlayout.
  { apply andb_true_iff in Hlayout as [Hzero Hres].
    apply Nat.eqb_eq in Hzero. apply negb_true_iff in Hres.
    unfold lexer.handleIndentChange in Hnext. cbn [lexer.indentStack lexer.with_indentResolved] in Hnext.
    destruct (last (lexer.indentStack l)); [| discriminate].
    destruct (Nat.eqb _ _); [injection Hnext as <- <-; discriminate |].
    destruct (Nat.ltb _ _); [injection Hnext as <- <-; discriminate |].
    injection Hnext as <- <-. auto. }
  destruct (lexer.charAt l (lexer.charIndex l)) as [ch |] eqn:Hch.
  2: { injection Hnext as <- <-. discriminate. }
  destruct (lexer.isHorizontalWhitespace ch).
  { destruct (IH _ _ _ Hnext Hdedent) as (_ & Hzero & _). discriminate. }
  destruct (Ascii.eqb ch "f").
  { destruct (_ || _).
    - exfalso. exact (readFString_not_DEDENT _ _ _ _ Hnext Hdedent).
    - injection Hnext as <- <-. exfalso. exact (LookupIdent_not_DEDENT _ Hdedent). }
  destruct (Ascii.eqb ch "_").
  { destruct (lexer.peekCharIsLetterOrDigitOrUnderscore l).
    - injection Hnext as <- <-. exfalso. exact (LookupIdent_not_DEDENT _ Hdedent).
    - injection Hnext as <- <-. discriminate. }
  destruct (Ascii.eqb ch "/").
  { destruct (Ascii.eqb (lexer.peekChar l) "=").
    { injection Hnext as <- <-. discriminate. }
    destruct (Ascii.eqb (lexer.peekChar l) "/").
    { destruct (IH _ _ _ Hnext Hdedent) as (_ & Hzero & _).
      exfalso. exact (get_Some_length _ _ _ Hch Hzero). }
    destruct (Ascii.eqb (lexer.peekChar l) "*").
    { destruct (lexer.skipBlockComment fuel l) as [l2 |] eqn:Hskip; [| discriminate].
      destruct (IH _ _ _ Hnext Hdedent) as (Hfin2 & Hzero & _).
      apply skipBlockComment_loop_lands in Hskip as [Hf | Hc]; [congruence | lia]. }
    injection Hnext as <- <-. discriminate. }
  destruct (_ || _).
  { exfalso. exact (readString_not_DEDENT _ _ _ _ Hnext Hdedent). }
  exfalso. exact (operatorToken_not_DEDENT _ _ _ _ Hnext Hdedent).
Qed.

(** No line gets two DEDENT tokens in a row: the call of [NextToken] that
    follows a call answering DEDENT never answers DEDENT, however far the
    indentation dropped. *)
Theorem dedent_is_not_repeated :
  forall (fuel fuel' : nat) (l l' l'' : lexer.Lexer) (tok tok' : token.Token),
    lexer.NextToken LookupIdent fuel l = Some (tok, l') ->
    token.Type_ tok = token.DEDENT ->
    lexer.NextToken LookupIdent fuel' l' = Some (tok', l'') ->
    token.Type_ tok' <> token.DEDENT.
Proof.
  intros fuel fuel' l l' l'' tok tok' Hfirst Hdedent Hsecond Hagain.
  destruct (NextToken_dedent_origin _ _ _ _ Hfirst Hdedent) as (_ & _ & _ & ->).
  destruct (NextToken_dedent_origin _ _ _ _ Hsecond Hagain) as (_ & _ & Hres & _).
  discriminate.
Qed.

End Dedent.

Lemma lookup_if_names_words : names_words lookup_if.
Proof.
  intros literal. unfold lookup_if.
  destruct (String.eqb literal "if"); [right; eexists; reflexivity | left; reflexivity].
Qed.

(** The witness of [dedent_is_not_repeated]: at the line [d] the first call
    answers DEDENT and the second the content token. *)
Lemma dedent_is_not_repeated_witness : token.Type_ token_d <> token.DEDENT.
Proof.
  eapply (dedent_is_not_repeated lookup_if lookup_if_names_words 5 5 at_line_d _ _ _ token_d).
  - vm_compute. reflexivity.
  - reflexivity.
  - vm_compute. reflexivity.
Defined.

(** ** Witnesses of the lemmas above *)

Lemma handleIndentChange_dedent_witness :
  lexer.handleIndentChange at_line_d 0
  = Some (token.mkToken token.DEDENT "" (lexer.position at_line_d),
          lexer.with_indentStack at_line_d [0; 2]%nat)
  /\ lexer.charIndex (lexer.with_indentStack at_line_d [0; 2]%nat) = 0%nat.
Proof.
  exact (handleIndentChange_dedent at_line_d 0 4 eq_refl ltac:(lia)).
Defined.

Lemma block_and_program_stop_at_error_witness :
  evaluator.evalBlockStatement (evaluator.Eval host_stub 5) ([] ++ raise_boom :: [bind_y])
    global fresh_store
  = evaluator.Done raised_boom fresh_store.
Proof.
  apply (proj1 (block_and_program_stop_at_error (evaluator.Eval host_stub 5) global []
                  raise_boom [bind_y] raised_boom fresh_store fresh_store eq_refl)).
  vm_compute. reflexivity.
Defined.

Lemma if_condition_error_runs_consequence_witness :
  evaluator.evalIfExpression (evaluator.Eval host_stub 5) (ast.Identifier "missing")
    [bind_y] [] None global fresh_store
  = evaluator.Eval host_stub 5 (ast.BlockStatement [bind_y]) global fresh_store.
Proof.
  apply (if_condition_error_runs_consequence (evaluator.Eval host_stub 5)
           (ast.Identifier "missing") [bind_y] [] None global fresh_store fresh_store
           (runtime_error fresh_store "identifier not found: missing")).
  - vm_compute. reflexivity.
  - reflexivity.
Defined.

(** ** The older copy of the index read *)

(** The older [evalArrayIndexExpression] answers None for every negative
    index; the current one, which C6 is about, counts it from the end. *)
Lemma older_index_read_rejects_negative
    (st : object.Store) (a : object.loc) (els : list object.Object) (i : Z) :
  object.slices st !! a = Some els ->
  i < 0 ->
  evaluator.evalArrayIndexExpression_older (object.Array a) (object.Integer i) st
  = evaluator.Done evaluator.NONE st.
Proof.
  intros Hels Hneg.
  unfold evaluator.evalArrayIndexExpression_older, evaluator.bind, evaluator.elements_at,
    evaluator.must.
  rewrite Hels. cbn [evaluator.ret].
  replace (i <? 0) with true by (symmetry; apply Z.ltb_lt; exact Hneg).
  reflexivity.
Qed.

Lemma older_index_read_rejects_negative_witness :
  evaluator.evalArrayIndexExpression_older (object.Array 7%nat) (object.Integer (-1))
    four_store
  = evaluator.Done evaluator.NONE four_store.
Proof.
  exact (older_index_read_rejects_negative four_store 7%nat
           [object.Integer 1; object.Integer 2; object.Integer 3; object.Integer 4]
           (-1) eq_refl ltac:(lia)).
Defined.

(** ** Environments: [Get], [Set], [NewEnclosedEnvironment] *)

(** On a well-formed heap the walk of [Get] from [e] needs no more than
    [S e] steps: any larger bound gives the same answer. *)
Lemma Get_from_enough (es : gmap object.loc object.Environment) (next : object.loc)
    (name : string) :
  map_Forall (env_ok next) es ->
  forall n m e, (e < n)%nat -> (e < m)%nat ->
    object.Get_from n es e name = object.Get_from m es e name.
Proof.
  intros Hok n. induction n as [|n IH]; intros m e Hn Hm; [lia|].
  destruct m as [|m]; [lia|]. cbn [object.Get_from].
  case_match eqn:HE; [|reflexivity].
  case_match; [reflexivity|].
  case_match eqn:Ho; [|reflexivity].
  apply Hok in HE. destruct HE as [_ HE]. rewrite Ho in HE.
  apply IH; lia.
Qed.

(** A binding written for [name] does not change what any environment
    answers for another name. *)
Lemma Get_from_insert_other (es : gmap object.loc object.Environment) (e : object.loc)
    (E : object.Environment) (name name' : string) (v : object.Object) :
  es !! e = Some E -> name' <> name ->
  forall n e',
    object.Get_from n (<[e := object.mkEnvironment (<[name := v]> (object.store E)) (object.outer E)]> es)
      e' name'
    = object.Get_from n es e' name'.
Proof.
  intros HE Hne n. induction n as [|n IH]; intros e'; [reflexivity|]. cbn [object.Get_from].
  destruct (decide (e = e')) as [<-|Hee].
  - rewrite lookup_insert_eq, HE. simpl. rewrite lookup_insert_ne by congruence.
    case_match; [reflexivity|].
    case_match; [apply IH|reflexivity].
  - rewrite lookup_insert_ne by exact Hee.
    case_match; [|reflexivity].
    case_match; [reflexivity|].
    case_match; [apply IH|reflexivity].
Qed.

(** A change to the environment at [e] is invisible from every environment
    allocated before it: their chains only lead downwards. *)
Lemma Get_from_insert_above (es : gmap object.loc object.Environment) (next : object.loc)
    (e : object.loc) (E' : object.Environment) (name : string) :
  map_Forall (env_ok next) es ->
  forall n e', (e' < e)%nat ->
    object.Get_from n (<[e := E']> es) e' name = object.Get_from n es e' name.
Proof.
  intros Hok n. induction n as [|n IH]; intros e' Hlt; [reflexivity|]. cbn [object.Get_from].
  rewrite lookup_insert_ne by lia.
  case_match eqn:HE0; [|reflexivity].
  case_match; [reflexivity|].
  case_match eqn:Ho; [|reflexivity].
  apply Hok in HE0. destruct HE0 as [_ HE0]. rewrite Ho in HE0.
  apply IH. lia.
Qed.

(** [Set] and [NewEnclosedEnvironment] keep the heap well-formed. *)
Lemma envs_ok_Set (st : object.Store) (e : object.loc) (name : string) (v : object.Object) :
  envs_ok st -> envs_ok (object.Set_ st e name v).
Proof.
  unfold envs_ok, object.Set_. intros Hok.
  destruct (object.envs st !! e) as [E|] eqn:HE; [|exact Hok]. simpl.
  apply map_Forall_insert_2; [|exact Hok].
  apply Hok in HE. exact HE.
Qed.

Lemma envs_ok_NewEnclosedEnvironment (st : object.Store) (o : option object.loc) :
  envs_ok st ->
  match o with Some e => (e < object.next st)%nat | None => True end ->
  envs_ok (object.NewEnclosedEnvironment st o).2.
Proof.
  unfold envs_ok, object.NewEnclosedEnvironment. simpl. intros Hok Ho.
  apply map_Forall_insert_2.
  - split; [lia|]. simpl. exact Ho.
  - intros e E HE. apply Hok in HE. destruct HE as [Hlt HE]. split; [lia|exact HE].
Qed.

Lemma Get_Set_same (st : object.Store) (e : object.loc) (name : string)
    (val : object.Object) :
  is_Some (object.envs st !! e) ->
  object.Get (object.Set_ st e name val) e name = Some val.
Proof.
  intros [E HE]. unfold object.Get, object.Set_. rewrite HE.
  unfold object.set_envs. cbn [object.envs object.Get_from].
  rewrite lookup_insert_eq. cbn [object.store]. rewrite lookup_insert_eq. reflexivity.
Qed.

Lemma fresh_store_ok : envs_ok fresh_store.
Proof. apply map_Forall_singleton. split; [cbn; lia | exact I]. Qed.

(** Insert and lookup on one environment: after [Set(name, val)] on an
    existing environment, [Get(name)] on it answers [val], and the answer of
    every environment for every other name is what it was. *)
Theorem environment_set_then_get (st : object.Store) (e : object.loc)
    (E : object.Environment) (name : string) (val : object.Object) :
  object.envs st !! e = Some E ->
  object.Get (object.Set_ st e name val) e name = Some val
  /\ forall e' name', name' <> name ->
       object.Get (object.Set_ st e name val) e' name' = object.Get st e' name'.
Proof.
  intros HE. split.
  - apply Get_Set_same. eexists; exact HE.
  - intros e' name' Hne. unfold object.Get, object.Set_. rewrite HE.
    unfold object.set_envs. cbn [object.envs].
    apply Get_from_insert_other; assumption.
Qed.

Lemma environment_set_then_get_witness :
  object.Get (object.Set_ fresh_store global "x" (object.Integer 1)) global "x"
  = Some (object.Integer 1).
Proof.
  exact (proj1 (environment_set_then_get fresh_store global
                  (object.mkEnvironment ∅ None) "x" (object.Integer 1) eq_refl)).
Defined.

(** Scoping.  In a well-formed heap, let [inner] be a new environment
    enclosing [e].  Then [inner] answers every name as [e] does; and after
    [Set(name, val)] on [inner], [inner] answers [val] for [name] while [e]
    still answers every name as before: a write never reaches an enclosing
    environment. *)
Theorem enclosed_environment_scoping (st : object.Store) (e : object.loc)
    (E : object.Environment) :
  envs_ok st ->
  object.envs st !! e = Some E ->
  let inner := (object.NewEnclosedEnvironment st (Some e)).1 in
  let st1 := (object.NewEnclosedEnvironment st (Some e)).2 in
  (forall name, object.Get st1 inner name = object.Get st e name)
  /\ (forall name val,
        object.Get (object.Set_ st1 inner name val) inner name = Some val
        /\ forall name', object.Get (object.Set_ st1 inner name val) e name'
                         = object.Get st e name').
Proof.
  intros Hok HE inner st1.
  assert (Hlt : (e < inner)%nat) by (apply Hok in HE; apply HE).
  assert (Hinner : object.envs st1 !! inner = Some (object.mkEnvironment ∅ (Some e))).
  { subst inner st1. unfold object.NewEnclosedEnvironment. simpl.
    apply lookup_insert_eq. }
  assert (Hsame : forall n name, object.Get_from n (object.envs st1) e name
                                 = object.Get_from n (object.envs st) e name).
  { intros n name. subst st1. unfold object.NewEnclosedEnvironment. simpl.
    eapply Get_from_insert_above; [exact Hok|exact Hlt]. }
  assert (Hok1 : envs_ok st1).
  { subst st1. apply envs_ok_NewEnclosedEnvironment; [assumption|exact Hlt]. }
  clearbody inner st1.
  split.
  - intros name. unfold object.Get at 1. cbn [object.Get_from].
    rewrite Hinner. cbn [object.store object.outer]. rewrite lookup_empty.
    rewrite Hsame. unfold object.Get.
    eapply Get_from_enough; [exact Hok|exact Hlt|lia].
  - intros name val. split.
    + apply Get_Set_same. eexists; exact Hinner.
    + intros name'. unfold object.Get, object.Set_. rewrite Hinner.
      unfold object.set_envs. cbn [object.envs].
      erewrite Get_from_insert_above; [|exact Hok1|exact Hlt].
      apply Hsame.
Qed.

Lemma enclosed_environment_scoping_witness :
  object.Get (object.NewEnclosedEnvironment counter_store (Some global)).2
    (object.NewEnclosedEnvironment counter_store (Some global)).1 "n"
  = object.Get counter_store global "n"
  /\ object.Get
       (object.Set_ (object.NewEnclosedEnvironment counter_store (Some global)).2
          (object.NewEnclosedEnvironment counter_store (Some global)).1 "n" (object.Integer 5))
       global "n"
     = object.Get counter_store global "n".
Proof.
  destruct (enclosed_environment_scoping counter_store global
              (object.mkEnvironment {[ "n" := object.Integer 0 ]} None)
              ltac:(apply envs_ok_Set, fresh_store_ok) ltac:(vm_compute; reflexivity))
    as [Hread Hwrite].
  split; [apply Hread | apply (proj2 (Hwrite "n" (object.Integer 5)))].
Defined.

(** An assignment to a name binds it in the current environment only.
    Once the value has been evaluated, [name = Value] answers the value and
    leaves a store in which the current environment answers it for [name],
    while every environment allocated earlier, the enclosing ones among
    them, answers every name as before the binding. *)
Theorem assignment_binds_in_the_current_environment :
  forall (host : evaluator.Host) (fuel : nat) (name : string) (Value : ast.Node)
         (env outerEnv : object.loc) (st st1 : object.Store) (val : object.Object),
    evaluator.Eval host fuel Value env st = evaluator.Done val st1 ->
    evaluator.isError val = false ->
    envs_ok st1 ->
    is_Some (object.envs st1 !! env) ->
    (outerEnv < env)%nat ->
    evaluator.Eval host (S fuel) (ast.AssignStatement (ast.Identifier name) Value) env st
    = evaluator.Done val (object.Set_ st1 env name val)
    /\ object.Get (object.Set_ st1 env name val) env name = Some val
    /\ forall name', object.Get (object.Set_ st1 env name val) outerEnv name'
                     = object.Get st1 outerEnv name'.
Proof.
  intros host fuel name Value env outerEnv st st1 val Hval Herr Hok Henv Hlt.
  split; [| split].
  - cbn [evaluator.Eval evaluator.Eval_node]. unfold evaluator.evalAssignStatement.
    unfold evaluator.bind at 1. rewrite Hval. cbv beta iota. rewrite Herr. reflexivity.
  - apply Get_Set_same. exact Henv.
  - intros name'. destruct Henv as [E HE].
    unfold object.Get, object.Set_. rewrite HE. unfold object.set_envs. cbn [object.envs].
    eapply Get_from_insert_above; [exact Hok | exact Hlt].
Qed.

Lemma assignment_binds_in_the_current_environment_witness :
  evaluator.Eval host_stub 2 (ast.AssignStatement (ast.Identifier "n") (ast.IntegerLiteral 5))
    1%nat (object.NewEnclosedEnvironment counter_store (Some global)).2
  = evaluator.Done (object.Integer 5)
      (object.Set_ (object.NewEnclosedEnvironment counter_store (Some global)).2 1%nat "n"
         (object.Integer 5))
  /\ object.Get
       (object.Set_ (object.NewEnclosedEnvironment counter_store (Some global)).2 1%nat "n"
          (object.Integer 5)) global "n"
     = Some (object.Integer 0).
Proof.
  destruct (assignment_binds_in_the_current_environment host_stub 1 "n" (ast.IntegerLiteral 5)
              1%nat global (object.NewEnclosedEnvironment counter_store (Some global)).2
              (object.NewEnclosedEnvironment counter_store (Some global)).2 (object.Integer 5)
              eq_refl eq_refl
              ltac:(apply envs_ok_NewEnclosedEnvironment;
                    [apply envs_ok_Set, fresh_store_ok | vm_compute; lia])
              ltac:(eexists; vm_compute; reflexivity) ltac:(vm_compute; lia))
    as [Heval [_ Houter]].
  split; [exact Heval | rewrite Houter; vm_compute; reflexivity].
Defined.

(** ** Operators *)

(** Compound assignment against the plain operator on two Integers.  [+=],
    [-=] and [*=] compute what [+], [-] and [*] compute.  [/=] tests the
    divisor: zero gives the RuntimeError "division by zero" and any other
    divisor the quotient of [/]; the plain [/] and [%] have no such test and
    a zero divisor panics in Go's integer division. *)
Theorem compound_assignment_against_infix :
  forall (host : evaluator.Host) (fuel : nat) (l r : Z) (st : object.Store),
    evaluator.applyCompoundOperator "+=" (object.Integer l) (object.Integer r) st
    = evaluator.evalInfixExpression host (S fuel) "+" (object.Integer l) (object.Integer r) st
    /\ evaluator.applyCompoundOperator "-=" (object.Integer l) (object.Integer r) st
       = evaluator.evalInfixExpression host (S fuel) "-" (object.Integer l) (object.Integer r) st
    /\ evaluator.applyCompoundOperator "*=" (object.Integer l) (object.Integer r) st
       = evaluator.evalInfixExpression host (S fuel) "*" (object.Integer l) (object.Integer r) st
    /\ evaluator.applyCompoundOperator "/=" (object.Integer l) (object.Integer r) st
       = (if r =? 0 then evaluator.Done (runtime_error st "division by zero") st
          else evaluator.evalInfixExpression host (S fuel) "/"
                 (object.Integer l) (object.Integer r) st)
    /\ evaluator.evalInfixExpression host (S fuel) "/" (object.Integer l) (object.Integer 0) st
       = evaluator.Panic
    /\ evaluator.evalInfixExpression host (S fuel) "%" (object.Integer l) (object.Integer 0) st
       = evaluator.Panic.
Proof.
  intros host fuel l r st. repeat split; try reflexivity.
  cbn. unfold int64.quo. destruct (r =? 0); reflexivity.
Qed.

(** Comparison with None.  The evaluator tests identity with the object
    package's [NONE]: two of them are equal under [==] and every other
    operator answers False; against any other value, the evaluator's own
    None included, [==] is False and [!=] is True; and two of the
    evaluator's own None, which is what a missing element reads as, are an
    error to compare. *)
Theorem none_is_compared_by_identity :
  forall (host : evaluator.Host) (fuel : nat) (operator : string) (x : object.Object)
         (st : object.Store),
    x <> object.Nil -> x <> object.NONE ->
    evaluator.evalInfixExpression host (S fuel) operator object.NONE object.NONE st
    = evaluator.Done (object.Boolean (String.eqb operator "==")) st
    /\ evaluator.evalInfixExpression host (S fuel) "==" x object.NONE st
       = evaluator.Done (object.Boolean false) st
    /\ evaluator.evalInfixExpression host (S fuel) "==" object.NONE x st
       = evaluator.Done (object.Boolean false) st
    /\ evaluator.evalInfixExpression host (S fuel) "!=" x object.NONE st
       = evaluator.Done (object.Boolean true) st
    /\ evaluator.evalInfixExpression host (S fuel) "==" evaluator.NONE evaluator.NONE st
       = evaluator.Done
           (runtime_error st
              ("unknown operator or type mismatch: "
               +:+ object.ObjectType_string object.NONE_OBJ +:+ " " +:+ "==" +:+ " "
               +:+ object.ObjectType_string object.NONE_OBJ)) st.
Proof.
  intros host fuel operator x st Hnil Hnone. unfold object.NONE in Hnone. repeat split.
  - cbn. destruct (String.eqb operator "=="); reflexivity.
  - destruct x as [| | | | |[]| | | | | | | | | | | | | | |]; try reflexivity; congruence.
  - destruct x as [| | | | |[]| | | | | | | | | | | | | | |]; try reflexivity; congruence.
  - destruct x as [| | | | |[]| | | | | | | | | | | | | | |]; try reflexivity; congruence.
Qed.

Lemma none_is_compared_by_identity_witness :
  evaluator.evalInfixExpression host_stub 1 "==" evaluator.NONE object.NONE fresh_store
  = evaluator.Done (object.Boolean false) fresh_store.
Proof.
  exact (proj1 (proj2 (none_is_compared_by_identity host_stub 0 "==" evaluator.NONE fresh_store
                         ltac:(discriminate) ltac:(discriminate)))).
Defined.

(** Two Strings: [+] concatenates and every other operator, [==] and [!=]
    included, is the RuntimeError "unknown operator". *)
Theorem string_infix_is_concatenation_only :
  forall (host : evaluator.Host) (fuel : nat) (operator : string) (a b : string)
         (st : object.Store),
    operator <> "+"%string ->
    evaluator.evalInfixExpression host (S fuel) "+" (object.String a) (object.String b) st
    = evaluator.Done (object.String (a +:+ b)) st
    /\ evaluator.evalInfixExpression host (S fuel) operator (object.String a) (object.String b) st
       = evaluator.Done
           (runtime_error st
              ("unknown operator: " +:+ object.ObjectType_string object.STRING_OBJ +:+ " "
               +:+ operator +:+ " " +:+ object.ObjectType_string object.STRING_OBJ)) st.
Proof.
  intros host fuel operator a b st Hop. split; [reflexivity|].
  cbn. unfold evaluator.evalStringInfixExpression.
  apply String.eqb_neq in Hop. rewrite Hop. reflexivity.
Qed.

Lemma string_infix_is_concatenation_only_witness :
  evaluator.evalInfixExpression host_stub 1 "==" (object.String "a") (object.String "a")
    fresh_store
  = evaluator.Done
      (runtime_error fresh_store
         ("unknown operator: " +:+ object.ObjectType_string object.STRING_OBJ +:+ " "
          +:+ "==" +:+ " " +:+ object.ObjectType_string object.STRING_OBJ)) fresh_store.
Proof.
  exact (proj2 (string_infix_is_concatenation_only host_stub 0 "==" "a" "a" fresh_store
                  ltac:(discriminate))).
Defined.

(** Two Floats: [+ - * /] and [**] answer the Float result, and every
    other operator, so every comparison, is the RuntimeError "unknown
    operator" that names the operand types and the operator. *)
Theorem float_infix_is_arithmetic_only :
  forall (host : evaluator.Host) (fuel : nat) (operator : string) (a b : float)
         (st : object.Store),
    ~ In operator ["+"; "-"; "*"; "/"; "**"]%string ->
    evaluator.evalInfixExpression host (S fuel) operator (object.Float a) (object.Float b) st
    = evaluator.Done
        (runtime_error st
           ("unknown operator: " +:+ object.ObjectType_string object.FLOAT_OBJ +:+ " "
            +:+ operator +:+ " " +:+ object.ObjectType_string object.FLOAT_OBJ)) st
    /\ evaluator.evalInfixExpression host (S fuel) "+" (object.Float a) (object.Float b) st
       = evaluator.Done (object.Float (a + b)%float) st
    /\ evaluator.evalInfixExpression host (S fuel) "-" (object.Float a) (object.Float b) st
       = evaluator.Done (object.Float (a - b)%float) st
    /\ evaluator.evalInfixExpression host (S fuel) "*" (object.Float a) (object.Float b) st
       = evaluator.Done (object.Float (a * b)%float) st
    /\ evaluator.evalInfixExpression host (S fuel) "/" (object.Float a) (object.Float b) st
       = evaluator.Done (object.Float (a / b)%float) st
    /\ evaluator.evalInfixExpression host (S fuel) "**" (object.Float a) (object.Float b) st
       = evaluator.Done (object.Float (evaluator.math_Pow host a b)) st.
Proof.
  intros host fuel operator a b st Hop.
  split; [| repeat split; reflexivity].
  cbn. unfold evaluator.evalFloatInfix.
  repeat match goal with
         | |- context [String.eqb operator ?s] =>
             destruct (String.eqb_spec operator s) as [-> | _];
             [exfalso; apply Hop; cbn; tauto |]
         end.
  reflexivity.
Qed.

Lemma float_infix_is_arithmetic_only_witness :
  evaluator.evalInfixExpression host_stub 1 "<" (object.Float 1) (object.Float 2) fresh_store
  = evaluator.Done
      (runtime_error fresh_store
         ("unknown operator: " +:+ object.ObjectType_string object.FLOAT_OBJ +:+ " "
          +:+ "<" +:+ " " +:+ object.ObjectType_string object.FLOAT_OBJ)) fresh_store.
Proof.
  apply (float_infix_is_arithmetic_only host_stub 0 "<" 1%float 2%float fresh_store).
  cbn. intros H. repeat (destruct H as [H | H]; [discriminate H |]). exact H.
Defined.

(** [and] and [or] evaluate the left operand first and answer it, unchanged
    and without evaluating the right operand, when it decides the result: a
    falsy left operand of [and], a truthy one of [or].  Otherwise the result
    is the right operand's, evaluated in the store the left one left. *)
Theorem and_or_short_circuit :
  forall (host : evaluator.Host) (fuel : nat) (Left Right : ast.Node) (env : object.loc)
         (st st1 : object.Store) (l : object.Object) (t : bool),
    evaluator.Eval host fuel Left env st = evaluator.Done l st1 ->
    evaluator.isError l = false ->
    evaluator.isTruthy l st1 = evaluator.Done t st1 ->
    evaluator.Eval host (S fuel) (ast.InfixExpression Left "and" Right) env st
    = (if t then evaluator.Eval host fuel Right env st1 else evaluator.Done l st1)
    /\ evaluator.Eval host (S fuel) (ast.InfixExpression Left "or" Right) env st
       = (if t then evaluator.Done l st1 else evaluator.Eval host fuel Right env st1).
Proof.
  intros host fuel Left Right env st st1 l t Hleft Herr Ht.
  cbn [evaluator.Eval evaluator.Eval_node]. unfold evaluator.evalInfixNode.
  cbn [String.eqb Ascii.eqb Bool.eqb orb andb].
  split; unfold evaluator.bind at 1; rewrite Hleft; cbv beta iota; rewrite Herr;
    unfold evaluator.bind at 1; rewrite Ht; cbv beta iota; destruct t; reflexivity.
Qed.

Lemma and_or_short_circuit_witness :
  evaluator.Eval host_stub 3
    (ast.InfixExpression (ast.Boolean false) "and" (ast.PostfixExpression (ast.Identifier "n") "++"))
    global counter_store
  = evaluator.Done (object.Boolean false) counter_store.
Proof.
  exact (proj1 (and_or_short_circuit host_stub 2 (ast.Boolean false)
                  (ast.PostfixExpression (ast.Identifier "n") "++") global
                  counter_store counter_store (object.Boolean false) false
                  eq_refl eq_refl eq_refl)).
Defined.

(** A prefix operator evaluates its operand twice: [Eval] evaluates it to
    test for an error and [evalPrefixExpression] evaluates it again for the
    value, in the store the first evaluation left.  For [-] the result is
    the negation of the second value, and the store carries the effects of
    both evaluations. *)
Theorem prefix_operand_is_evaluated_twice :
  forall (host : evaluator.Host) (fuel : nat) (Right : ast.Node) (env : object.loc)
         (st st1 st2 : object.Store) (r1 r2 : object.Object),
    evaluator.Eval host fuel Right env st = evaluator.Done r1 st1 ->
    evaluator.isError r1 = false ->
    evaluator.Eval host fuel Right env st1 = evaluator.Done r2 st2 ->
    evaluator.Eval host (S fuel) (ast.PrefixExpression "-" Right) env st
    = evaluator.evalMinusPrefixOperatorExpression r2 st2
    /\ evaluator.Eval host (S fuel) (ast.PrefixExpression "!" Right) env st
       = evaluator.Done (evaluator.evalBangOperatorExpression r2) st2.
Proof.
  intros host fuel Right env st st1 st2 r1 r2 H1 Herr H2.
  cbn [evaluator.Eval evaluator.Eval_node].
  cbn [String.eqb Ascii.eqb Bool.eqb orb andb].
  split; unfold evaluator.bind at 1; rewrite H1; cbv beta iota; rewrite Herr;
    unfold evaluator.evalPrefixExpression;
    cbn [String.eqb Ascii.eqb Bool.eqb orb andb];
    unfold evaluator.bind at 1; rewrite H2; reflexivity.
Qed.

Lemma prefix_operand_is_evaluated_twice_witness :
  evaluator.Eval host_stub 3
    (ast.PrefixExpression "-" (ast.PostfixExpression (ast.Identifier "n") "++"))
    global counter_store
  = evaluator.Done (object.Integer (-1))
      (object.Set_ (object.Set_ counter_store global "n" (object.Integer 1)) global "n"
         (object.Integer 2)).
Proof.
  exact (proj1 (prefix_operand_is_evaluated_twice host_stub 2
                  (ast.PostfixExpression (ast.Identifier "n") "++") global
                  counter_store
                  (object.Set_ counter_store global "n" (object.Integer 1))
                  (object.Set_ (object.Set_ counter_store global "n" (object.Integer 1))
                     global "n" (object.Integer 2))
                  (object.Integer 0) (object.Integer 1)
                  ltac:(vm_compute; reflexivity) eq_refl ltac:(vm_compute; reflexivity))).
Defined.

(** The same through [Eval]: ["a" == "a"] and [1.5 < 2.5] are errors, and a
    missing element does not equal [None]. *)
Example comparisons_through_Eval :
  value_of (evaluator.Eval host_stub 3
              (ast.InfixExpression (ast.StringLiteral "a") "==" (ast.StringLiteral "a"))
              global fresh_store)
  = Some (runtime_error fresh_store "unknown operator: STRING == STRING")
  /\ value_of (evaluator.Eval host_stub 3
                 (ast.InfixExpression (ast.FloatLiteral 1.5) "<" (ast.FloatLiteral 2.5))
                 global fresh_store)
     = Some (runtime_error fresh_store "unknown operator: FLOAT < FLOAT")
  /\ value_of (evaluator.Eval host_stub 5
                 (ast.InfixExpression
                    (ast.IndexExpression (ast.ArrayLiteral [ast.IntegerLiteral 1])
                       (ast.IntegerLiteral 5))
                    "==" ast.NoneLiteral)
                 global fresh_store)
     = Some (object.Boolean false).
Proof. repeat split; vm_compute; reflexivity. Qed.

(** ** Calls *)

Lemma bindParameters_extra_arguments
    (ev : ast.Node -> object.loc -> evaluator.M object.Object)
    (fnEnv global env : object.loc) (extra : list object.Object) :
  forall (params : list ast.Param) (args : list object.Object),
    (length params <= length args)%nat ->
    evaluator.bindParameters ev params (args ++ extra) fnEnv global env
    = evaluator.bindParameters ev params args fnEnv global env.
Proof.
  induction params as [| [name default] params IH]; intros args Hlen; [reflexivity |].
  destruct args as [| arg args]; [cbn in Hlen; lia |].
  cbn [evaluator.bindParameters app]. rewrite IH by (cbn in Hlen; lia). reflexivity.
Qed.

(** [extendFunctionEnv] binds the parameters to the arguments by position
    and takes no notice of arguments beyond the last parameter: the frame
    built for [args ++ extra] is the frame built for [args]. *)
Theorem surplus_arguments_are_ignored :
  forall (ev : ast.Node -> object.loc -> evaluator.M object.Object)
         (fn : object.FunctionObj) (args extra : list object.Object)
         (global : object.loc) (functionName : string) (st : object.Store),
    (length (object.Parameters fn) <= length args)%nat ->
    evaluator.extendFunctionEnv ev fn (args ++ extra) global functionName st
    = evaluator.extendFunctionEnv ev fn args global functionName st.
Proof.
  intros ev fn args extra global functionName st Hlen.
  unfold evaluator.extendFunctionEnv, evaluator.bind, evaluator.new_env,
    evaluator.env_Set, object.NewEnclosedEnvironment.
  cbv beta iota zeta.
  rewrite bindParameters_extra_arguments by exact Hlen. reflexivity.
Qed.

Lemma surplus_arguments_are_ignored_witness :
  evaluator.extendFunctionEnv (evaluator.Eval host_stub 3) identity_function
    ([object.Integer 1] ++ [object.Integer 2]) global "function" fresh_store
  = evaluator.extendFunctionEnv (evaluator.Eval host_stub 3) identity_function
      [object.Integer 1] global "function" fresh_store.
Proof.
  apply (surplus_arguments_are_ignored (evaluator.Eval host_stub 3) identity_function
           [object.Integer 1] [object.Integer 2] global "function" fresh_store).
  cbn. lia.
Defined.

(** A call with a single Tuple argument is the call with the elements of the
    tuple as its arguments, whatever is called. *)
Theorem single_tuple_argument_is_spread :
  forall (host : evaluator.Host) (ev : ast.Node -> object.loc -> evaluator.M object.Object)
         (fn : object.Object) (tup : object.loc) (els : list object.Object)
         (env : object.loc) (st : object.Store),
    object.slices st !! tup = Some els ->
    single_tuple els = false ->
    evaluator.evalCallExpression host ev fn [object.Tuple tup] env st
    = evaluator.evalCallExpression host ev fn els env st.
Proof.
  intros host ev fn tup els env st Hels Hsingle.
  assert (H1 : evaluator.unpackArgs [object.Tuple tup] st = evaluator.Done els st).
  { cbn. unfold evaluator.elements_at. rewrite Hels. reflexivity. }
  assert (H2 : evaluator.unpackArgs els st = evaluator.Done els st).
  { destruct els as [| [] [|]]; try reflexivity. discriminate Hsingle. }
  unfold evaluator.evalCallExpression, evaluator.bind.
  rewrite H1, H2. reflexivity.
Qed.

Lemma single_tuple_argument_is_spread_witness :
  evaluator.evalCallExpression host_stub (evaluator.Eval host_stub 3)
    (object.Function identity_function) [object.Tuple 1%nat] global pair_store
  = evaluator.evalCallExpression host_stub (evaluator.Eval host_stub 3)
      (object.Function identity_function) [object.Integer 1; object.Integer 2] global pair_store.
Proof.
  exact (single_tuple_argument_is_spread host_stub (evaluator.Eval host_stub 3)
           (object.Function identity_function) 1%nat [object.Integer 1; object.Integer 2]
           global pair_store eq_refl eq_refl).
Defined.

(** ** [match] *)

Lemma evalMatchCases_incomparable
    (ev : ast.Node -> object.loc -> evaluator.M object.Object)
    (matchValue : object.Object) (env : object.loc) :
  comparable matchValue = false ->
  forall (Cases : list (ast.Node * list ast.Node)) (st st' : object.Store),
    conditions_pass ev Cases env st st' ->
    evaluator.evalMatchCases ev matchValue Cases env st = evaluator.Done None st'.
Proof.
  intros Hcmp. induction Cases as [| [Condition Body] rest IH]; intros st st' Hpass.
  - cbn in Hpass. subst st'. reflexivity.
  - cbn in Hpass. destruct Hpass as [v [st1 [Hev [Herr Hrest]]]].
    cbn [evaluator.evalMatchCases]. unfold evaluator.bind at 1. rewrite Hev.
    cbv beta iota. rewrite Herr.
    replace (evaluator.isEqual matchValue v) with false
      by (destruct matchValue; try discriminate Hcmp; reflexivity).
    apply IH. exact Hrest.
Qed.

(** [isEqual] compares Integers with Integers and Strings with Strings, so
    a [match] on a value of any other type, a Boolean, a Float or None for
    example, takes no case whatever the cases are: once the conditions have
    been evaluated the result is that of the default block, or None. *)
Theorem match_takes_no_case_on_other_types :
  forall (ev : ast.Node -> object.loc -> evaluator.M object.Object)
         (MatchValue : ast.Node) (Cases : list (ast.Node * list ast.Node))
         (Default : option (list ast.Node)) (env : object.loc)
         (st st1 st2 : object.Store) (matchValue : object.Object),
    ev MatchValue env st = evaluator.Done matchValue st1 ->
    evaluator.isError matchValue = false ->
    comparable matchValue = false ->
    conditions_pass ev Cases env st1 st2 ->
    evaluator.evalMatchStatement ev MatchValue Cases Default env st
    = match Default with
      | Some body => ev (ast.BlockStatement body) env st2
      | None => evaluator.Done evaluator.NONE st2
      end.
Proof.
  intros ev MatchValue Cases Default env st st1 st2 matchValue Hmv Herr Hcmp Hpass.
  unfold evaluator.evalMatchStatement. unfold evaluator.bind at 1. rewrite Hmv.
  cbv beta iota. rewrite Herr. unfold evaluator.bind at 1.
  rewrite (evalMatchCases_incomparable ev matchValue env Hcmp Cases st1 st2 Hpass).
  destruct Default; reflexivity.
Qed.

Lemma match_takes_no_case_on_other_types_witness :
  evaluator.Eval host_stub 5 match_true_program global fresh_store
  = evaluator.Done (object.Integer 0) fresh_store.
Proof.
  exact (match_takes_no_case_on_other_types (evaluator.Eval host_stub 4) (ast.Boolean true)
           [(ast.Boolean true, [ast.ExpressionStatement (ast.IntegerLiteral 1)])]
           (Some [ast.ExpressionStatement (ast.IntegerLiteral 0)]) global
           fresh_store fresh_store fresh_store (object.Boolean true)
           eq_refl eq_refl eq_refl
           (ex_intro _ (object.Boolean true)
              (ex_intro _ fresh_store (conj eq_refl (conj eq_refl eq_refl))))).
Defined.

(** ** Arguments that evaluate to an error *)

Lemma evalExpressions_loop_prefix
    (ev : ast.Node -> object.loc -> evaluator.M object.Object) (env : object.loc)
    (rest : list ast.Node) :
  forall (before : list ast.Node) (vals acc : list object.Object) (st st1 : object.Store),
    expressions_give ev before env st vals st1 ->
    evaluator.evalExpressions_loop ev (before ++ rest) env acc st
    = evaluator.evalExpressions_loop ev rest env (acc ++ vals) st1.
Proof.
  induction before as [| e before IH]; intros vals acc st st1 Hgive.
  - destruct vals; [| contradiction]. cbn in Hgive. subst st1.
    rewrite app_nil_r. reflexivity.
  - destruct vals as [| v vals]; [contradiction |].
    cbn [expressions_give] in Hgive. destruct Hgive as [st0 [Hev [Herr Hgive]]].
    cbn [app evaluator.evalExpressions_loop]. unfold evaluator.bind at 1.
    rewrite Hev. cbv beta iota. rewrite Herr.
    rewrite (IH vals (acc ++ [v]) st0 st1 Hgive).
    rewrite <- app_assoc. reflexivity.
Qed.

(** An argument that evaluates to an error does not stop the call.
    [evalExpressions] then answers the error alone (the values of the
    arguments before it are dropped, the arguments after it are not
    evaluated), and [Eval] hands that one-element list to
    [evalCallExpression] without a test: the callee is called with the error
    object as its only argument. *)
Theorem erroring_argument_is_passed_to_the_callee :
  forall (host : evaluator.Host) (fuel : nat) (Function : ast.Node)
         (before after : list ast.Node) (bad : ast.Node) (env : object.loc)
         (st st0 st1 st2 : object.Store) (fn e : object.Object)
         (vals : list object.Object),
    evaluator.Eval host fuel Function env st = evaluator.Done fn st0 ->
    expressions_give (evaluator.Eval host fuel) before env st0 vals st1 ->
    evaluator.Eval host fuel bad env st1 = evaluator.Done e st2 ->
    evaluator.isError e = true ->
    evaluator.evalExpressions (evaluator.Eval host fuel) (before ++ bad :: after) env st0
    = evaluator.Done [e] st2
    /\ evaluator.Eval host (S fuel) (ast.CallExpression Function (before ++ bad :: after)) env st
       = evaluator.evalCallExpression host (evaluator.Eval host fuel) fn [e] env st2.
Proof.
  intros host fuel Function before after bad env st st0 st1 st2 fn e vals
    Hfn Hgive Hbad Herr.
  assert (Hargs : evaluator.evalExpressions (evaluator.Eval host fuel)
                    (before ++ bad :: after) env st0 = evaluator.Done [e] st2).
  { unfold evaluator.evalExpressions.
    rewrite (evalExpressions_loop_prefix _ env (bad :: after) before vals [] st0 st1 Hgive).
    cbn [evaluator.evalExpressions_loop]. unfold evaluator.bind at 1.
    rewrite Hbad. cbv beta iota. rewrite Herr. reflexivity. }
  split; [exact Hargs |].
  cbn [evaluator.Eval evaluator.Eval_node].
  unfold evaluator.bind at 1. rewrite Hfn. cbv beta iota.
  unfold evaluator.bind at 1. rewrite Hargs. reflexivity.
Qed.

Lemma erroring_argument_is_passed_to_the_callee_witness :
  evaluator.Eval host_stub 5 call_seven_with_missing global seven_store
  = evaluator.evalCallExpression host_stub (evaluator.Eval host_stub 4)
      (object.Function
         (object.mkFunction [("a", None)] [ast.ReturnStatement (ast.IntegerLiteral 7)]
            global false false false))
      [runtime_error seven_store "identifier not found: missing"] global seven_store.
Proof.
  exact (proj2 (erroring_argument_is_passed_to_the_callee host_stub 4 (ast.Identifier "seven")
                  [ast.IntegerLiteral 1] [] (ast.Identifier "missing") global
                  seven_store seven_store seven_store seven_store _
                  (runtime_error seven_store "identifier not found: missing")
                  [object.Integer 1]
                  ltac:(vm_compute; reflexivity)
                  (ex_intro _ seven_store (conj eq_refl (conj eq_refl eq_refl)))
                  ltac:(vm_compute; reflexivity) eq_refl)).
Defined.

(** [seven(1, missing)] answers 7: the body of [seven] runs although its
    second argument is unbound. *)
Example call_with_a_missing_argument_answers :
  value_of (evaluator.Eval host_stub 6
              (ast.Program [define_seven; call_seven_with_missing]) global fresh_store)
  = Some (object.Integer 7).
Proof. vm_compute. reflexivity. Qed.

(** ** Arrays: reading, writing, concatenating, slicing *)

Lemma evalArrayIndexExpression_at (st : object.Store) (a : object.loc)
    (els : list object.Object) (i : Z) (x : object.Object) :
  object.slices st !! a = Some els ->
  Z.of_nat (length els) <= int64.max ->
  - Z.of_nat (length els) <= i < Z.of_nat (length els) ->
  els !! element_position (Z.of_nat (length els)) i = Some x ->
  evaluator.evalArrayIndexExpression (object.Array a) (object.Integer i) st
  = evaluator.Done x st.
Proof.
  intros Hels Hlen Hi Hx. unfold element_position in Hx.
  set (n := Z.of_nat (length els)) in *.
  assert (Hsub : int64.sub n 1 = n - 1).
  { apply int64_wrap_in_range. unfold int64.in_range, int64.min, int64.max in *. lia. }
  unfold evaluator.evalArrayIndexExpression, evaluator.bind, evaluator.elements_at,
    evaluator.must.
  rewrite Hels. cbn [evaluator.ret]. fold n. rewrite Hsub.
  destruct (Z.ltb_spec i 0) as [Hneg | Hpos].
  - assert (Hadd : int64.add n i = n + i).
    { apply int64_wrap_in_range. unfold int64.in_range, int64.min, int64.max in *. lia. }
    rewrite Hadd.
    replace (n + i <? 0) with false by (symmetry; apply Z.ltb_ge; lia).
    replace (n + i >? n - 1) with false by (symmetry; rewrite Z.gtb_ltb; apply Z.ltb_ge; lia).
    cbn. rewrite Hx. reflexivity.
  - replace (i <? 0) with false by (symmetry; apply Z.ltb_ge; lia).
    replace (i >? n - 1) with false by (symmetry; rewrite Z.gtb_ltb; apply Z.ltb_ge; lia).
    cbn. rewrite Hx. reflexivity.
Qed.

(** Writing an element and reading it back.  For an index within
    [-len, len), [xs[i] = Value] stores the value in place in the backing
    array of the Array that [xs] names, so that afterwards [ys[i]] reads
    that value through every name [ys] bound to the same Array; the length
    of the Array is unchanged. *)
Theorem element_assignment_then_read :
  forall (host : evaluator.Host) (fuel : nat) (xs ys : string) (Value : ast.Node)
         (env : object.loc) (st st1 : object.Store) (a : object.loc)
         (els : list object.Object) (i : Z) (val : object.Object),
    evaluator.builtins host xs = false ->
    evaluator.builtins host ys = false ->
    object.Get st env xs = Some (object.Array a) ->
    object.Get st1 env ys = Some (object.Array a) ->
    evaluator.Eval host (S fuel) Value env st = evaluator.Done val st1 ->
    evaluator.isError val = false ->
    object.slices st1 !! a = Some els ->
    Z.of_nat (length els) <= int64.max ->
    - Z.of_nat (length els) <= i < Z.of_nat (length els) ->
    let st2 := object.set_slices st1
                 (<[a := <[element_position (Z.of_nat (length els)) i := val]> els]>
                    (object.slices st1)) in
    evaluator.Eval host (S (S fuel))
      (ast.AssignStatement (ast.IndexExpression (ast.Identifier xs) (ast.IntegerLiteral i)) Value)
      env st
    = evaluator.Done val st2
    /\ evaluator.Eval host (S (S fuel))
         (ast.IndexExpression (ast.Identifier ys) (ast.IntegerLiteral i)) env st2
       = evaluator.Done val st2
    /\ length (<[element_position (Z.of_nat (length els)) i := val]> els) = length els.
Proof.
  intros host fuel xs ys Value env st st1 a els i val Hxs Hys Hgx Hgy Hval Herr Hels Hlen Hi st2.
  set (n := Z.of_nat (length els)) in *.
  assert (Hadd : i < 0 -> int64.add n i = n + i).
  { intros. apply int64_wrap_in_range.
    unfold int64.in_range, int64.min, int64.max in *. lia. }
  split; [| split].
  - cbn [evaluator.Eval evaluator.Eval_node]. unfold evaluator.evalAssignStatement.
    unfold evaluator.bind at 1.
    cbn [evaluator.Eval evaluator.Eval_node]. unfold evaluator.evalIdentifier.
    rewrite Hxs. unfold evaluator.bind at 1, evaluator.env_Get. rewrite Hgx.
    cbv beta iota. cbn [evaluator.ret evaluator.isError].
    unfold evaluator.bind at 1. cbn [evaluator.ret evaluator.isError].
    unfold evaluator.bind at 1.
    change (evaluator.Eval_node host (evaluator.Eval host fuel) fuel Value env st)
      with (evaluator.Eval host (S fuel) Value env st).
    rewrite Hval. cbv beta iota. rewrite Herr.
    cbn [evaluator.switch evaluator.and_then evaluator.type_is object.Type_].
    rewrite !bool_decide_eq_true_2 by reflexivity.
    unfold evaluator.assignElement, evaluator.bind, evaluator.elements_at, evaluator.must.
    rewrite Hels. cbn [evaluator.ret]. fold n.
    unfold st2, element_position.
    destruct (Z.ltb_spec i 0) as [Hneg | Hpos].
    + rewrite Hadd by exact Hneg.
      replace (n + i <? 0) with false by (symmetry; apply Z.ltb_ge; lia).
      replace (n + i >=? n) with false by (symmetry; rewrite Z.geb_leb; apply Z.leb_gt; lia).
      reflexivity.
    + replace (i <? 0) with false by (symmetry; apply Z.ltb_ge; lia).
      replace (i >=? n) with false by (symmetry; rewrite Z.geb_leb; apply Z.leb_gt; lia).
      reflexivity.
  - cbn [evaluator.Eval evaluator.Eval_node]. unfold evaluator.evalIndexNode.
    unfold evaluator.bind at 1.
    cbn [evaluator.Eval evaluator.Eval_node].
    unfold evaluator.evalIdentifier. rewrite Hys.
    unfold evaluator.bind at 1, evaluator.env_Get.
    replace (object.Get st2 env ys) with (object.Get st1 env ys) by reflexivity.
    rewrite Hgy. cbv beta iota. cbn [evaluator.ret evaluator.isError].
    unfold evaluator.bind at 1. cbn [evaluator.ret evaluator.isError].
    unfold evaluator.evalIndexExpression, evaluator.bind, evaluator.Type_of, evaluator.must.
    cbn [object.Type_ evaluator.ret].
    apply evalArrayIndexExpression_at
      with (els := <[element_position n i := val]> els).
    + unfold st2. cbn. apply lookup_insert_eq.
    + rewrite length_insert. exact Hlen.
    + rewrite length_insert. exact Hi.
    + rewrite length_insert. apply list_lookup_insert_eq.
      unfold element_position. fold n. destruct (i <? 0) eqn:Hneg; subst n; lia.
  - apply length_insert.
Qed.

Lemma element_assignment_then_read_witness :
  evaluator.Eval host_stub 3
    (ast.AssignStatement (ast.IndexExpression (ast.Identifier "xs") (ast.IntegerLiteral (-1)))
       (ast.IntegerLiteral 9))
    global xs_store
  = evaluator.Done (object.Integer 9)
      (object.set_slices xs_store
         (<[1%nat := [object.Integer 1; object.Integer 2; object.Integer 9]]>
            (object.slices xs_store))).
Proof.
  exact (proj1 (element_assignment_then_read host_stub 1 "xs" "xs" (ast.IntegerLiteral 9)
                  global xs_store xs_store 1%nat
                  [object.Integer 1; object.Integer 2; object.Integer 3] (-1) (object.Integer 9)
                  eq_refl eq_refl eq_refl eq_refl eq_refl eq_refl eq_refl
                  ltac:(vm_compute; discriminate)
                  ltac:(vm_compute; split; [discriminate | reflexivity]))).
Defined.

(** [+] on two Arrays allocates a new Array that holds the elements of the
    left operand followed by those of the right one; every other backing
    array and every environment is left as it was. *)
Theorem array_concatenation_is_a_new_array :
  forall (host : evaluator.Host) (fuel : nat) (a b : object.loc)
         (ls rs : list object.Object) (st : object.Store),
    object.slices st !! a = Some ls ->
    object.slices st !! b = Some rs ->
    exists st',
      evaluator.evalInfixExpression host (S fuel) "+" (object.Array a) (object.Array b) st
      = evaluator.Done (object.Array (object.next st)) st'
      /\ object.slices st' !! object.next st = Some (ls ++ rs)
      /\ (forall l, l <> object.next st -> object.slices st' !! l = object.slices st !! l)
      /\ object.envs st' = object.envs st.
Proof.
  intros host fuel a b ls rs st Ha Hb.
  exists (with_new_slice st (ls ++ rs)). split; [| split; [| split]].
  - change (evaluator.evalArrayInfixExpression "+" (object.Array a) (object.Array b) st
            = evaluator.Done (object.Array (object.next st)) (with_new_slice st (ls ++ rs))).
    unfold evaluator.evalArrayInfixExpression.
    cbn [String.eqb Ascii.eqb Bool.eqb negb].
    unfold evaluator.bind, evaluator.elements_at, evaluator.must.
    rewrite Ha. cbn [evaluator.ret]. rewrite Hb. reflexivity.
  - cbn. apply lookup_insert_eq.
  - intros l Hl. cbn. apply lookup_insert_ne. congruence.
  - reflexivity.
Qed.

Lemma array_concatenation_is_a_new_array_witness :
  exists st',
    evaluator.evalInfixExpression host_stub 1 "+" (object.Array 1%nat) (object.Array 1%nat)
      pair_store
    = evaluator.Done (object.Array 2%nat) st'
    /\ object.slices st' !! 2%nat
       = Some ([object.Integer 1; object.Integer 2] ++ [object.Integer 1; object.Integer 2])
    /\ (forall l, l <> 2%nat -> object.slices st' !! l = object.slices pair_store !! l)
    /\ object.envs st' = object.envs pair_store.
Proof.
  exact (array_concatenation_is_a_new_array host_stub 0 1%nat 1%nat
           [object.Integer 1; object.Integer 2] [object.Integer 1; object.Integer 2]
           pair_store eq_refl eq_refl).
Defined.

(** A slice and its source: for bounds [0 <= s <= e <= len], the element at
    index [k] of [xs[s:e]] is the element at index [s + k] of [xs], for
    every [k] from 0 up to [e - s], and [k = e - s] reads None. *)
Theorem slice_then_index :
  forall (st : object.Store) (a : object.loc) (els : list object.Object) (s e k : Z)
         (x : object.Object),
    object.slices st !! a = Some els ->
    Z.of_nat (length els) <= int64.max ->
    0 <= s -> s <= e -> e <= Z.of_nat (length els) ->
    0 <= k < e - s ->
    els !! Z.to_nat (s + k) = Some x ->
    exists st',
      evaluator.evalArraySliceExpression (object.Array a)
        (object.Range (object.Integer s) (object.Integer e)) st
      = evaluator.Done (object.Array (object.next st)) st'
      /\ evaluator.evalArrayIndexExpression (object.Array (object.next st)) (object.Integer k) st'
         = evaluator.Done x st'
      /\ evaluator.evalArrayIndexExpression (object.Array (object.next st))
           (object.Integer (e - s)) st'
         = evaluator.Done evaluator.NONE st'.
Proof.
  intros st a els s e k x Hels Hlen Hs Hse He Hk Hx.
  set (n := Z.of_nat (length els)) in *.
  set (sl := take (Z.to_nat (e - s)) (drop (Z.to_nat s) els)).
  assert (Hsl : length sl = Z.to_nat (e - s)).
  { unfold sl. rewrite length_take, length_drop. subst n. lia. }
  exists (with_new_slice st sl). split; [| split].
  - unfold evaluator.evalArraySliceExpression, evaluator.bind, evaluator.elements_at,
      evaluator.must.
    assert (H1 : (s <? 0) = false) by (apply Z.ltb_ge; lia).
    assert (H2 : (e <? 0) = false) by (apply Z.ltb_ge; lia).
    assert (H3 : (e >? n) = false) by (rewrite Z.gtb_ltb; apply Z.ltb_ge; lia).
    assert (H4 : (s >=? n) = false) by (rewrite Z.geb_leb; apply Z.leb_gt; lia).
    assert (H5 : (e <=? 0) = false) by (apply Z.leb_gt; lia).
    assert (H6 : (s >=? e) = false) by (rewrite Z.geb_leb; apply Z.leb_gt; lia).
    rewrite Hels. cbn [evaluator.ret evaluator.slice_bound]. fold n.
    repeat (first [rewrite H1 | rewrite H2 | rewrite H3 | rewrite H4 | rewrite H5 | rewrite H6];
            cbv beta iota zeta; cbn [orb]).
    reflexivity.
  - apply evalArrayIndexExpression_at with (els := sl).
    + cbn. apply lookup_insert_eq.
    + rewrite Hsl. subst n. lia.
    + rewrite Hsl. lia.
    + unfold element_position.
      replace (k <? 0) with false by (symmetry; apply Z.ltb_ge; lia).
      unfold sl. rewrite lookup_take_lt by lia.
      rewrite lookup_drop. rewrite <- Hx. f_equal. lia.
  - unfold evaluator.evalArrayIndexExpression, evaluator.bind, evaluator.elements_at,
      evaluator.must.
    replace (object.slices (with_new_slice st sl) !! object.next st) with (Some sl)
      by (symmetry; cbn; apply lookup_insert_eq).
    cbn [evaluator.ret]. rewrite Hsl.
    assert (Hsub : int64.sub (Z.of_nat (Z.to_nat (e - s))) 1 = e - s - 1).
    { unfold int64.sub. rewrite int64_wrap_in_range;
        unfold int64.in_range, int64.min, int64.max in *; subst n; lia. }
    rewrite Hsub.
    replace (e - s <? 0) with false by (symmetry; apply Z.ltb_ge; lia).
    replace (e - s >? e - s - 1) with true by (symmetry; rewrite Z.gtb_ltb; apply Z.ltb_lt; lia).
    rewrite orb_true_r. reflexivity.
Qed.

Lemma slice_then_index_witness :
  exists st',
    evaluator.evalArraySliceExpression (object.Array 7%nat)
      (object.Range (object.Integer 1) (object.Integer 3)) four_store
    = evaluator.Done (object.Array 8%nat) st'
    /\ evaluator.evalArrayIndexExpression (object.Array 8%nat) (object.Integer 1) st'
       = evaluator.Done (object.Integer 3) st'
    /\ evaluator.evalArrayIndexExpression (object.Array 8%nat) (object.Integer (3 - 1)) st'
       = evaluator.Done evaluator.NONE st'.
Proof.
  exact (slice_then_index four_store 7%nat
           [object.Integer 1; object.Integer 2; object.Integer 3; object.Integer 4]
           1 3 1 (object.Integer 3) eq_refl ltac:(vm_compute; discriminate)
           ltac:(lia) ltac:(lia) ltac:(cbn; lia) ltac:(lia) eq_refl).
Defined.

(** ** Grimoires *)

Lemma grimoireMethods_keeps (env : object.loc) (name : string) :
  forall (Methods : list (bool * string * list ast.Param * list ast.Node))
         (inherited : gmap string object.FunctionObj),
    is_Some (inherited !! name) ->
    is_Some (evaluator.grimoireMethods inherited Methods env !! name).
Proof.
  unfold evaluator.grimoireMethods.
  induction Methods as [| [[[abstract name'] params] body] rest IH]; intros inherited Hin;
    [exact Hin |].
  cbn [foldl]. apply IH. apply lookup_insert_is_Some.
  destruct (decide (name' = name)); [left; assumption | right; split; assumption].
Qed.

Lemma grimoireMethods_inherited (env : object.loc) (name : string) :
  forall (Methods : list (bool * string * list ast.Param * list ast.Node))
         (inherited : gmap string object.FunctionObj),
    name ∉ method_names Methods ->
    evaluator.grimoireMethods inherited Methods env !! name = inherited !! name.
Proof.
  unfold evaluator.grimoireMethods.
  induction Methods as [| [[[abstract name'] params] body] rest IH]; intros inherited Hnot;
    [reflexivity |].
  cbn [foldl]. cbn in Hnot. apply not_elem_of_cons in Hnot. destruct Hnot as [Hne Hnot].
  rewrite IH by exact Hnot. apply lookup_insert_ne. congruence.
Qed.

(** A grimoire that inherits is always defined: the test for abstract
    methods of the parent that the child does not implement looks the names
    up in a table that already holds every method of the parent, so it never
    fails.  The new grimoire has the parent's methods under every name it
    does not declare itself, abstract ones included, and its [init] is the
    one it declares: the parent's [init] is not inherited. *)
Theorem inheriting_grimoire_is_always_defined :
  forall (is_arcane : bool) (Name parentName : string)
         (InitMethod : option (list ast.Param * list ast.Node))
         (Methods : list (bool * string * list ast.Param * list ast.Node))
         (env : object.loc) (st : object.Store) (p : object.loc) (pg : object.GrimoireObj),
    object.Get st env parentName = Some (object.Grimoire p) ->
    object.grimoires st !! p = Some pg ->
    exists (g : object.GrimoireObj) (st' : object.Store),
      evaluator.evalGrimoireDefinition is_arcane Name (Some parentName) InitMethod Methods env st
      = evaluator.Done (object.Grimoire (object.next st)) st'
      /\ object.grimoires st' !! object.next st = Some g
      /\ object.Inherits g = Some p
      /\ (forall name, name ∉ method_names Methods ->
            object.Methods g !! name = object.Methods pg !! name)
      /\ object.InitMethod g
         = match InitMethod with
           | Some (params, body) => Some (object.mkFunction params body env false false false)
           | None => None
           end.
Proof.
  intros is_arcane Name parentName InitMethod Methods env st p pg Hparent Hpg.
  set (methods := evaluator.grimoireMethods (object.Methods pg) Methods env).
  set (init := match InitMethod with
               | Some (params, body) => Some (object.mkFunction params body env false false false)
               | None => None
               end).
  set (g := object.mkGrimoire Name methods init env (Some p) is_arcane).
  exists g.
  exists (object.Set_
            (object.bump (object.set_grimoires st (<[object.next st := g]> (object.grimoires st))))
            env Name (object.Grimoire (object.next st))).
  split; [| split; [| split; [| split]]].
  - unfold evaluator.evalGrimoireDefinition.
    unfold evaluator.bind at 1, evaluator.env_Get. rewrite Hparent. cbv beta iota.
    unfold evaluator.bind at 1, evaluator.grimoire_at, evaluator.must. rewrite Hpg.
    cbn [evaluator.ret]. fold methods.
    destruct (List.find _ (map_to_list (object.Methods pg))) as [[name method] |] eqn:Hfind.
    + exfalso. apply find_some in Hfind. destruct Hfind as [Hin Habs].
      apply list_elem_of_In, elem_of_map_to_list in Hin.
      destruct (grimoireMethods_keeps env name Methods (object.Methods pg)) as [m Hm];
        [eexists; exact Hin |].
      fold methods in Hm. rewrite Hm in Habs. rewrite andb_false_r in Habs. discriminate.
    + reflexivity.
  - unfold object.Set_. destruct (object.envs _ !! env); cbn; apply lookup_insert_eq.
  - reflexivity.
  - intros name Hnot. apply grimoireMethods_inherited. exact Hnot.
  - reflexivity.
Qed.

Lemma inheriting_grimoire_is_always_defined_witness :
  exists (g : object.GrimoireObj) (st' : object.Store),
    evaluator.evalGrimoireDefinition false "Square" (Some "Shape") None [] global Shape_store
    = evaluator.Done (object.Grimoire (object.next Shape_store)) st'
    /\ object.grimoires st' !! object.next Shape_store = Some g
    /\ object.Inherits g = Some 1%nat
    /\ (forall name, name ∉ method_names [] ->
          object.Methods g !! name
          = ({[ "area" := object.mkFunction [] [] global false false true ]}
               : gmap string object.FunctionObj) !! name)
    /\ object.InitMethod g = None.
Proof.
  exact (inheriting_grimoire_is_always_defined false "Square" "Shape" None [] global
           Shape_store 1%nat
           (object.mkGrimoire "Shape"
              {[ "area" := object.mkFunction [] [] global false false true ]}
              None global None true)
           ltac:(vm_compute; reflexivity) ltac:(vm_compute; reflexivity)).
Defined.

(** The evaluation of the two definitions from a fresh session: [Square] is
    defined although it does not implement [area]. *)
Example Square_is_defined_without_area :
  value_of (evaluator.Eval host_stub 3 (ast.Program [define_Shape; define_Square])
              global fresh_store)
  = Some (object.Grimoire 2%nat).
Proof. vm_compute. reflexivity. Qed.

(** Member access looks the name up in the environment of the instance
    before it looks at the methods, and that environment encloses the one
    the grimoire was defined in.  So an instance made by calling a grimoire
    without [init] answers, for a name bound where the grimoire was defined,
    the value bound there. *)
Theorem member_access_reads_the_defining_scope :
  forall (host : evaluator.Host) (ev : ast.Node -> object.loc -> evaluator.M object.Object)
         (g : object.loc) (fn : object.GrimoireObj) (Left : ast.Node) (name : string)
         (v : object.Object) (env : object.loc) (st : object.Store),
    envs_ok st ->
    (object.grim_Env fn < object.next st)%nat ->
    object.grimoires st !! g = Some fn ->
    object.IsArcane fn = false ->
    object.InitMethod fn = None ->
    object.Get st (object.grim_Env fn) name = Some v ->
    evaluator.Node_String host Left <> "super"%string ->
    let instance := object.Instance (object.mkInstance g (object.next st)) in
    let st1 := (object.NewEnclosedEnvironment st (Some (object.grim_Env fn))).2 in
    ev Left env st1 = evaluator.Done instance st1 ->
    evaluator.evalCallExpression host ev (object.Grimoire g) [] env st
    = evaluator.Done instance st1
    /\ evaluator.evalDotExpression host ev Left name env st1 = evaluator.Done v st1.
Proof.
  intros host ev g fn Left name v env st Hok Hlt Hg Harcane Hinit Hget Hsuper
    instance st1 Hleft.
  subst instance. split.
  - unfold evaluator.evalCallExpression, evaluator.bind, evaluator.unpackArgs,
      evaluator.grimoire_at, evaluator.must, evaluator.new_env.
    cbn [evaluator.ret]. rewrite Hg. cbn [evaluator.ret]. rewrite Harcane, Hinit.
    reflexivity.
  - unfold evaluator.evalDotExpression. unfold evaluator.bind at 1. rewrite Hleft.
    cbv beta iota. cbn [evaluator.isError].
    apply String.eqb_neq in Hsuper. rewrite Hsuper.
    unfold evaluator.bind at 1, evaluator.env_Get. cbn [object.inst_Env].
    replace (object.Get st1 (object.next st) name) with (Some v); [reflexivity |].
    symmetry. rewrite <- Hget.
    unfold object.Get at 1. cbn [object.Get_from].
    unfold st1, object.NewEnclosedEnvironment.
    cbn [snd object.envs object.bump object.set_envs].
    rewrite lookup_insert_eq. cbn [object.store object.outer]. rewrite lookup_empty.
    erewrite Get_from_insert_above; [| exact Hok | exact Hlt].
    unfold object.Get. eapply Get_from_enough; [exact Hok | exact Hlt | lia].
Qed.

Lemma Point_store_ok : envs_ok Point_store.
Proof.
  apply envs_ok_Set, envs_ok_Set. apply map_Forall_singleton. split; [cbn; lia | exact I].
Qed.

Lemma member_access_reads_the_defining_scope_witness :
  evaluator.evalDotExpression host_stub
    (fun _ _ => evaluator.ret (object.Instance (object.mkInstance 1%nat 2%nat)))
    (ast.Identifier "p") "origin" global
    (object.NewEnclosedEnvironment Point_store (Some global)).2
  = evaluator.Done (object.Integer 0)
      (object.NewEnclosedEnvironment Point_store (Some global)).2.
Proof.
  exact (proj2 (member_access_reads_the_defining_scope host_stub
                  (fun _ _ => evaluator.ret (object.Instance (object.mkInstance 1%nat 2%nat)))
                  1%nat (object.mkGrimoire "Point" ∅ None global None false)
                  (ast.Identifier "p") "origin" (object.Integer 0) global Point_store
                  Point_store_ok ltac:(vm_compute; lia) eq_refl eq_refl eq_refl
                  ltac:(vm_compute; reflexivity) ltac:(discriminate) eq_refl)).
Defined.

(** ** The lexer terminates *)

Lemma get_Some_lt (s : string) :
  forall (i : nat) (c : ascii), String.get i s = Some c -> (i < String.length s)%nat.
Proof.
  induction s as [| a s IH]; intros i c H; [destruct i; discriminate |].
  destruct i as [| i]; cbn in *; [lia |]. apply IH in H. lia.
Qed.

Lemma increasing_snoc (x : nat) :
  forall (stack : list nat) (top : nat),
    increasing stack = true -> last stack = Some top -> (top < x)%nat ->
    increasing (stack ++ [x]) = true.
Proof.
  induction stack as [| a stack IH]; intros top Hinc Hlast Hlt; [discriminate |].
  destruct stack as [| b stack].
  - cbn in Hlast. injection Hlast as ->. cbn. rewrite andb_true_r. apply Nat.ltb_lt. exact Hlt.
  - cbn [increasing] in Hinc. apply andb_true_iff in Hinc as [Hab Hinc].
    change ((a :: b :: stack) ++ [x]) with (a :: (b :: stack) ++ [x]).
    cbn [app increasing]. rewrite Hab. cbn [andb].
    apply (IH top); [exact Hinc | exact Hlast | exact Hlt].
Qed.

Lemma increasing_removelast :
  forall stack : list nat, increasing stack = true -> increasing (removelast stack) = true.
Proof.
  induction stack as [| a stack IH]; intros Hinc; [reflexivity |].
  destruct stack as [| b stack]; [reflexivity |].
  cbn [increasing] in Hinc. apply andb_true_iff in Hinc as [Hab Hinc].
  specialize (IH Hinc).
  change (removelast (a :: b :: stack)) with (a :: removelast (b :: stack)).
  destruct stack as [| c stack]; [reflexivity |].
  change (removelast (b :: c :: stack)) with (b :: removelast (c :: stack)) in *.
  cbn [increasing]. rewrite Hab. exact IH.
Qed.

Lemma increasing_last_bound :
  forall (stack : list nat) (a top : nat),
    increasing (a :: stack) = true -> last (a :: stack) = Some top -> (a <= top)%nat.
Proof.
  induction stack as [| b stack IH]; intros a top Hinc Hlast.
  - cbn in Hlast. injection Hlast as ->. lia.
  - cbn [increasing] in Hinc. apply andb_true_iff in Hinc as [Hab Hinc].
    apply Nat.ltb_lt in Hab.
    change (last (a :: b :: stack)) with (last (b :: stack)) in Hlast.
    specialize (IH b top Hinc Hlast). lia.
Qed.

(** The layout step on a well-shaped stack: it answers, and leaves the
    stack well-shaped. *)
Lemma handleIndentChange_total (l : lexer.Lexer) (newIndent : nat) :
  stack_ok (lexer.indentStack l) = true ->
  exists tok l',
    lexer.handleIndentChange l newIndent = Some (tok, l')
    /\ stack_ok (lexer.indentStack l') = true
    /\ lexer.finished l' = lexer.finished l
    /\ lexer.currLine l' = lexer.currLine l
    /\ lexer.lineIndex l' = lexer.lineIndex l
    /\ lexer.lines l' = lexer.lines l
    /\ lexer.indentResolved l' = lexer.indentResolved l.
Proof.
  intros Hok. unfold lexer.handleIndentChange.
  destruct (lexer.indentStack l) as [| [| a] stack] eqn:Hstack; try discriminate Hok.
  cbn [stack_ok] in Hok.
  destruct (last (0%nat :: stack)) as [top |] eqn:Hlast.
  2: { apply last_None in Hlast. discriminate. }
  destruct (Nat.eqb newIndent top) eqn:Heq.
  { do 2 eexists. split; [reflexivity |].
    split; [cbn [lexer.indentStack lexer.with_charIndex]; rewrite Hstack; exact Hok |].
    repeat split. }
  destruct (Nat.ltb top newIndent) eqn:Hltb.
  { do 2 eexists. split; [reflexivity |].
    split; [| repeat split].
    cbn [lexer.indentStack lexer.with_charIndex lexer.with_indentStack].
    apply Nat.ltb_lt in Hltb.
    apply (increasing_snoc newIndent (0%nat :: stack) top Hok Hlast Hltb). }
  do 2 eexists. split; [reflexivity |]. split; [| repeat split].
  cbn [lexer.indentStack lexer.with_indentStack].
  apply Nat.eqb_neq in Heq. apply Nat.ltb_ge in Hltb.
  destruct stack as [| b stack].
  - cbn in Hlast. injection Hlast as <-. lia.
  - change (removelast (0%nat :: b :: stack)) with (0%nat :: removelast (b :: stack)).
    cbn [stack_ok].
    change (0%nat :: removelast (b :: stack)) with (removelast (0%nat :: b :: stack)).
    apply increasing_removelast. exact Hok.
Qed.

Lemma remaining_with_charIndex_lt (l : lexer.Lexer) (k : nat) :
  lexer.finished l = false ->
  (lexer.charIndex l < String.length (lexer.currLine l))%nat ->
  (lexer.charIndex l < k)%nat ->
  (remaining (lexer.with_charIndex l k) < remaining l)%nat.
Proof.
  intros Hfin Hlt Hk. unfold remaining. cbn. rewrite Hfin.
  destruct (lexer.indentResolved l); lia.
Qed.

Lemma remaining_with_charIndex_le (l : lexer.Lexer) (k : nat) :
  (lexer.charIndex l <= k)%nat ->
  (remaining (lexer.with_charIndex l k) <= remaining l)%nat.
Proof.
  intros Hk. unfold remaining. cbn.
  destruct (lexer.finished l); destruct (lexer.indentResolved l); lia.
Qed.

Lemma remaining_advanceLine (l : lexer.Lexer) :
  lexer.finished l = false ->
  (remaining (lexer.advanceLine l) < remaining l)%nat.
Proof.
  intros Hfin. unfold remaining at 2. rewrite Hfin.
  unfold lexer.advanceLine.
  destruct (lexer.lines l !! S (lexer.lineIndex l)) as [line |] eqn:Hline.
  - unfold remaining. cbn. rewrite Hfin.
    rewrite (drop_S _ _ _ Hline). cbn [map sum_list sum_list_with]. unfold id.
    destruct (lexer.indentResolved l); lia.
  - unfold remaining. cbn. lia.
Qed.

Lemma advanceLine_stack (l : lexer.Lexer) :
  lexer.indentStack (lexer.advanceLine l) = lexer.indentStack l.
Proof. unfold lexer.advanceLine. destruct (_ !! _); reflexivity. Qed.

Lemma skipBlockComment_loop_total :
  forall (fuel : nat) (l : lexer.Lexer),
    lexer.finished l = false ->
    (remaining l < fuel)%nat ->
    exists l',
      lexer.skipBlockComment_loop fuel l = Some l'
      /\ (remaining l' <= remaining l)%nat
      /\ lexer.indentStack l' = lexer.indentStack l.
Proof.
  induction fuel as [| fuel IH]; intros l Hfin Hfuel; [lia |].
  cbn [lexer.skipBlockComment_loop].
  destruct (lexer.charAt l (lexer.charIndex l)) as [c |] eqn:Hc.
  - apply get_Some_lt in Hc.
    destruct (Ascii.eqb c "*" && Ascii.eqb (lexer.peekChar l) "/").
    + eexists. split; [reflexivity |]. split; [| reflexivity].
      apply remaining_with_charIndex_le. lia.
    + pose proof (remaining_with_charIndex_lt l (S (lexer.charIndex l)) Hfin Hc ltac:(lia)).
      destruct (IH (lexer.with_charIndex l (S (lexer.charIndex l))) Hfin ltac:(lia))
        as [l' [Hl' [Hle Hst]]].
      exists l'. split; [exact Hl' |]. split; [lia | exact Hst].
  - pose proof (remaining_advanceLine l Hfin) as Hadv.
    destruct (lexer.finished (lexer.advanceLine l)) eqn:Hfin'.
    + eexists. split; [reflexivity |]. split; [lia | apply advanceLine_stack].
    + destruct (IH (lexer.advanceLine l) Hfin' ltac:(lia)) as [l' [Hl' [Hle Hst]]].
      exists l'. split; [exact Hl' |]. split; [lia |].
      rewrite Hst. apply advanceLine_stack.
Qed.

Lemma string_step_advances (quote ch : ascii) (sb : string) (l : lexer.Lexer) :
  exists sb' k,
    lexer.string_step quote ch sb l = (sb', lexer.with_charIndex l k)
    /\ (lexer.charIndex l < k)%nat.
Proof.
  unfold lexer.string_step. destruct (Ascii.eqb ch lexer.BACKSLASH).
  - destruct (lexer.charAt _ _); do 2 eexists; (split; [reflexivity | cbn; lia]).
  - do 2 eexists. split; [reflexivity | lia].
Qed.

Lemma readSingle_total (quote : ascii) :
  forall (fuel : nat) (sb : string) (l : lexer.Lexer),
    lexer.finished l = false ->
    (remaining l < fuel)%nat ->
    exists sb' l',
      lexer.readSingle fuel quote sb l = Some (sb', l')
      /\ (remaining l' <= remaining l)%nat
      /\ lexer.indentStack l' = lexer.indentStack l.
Proof.
  induction fuel as [| fuel IH]; intros sb l Hfin Hfuel; [lia |].
  cbn [lexer.readSingle].
  destruct (lexer.charAt l (lexer.charIndex l)) as [ch |] eqn:Hc.
  2: { do 2 eexists. split; [reflexivity |]. split; [lia | reflexivity]. }
  apply get_Some_lt in Hc.
  destruct (Ascii.eqb ch quote).
  { do 2 eexists. split; [reflexivity |]. split; [| reflexivity].
    apply remaining_with_charIndex_le. lia. }
  destruct (string_step_advances quote ch sb l) as [sb1 [k [Hstep Hk]]]. rewrite Hstep.
  pose proof (remaining_with_charIndex_lt l k Hfin Hc Hk).
  destruct (IH sb1 (lexer.with_charIndex l k) Hfin ltac:(lia)) as [sb' [l' [Hl' [Hle Hst]]]].
  exists sb', l'. split; [exact Hl' |]. split; [lia | exact Hst].
Qed.

Lemma readTriple_total (quote : ascii) :
  forall (fuel : nat) (sb : string) (l : lexer.Lexer),
    lexer.finished l = false ->
    (remaining l < fuel)%nat ->
    exists sb' l',
      lexer.readTriple fuel quote sb l = Some (sb', l')
      /\ (remaining l' <= remaining l)%nat
      /\ lexer.indentStack l' = lexer.indentStack l.
Proof.
  induction fuel as [| fuel IH]; intros sb l Hfin Hfuel; [lia |].
  cbn [lexer.readTriple].
  destruct (lexer.charAt l (lexer.charIndex l)) as [ch |] eqn:Hc.
  - apply get_Some_lt in Hc.
    destruct (string_step_advances quote ch sb l) as [sb1 [k [Hstep Hk]]].
    pose proof (remaining_with_charIndex_lt l k Hfin Hc Hk).
    destruct (IH sb1 (lexer.with_charIndex l k) Hfin ltac:(lia)) as [sb' [l' [Hl' [Hle Hst]]]].
    assert (Hgo : exists sb' l',
               (let '(sb0, l0) := lexer.string_step quote ch sb l in
                lexer.readTriple fuel quote sb0 l0) = Some (sb', l')
               /\ (remaining l' <= remaining l)%nat
               /\ lexer.indentStack l' = lexer.indentStack l).
    { rewrite Hstep. exists sb', l'. split; [exact Hl' |]. split; [lia | exact Hst]. }
    destruct (lexer.charAt l (S (lexer.charIndex l))) as [c1 |]; [| exact Hgo].
    destruct (lexer.charAt l (S (S (lexer.charIndex l)))) as [c2 |]; [| exact Hgo].
    destruct (Ascii.eqb ch quote && Ascii.eqb c1 quote && Ascii.eqb c2 quote); [| exact Hgo].
    do 2 eexists. split; [reflexivity |]. split; [| reflexivity].
    apply remaining_with_charIndex_le. lia.
  - pose proof (remaining_advanceLine l Hfin) as Hadv.
    destruct (lexer.finished (lexer.advanceLine l)) eqn:Hfin'.
    + do 2 eexists. split; [reflexivity |]. split; [lia | apply advanceLine_stack].
    + destruct (IH (lexer.append_byte sb lexer.LF) (lexer.advanceLine l) Hfin' ltac:(lia))
        as [sb' [l' [Hl' [Hle Hst]]]].
      exists sb', l'. split; [exact Hl' |]. split; [lia |].
      rewrite Hst. apply advanceLine_stack.
Qed.

Lemma readString_total (fuel : nat) (l : lexer.Lexer) (ch : ascii) :
  lexer.finished l = false ->
  lexer.charAt l (lexer.charIndex l) = Some ch ->
  (remaining l <= fuel)%nat ->
  exists tok l',
    lexer.readString fuel l = Some (tok, l')
    /\ (remaining l' < remaining l)%nat
    /\ lexer.indentStack l' = lexer.indentStack l.
Proof.
  intros Hfin Hc Hfuel. unfold lexer.readString. rewrite Hc.
  apply get_Some_lt in Hc.
  pose proof (remaining_with_charIndex_lt l (S (lexer.charIndex l)) Hfin Hc ltac:(lia)) as H1.
  set (l1 := lexer.with_charIndex l (S (lexer.charIndex l))) in *.
  destruct (lexer.opensTriple ch l1).
  - pose proof (remaining_with_charIndex_le l1 (lexer.charIndex l1 + 2) ltac:(lia)) as H2.
    destruct (readTriple_total ch fuel EmptyString
                (lexer.with_charIndex l1 (lexer.charIndex l1 + 2)) Hfin ltac:(lia))
      as [sb' [l' [Hl' [Hle Hst]]]].
    rewrite Hl'. do 2 eexists. split; [reflexivity |]. split; [lia | exact Hst].
  - destruct (readSingle_total ch fuel EmptyString l1 Hfin ltac:(lia))
      as [sb' [l' [Hl' [Hle Hst]]]].
    rewrite Hl'. do 2 eexists. split; [reflexivity |]. split; [lia | exact Hst].
Qed.

Lemma readFString_total (fuel : nat) (l : lexer.Lexer) :
  lexer.finished l = false ->
  (remaining l < fuel)%nat ->
  exists tok l',
    lexer.readFString fuel l = Some (tok, l')
    /\ (remaining l' <= remaining l)%nat
    /\ lexer.indentStack l' = lexer.indentStack l.
Proof.
  intros Hfin Hfuel. unfold lexer.readFString.
  destruct (lexer.charAt l (lexer.charIndex l)) as [q |] eqn:Hc.
  2: { do 2 eexists. split; [reflexivity |]. split; [lia | reflexivity]. }
  pose proof (remaining_with_charIndex_le l (S (lexer.charIndex l)) ltac:(lia)) as H1.
  set (l1 := lexer.with_charIndex l (S (lexer.charIndex l))) in *.
  destruct (lexer.opensTriple q l1).
  - pose proof (remaining_with_charIndex_le l1 (lexer.charIndex l1 + 2) ltac:(lia)) as H2.
    destruct (readTriple_total q fuel EmptyString
                (lexer.with_charIndex l1 (lexer.charIndex l1 + 2)) Hfin ltac:(lia))
      as [sb' [l' [Hl' [Hle Hst]]]].
    rewrite Hl'. do 2 eexists. split; [reflexivity |]. split; [lia | exact Hst].
  - destruct (readSingle_total q fuel EmptyString l1 Hfin ltac:(lia))
      as [sb' [l' [Hl' [Hle Hst]]]].
    rewrite Hl'. do 2 eexists. split; [reflexivity |]. split; [lia | exact Hst].
Qed.

Lemma scan_while_ge (p : ascii -> bool) (line : string) :
  forall (fuel i : nat), (i <= lexer.scan_while p line i fuel)%nat.
Proof.
  induction fuel as [| fuel IH]; intros i; [cbn; lia |].
  cbn. destruct (String.get i line) as [c |]; [| lia].
  destruct (p c); [| lia]. specialize (IH (S i)). lia.
Qed.

Lemma scan_while_advances (p : ascii -> bool) (line : string) (i : nat) (c : ascii) :
  String.get i line = Some c -> p c = true ->
  (i < lexer.scan_while p line i (String.length line))%nat.
Proof.
  intros Hc Hp. pose proof (get_Some_lt _ _ _ Hc).
  destruct (String.length line) as [| n]; [lia |].
  cbn. rewrite Hc, Hp. pose proof (scan_while_ge p line n (S i)). lia.
Qed.

Lemma scan_number_ge (line : string) :
  forall (fuel i : nat) (isFloat : bool),
    (i <= (lexer.scan_number line i isFloat fuel).1)%nat.
Proof.
  induction fuel as [| fuel IH]; intros i isFloat; [cbn; lia |].
  cbn. destruct (String.get i line) as [c |]; [| cbn; lia].
  destruct (Ascii.eqb c ".").
  - destruct isFloat; [cbn; lia |]. specialize (IH (S i) true). lia.
  - destruct (negb (lexer.isDigit c)); [cbn; lia |]. specialize (IH (S i) isFloat). lia.
Qed.

Lemma scan_number_advances (line : string) (i : nat) (c : ascii) :
  String.get i line = Some c -> lexer.isDigit c = true ->
  (i < (lexer.scan_number line i false (String.length line)).1)%nat.
Proof.
  intros Hc Hd. pose proof (get_Some_lt _ _ _ Hc).
  destruct (String.length line) as [| n]; [lia |].
  cbn. rewrite Hc, Hd. cbn [negb].
  destruct (Ascii.eqb c ".").
  - pose proof (scan_number_ge line n (S i) true). lia.
  - pose proof (scan_number_ge line n (S i) false). lia.
Qed.

Section Termination.

Variable LookupIdent : string -> token.TokenType.

Lemma readIdentifier_advances (l : lexer.Lexer) (ch : ascii) :
  lexer.charAt l (lexer.charIndex l) = Some ch ->
  lexer.isLetterOrDigit ch = true ->
  exists tok k,
    lexer.readIdentifier LookupIdent l = (tok, lexer.with_charIndex l k)
    /\ (lexer.charIndex l < k)%nat.
Proof.
  intros Hc Hp. unfold lexer.readIdentifier. do 2 eexists. split; [reflexivity |].
  apply (scan_while_advances _ _ _ ch); assumption.
Qed.

Lemma readNumber_advances (l : lexer.Lexer) (ch : ascii) :
  lexer.charAt l (lexer.charIndex l) = Some ch ->
  lexer.isDigit ch = true ->
  exists tok k,
    lexer.readNumber l = (tok, lexer.with_charIndex l k)
    /\ (lexer.charIndex l < k)%nat.
Proof.
  intros Hc Hp. unfold lexer.readNumber.
  pose proof (scan_number_advances _ _ _ Hc Hp) as Hadv.
  destruct (lexer.scan_number _ _ _ _) as [stop isFloat]. cbn in Hadv.
  do 2 eexists. split; [reflexivity | exact Hadv].
Qed.

Lemma operatorToken_advances (l : lexer.Lexer) (ch : ascii) :
  lexer.charAt l (lexer.charIndex l) = Some ch ->
  exists tok k,
    lexer.operatorToken LookupIdent l ch = Some (tok, lexer.with_charIndex l k)
    /\ (lexer.charIndex l < k)%nat.
Proof.
  intros Hc. unfold lexer.operatorToken, lexer.emit.
  repeat match goal with
         | |- context [if Ascii.eqb ?a ?b then _ else _] => destruct (Ascii.eqb a b)
         end;
    try (do 2 eexists; split; [reflexivity | lia]).
  destruct (lexer.isLetter ch) eqn:Hletter.
  { destruct (readIdentifier_advances l ch Hc) as [tok [k [Hid Hk]]].
    - unfold lexer.isLetterOrDigit. rewrite Hletter. reflexivity.
    - rewrite Hid. eauto. }
  destruct (lexer.isDigit ch) eqn:Hdigit.
  { destruct (readNumber_advances l ch Hc Hdigit) as [tok [k [Hid Hk]]].
    rewrite Hid. eauto. }
  do 2 eexists. split; [reflexivity | lia].
Qed.

(** One call of [NextToken] on a well-shaped stack, with a bound above what
    is left of the input: it answers, the stack stays well-shaped, and
    unless the lexer was finished, in which case it answers EOF and stays as
    it is, strictly less of the input is left. *)
Lemma NextToken_total :
  forall (fuel : nat) (l : lexer.Lexer),
    stack_ok (lexer.indentStack l) = true ->
    (remaining l < fuel)%nat ->
    exists tok l',
      lexer.NextToken LookupIdent fuel l = Some (tok, l')
      /\ stack_ok (lexer.indentStack l') = true
      /\ (if lexer.finished l then l' = l /\ token.Type_ tok = token.EOF
          else (remaining l' < remaining l)%nat).
Proof.
  induction fuel as [| fuel IH]; intros l Hok Hfuel; [lia |].
  cbn [lexer.NextToken].
  destruct (lexer.finished l) eqn:Hfin.
  { do 2 eexists. split; [reflexivity |]. split; [exact Hok |]. split; reflexivity. }
  destruct (Nat.eqb (lexer.charIndex l) 0 && negb (lexer.indentResolved l)) eqn:Hlayout.
  { apply andb_true_iff in Hlayout as [Hzero Hres].
    apply Nat.eqb_eq in Hzero. apply negb_true_iff in Hres.
    destruct (handleIndentChange_total (lexer.with_indentResolved l true)
                (lexer.measureIndent (lexer.currLine l)) Hok)
      as [tok [l' [Hh [Hok' [Hf [Hcur [Hli [Hlines Hres']]]]]]]].
    exists tok, l'. split; [exact Hh |]. split; [exact Hok' |].
    unfold remaining. rewrite Hf, Hcur, Hli, Hlines, Hres'. cbn. rewrite Hfin, Hres, Hzero.
    lia. }
  destruct (lexer.charAt l (lexer.charIndex l)) as [ch |] eqn:Hch.
  2: { do 2 eexists. split; [reflexivity |].
       split; [rewrite advanceLine_stack; exact Hok | apply remaining_advanceLine; exact Hfin]. }
  pose proof (get_Some_lt _ _ _ Hch) as Hlt.
  assert (Hstep : forall k, (lexer.charIndex l < k)%nat ->
                    (remaining (lexer.with_charIndex l k) < remaining l)%nat).
  { intros k Hk. apply remaining_with_charIndex_lt; assumption. }
  assert (Hemit : forall n ty lit, (0 < n)%nat ->
            exists tok l',
              lexer.emit l n ty lit = Some (tok, l')
              /\ stack_ok (lexer.indentStack l') = true
              /\ (remaining l' < remaining l)%nat).
  { intros n ty lit Hn. unfold lexer.emit. do 2 eexists. split; [reflexivity |].
    split; [exact Hok | apply Hstep; lia]. }
  assert (Hident : lexer.isLetterOrDigit ch = true ->
            exists tok l',
              Some (lexer.readIdentifier LookupIdent l) = Some (tok, l')
              /\ stack_ok (lexer.indentStack l') = true
              /\ (remaining l' < remaining l)%nat).
  { intros Hp. destruct (readIdentifier_advances l ch Hch Hp) as [tok [k [Hid Hk]]].
    rewrite Hid. do 2 eexists. split; [reflexivity |]. split; [exact Hok | apply Hstep, Hk]. }
  assert (Hrec : forall k, (lexer.charIndex l < k)%nat ->
            exists tok l',
              lexer.NextToken LookupIdent fuel (lexer.with_charIndex l k) = Some (tok, l')
              /\ stack_ok (lexer.indentStack l') = true
              /\ (remaining l' < remaining l)%nat).
  { intros k Hk. pose proof (Hstep k Hk) as Hlt'.
    destruct (IH (lexer.with_charIndex l k) Hok ltac:(lia)) as [tok [l' [Hn [Hok' Hrem]]]].
    cbn [lexer.finished lexer.with_charIndex] in Hrem. rewrite Hfin in Hrem.
    exists tok, l'. split; [exact Hn |]. split; [exact Hok' | lia]. }
  destruct (lexer.isHorizontalWhitespace ch).
  { apply Hrec. lia. }
  destruct (Ascii.eqb ch "f") eqn:Hf.
  { destruct (_ || _).
    - pose proof (Hstep (S (lexer.charIndex l)) ltac:(lia)) as Hlt'.
      destruct (readFString_total fuel (lexer.with_charIndex l (S (lexer.charIndex l)))
                  Hfin ltac:(lia)) as [tok [l' [Hr [Hle Hst]]]].
      exists tok, l'. split; [exact Hr |]. split; [rewrite Hst; exact Hok | lia].
    - apply Hident. apply Ascii.eqb_eq in Hf. subst ch. reflexivity. }
  destruct (Ascii.eqb ch "_") eqn:Hu.
  { destruct (lexer.peekCharIsLetterOrDigitOrUnderscore l).
    - apply Hident. apply Ascii.eqb_eq in Hu. subst ch. reflexivity.
    - apply Hemit. lia. }
  destruct (Ascii.eqb ch "/").
  { destruct (Ascii.eqb (lexer.peekChar l) "="); [apply Hemit; lia |].
    destruct (Ascii.eqb (lexer.peekChar l) "/"); [apply Hrec; exact Hlt |].
    destruct (Ascii.eqb (lexer.peekChar l) "*"); [| apply Hemit; lia].
    unfold lexer.skipBlockComment.
    pose proof (Hstep (lexer.charIndex l + 2)%nat ltac:(lia)) as Hlt'.
    destruct (skipBlockComment_loop_total fuel
                (lexer.with_charIndex l (lexer.charIndex l + 2)) Hfin ltac:(lia))
      as [l2 [Hskip [Hle Hst]]].
    rewrite Hskip.
    destruct (IH l2 ltac:(rewrite Hst; exact Hok) ltac:(lia)) as [tok [l' [Hn [Hok' Hrem]]]].
    exists tok, l'. split; [exact Hn |]. split; [exact Hok' |].
    destruct (lexer.finished l2); [destruct Hrem as [-> _]; lia | lia]. }
  destruct (_ || _).
  { destruct (readString_total fuel l ch Hfin Hch ltac:(lia)) as [tok [l' [Hr [Hlt' Hst]]]].
    exists tok, l'. split; [exact Hr |]. split; [rewrite Hst; exact Hok | exact Hlt']. }
  destruct (operatorToken_advances l ch Hch) as [tok [k [Hop Hk]]].
  rewrite Hop. do 2 eexists. split; [reflexivity |]. split; [exact Hok | apply Hstep, Hk].
Qed.

(** From any state with a well-shaped stack the token stream reaches the
    end of the input: after [remaining l] calls the lexer is finished. *)
Lemma drain_finishes :
  forall (n fuel : nat) (l : lexer.Lexer),
    stack_ok (lexer.indentStack l) = true ->
    (remaining l <= n)%nat ->
    (remaining l < fuel)%nat ->
    exists l',
      drain LookupIdent fuel n l = Some l'
      /\ lexer.finished l' = true
      /\ stack_ok (lexer.indentStack l') = true.
Proof.
  induction n as [| n IH]; intros fuel l Hok Hn Hfuel.
  - exists l. split; [reflexivity |]. split; [| exact Hok].
    unfold remaining in Hn. destruct (lexer.finished l); [reflexivity | lia].
  - cbn [drain].
    destruct (NextToken_total fuel l Hok Hfuel) as [tok [l' [Hnext [Hok' Hrem]]]].
    rewrite Hnext.
    destruct (lexer.finished l) eqn:Hfin.
    + destruct Hrem as [-> _]. apply IH; [exact Hok | | exact Hfuel].
      unfold remaining. rewrite Hfin. lia.
    + apply IH; [exact Hok' | lia | lia].
Qed.

End Termination.

Lemma New_stack_ok (input fileName : string) :
  stack_ok (lexer.indentStack (lexer.New input fileName)) = true.
Proof. unfold lexer.New. destruct (lexer.split_lines input EmptyString); reflexivity. Qed.

(** [NextToken] keeps the indent stack strictly increasing from its bottom
    0, so that the layout step always finds a top to compare with: on such
    a stack, a call whose bound lies above what is left of the input answers
    a token, leaves such a stack, and leaves no more of the input than it
    found. *)
Theorem indent_stack_stays_increasing :
  forall (LookupIdent : string -> token.TokenType) (fuel : nat) (l : lexer.Lexer),
    stack_ok (lexer.indentStack l) = true ->
    (remaining l < fuel)%nat ->
    exists tok l',
      lexer.NextToken LookupIdent fuel l = Some (tok, l')
      /\ stack_ok (lexer.indentStack l') = true
      /\ (remaining l' <= remaining l)%nat.
Proof.
  intros LookupIdent fuel l Hok Hfuel.
  destruct (NextToken_total LookupIdent fuel l Hok Hfuel) as [tok [l' [Hnext [Hok' Hrem]]]].
  exists tok, l'. split; [exact Hnext |]. split; [exact Hok' |].
  destruct (lexer.finished l); [destruct Hrem as [-> _]; lia | lia].
Qed.

(** The lexer terminates on every input: from [New input], at most
    [remaining] calls of [NextToken] bring the lexer to the end of the
    input, where every further call answers EOF and changes nothing. *)
Theorem lexer_reaches_EOF :
  forall (LookupIdent : string -> token.TokenType) (input fileName : string) (fuel : nat),
    let l := lexer.New input fileName in
    (remaining l < fuel)%nat ->
    exists l',
      drain LookupIdent fuel (remaining l) l = Some l'
      /\ lexer.finished l' = true
      /\ lexer.NextToken LookupIdent fuel l'
         = Some (token.mkToken token.EOF "" (lexer.position l'), l').
Proof.
  intros LookupIdent input fileName fuel l Hfuel.
  destruct (drain_finishes LookupIdent (remaining l) fuel l (New_stack_ok input fileName)
              ltac:(lia) Hfuel) as [l' [Hdrain [Hfin _]]].
  exists l'. split; [exact Hdrain |]. split; [exact Hfin |].
  destruct fuel as [| fuel]; [lia |]. cbn [lexer.NextToken]. rewrite Hfin. reflexivity.
Qed.

Lemma indent_stack_stays_increasing_witness :
  exists tok l',
    lexer.NextToken lookup_if 20 at_line_d = Some (tok, l')
    /\ stack_ok (lexer.indentStack l') = true
    /\ (remaining l' <= remaining at_line_d)%nat.
Proof.
  apply (indent_stack_stays_increasing lookup_if 20 at_line_d).
  - reflexivity.
  - vm_compute. lia.
Defined.

Lemma lexer_reaches_EOF_witness :
  exists l',
    drain lookup_if 40 (remaining (lexer.New nested_source EmptyString))
      (lexer.New nested_source EmptyString) = Some l'
    /\ lexer.finished l' = true
    /\ lexer.NextToken lookup_if 40 l'
       = Some (token.mkToken token.EOF "" (lexer.position l'), l').
Proof.
  apply (lexer_reaches_EOF lookup_if nested_source EmptyString 40).
  vm_compute. lia.
Defined.

(** The token stream of the nested example ends with EOF, after which
    every call answers EOF again. *)
Example nested_source_ends_with_EOF :
  last (lexer.tokens lookup_if 40 30 (lexer.New nested_source EmptyString))
  = Some (token.EOF, "").
Proof. vm_compute. reflexivity. Qed.

(** ** Indentation with tabs *)

Lemma measureIndent_tabbed (t : nat) (content : string) :
  lexer.measureIndent (tabbed t content) = (4 * t + lexer.measureIndent content)%nat.
Proof.
  induction t as [| t IH]; [reflexivity |].
  cbn [tabbed lexer.measureIndent]. change (Ascii.eqb lexer.TAB " ") with false.
  change (Ascii.eqb lexer.TAB lexer.TAB) with true. cbv iota. rewrite IH. lia.
Qed.

(** [measureIndent] counts a tab as four columns and the layout step makes
    that count the character index.  So on a line that starts with [t] tabs
    before its content, and is not a dedent, the call that resolves the
    layout leaves the cursor at byte [4 * t] of the line, whereas the
    content starts at byte [t]: the bytes in between are never read. *)
Theorem tab_indentation_moves_the_cursor_into_the_content :
  forall (LookupIdent : string -> token.TokenType) (fuel : nat) (l : lexer.Lexer)
         (t top : nat) (content : string),
    lexer.finished l = false ->
    lexer.charIndex l = 0%nat ->
    lexer.indentResolved l = false ->
    lexer.currLine l = tabbed t content ->
    lexer.measureIndent content = 0%nat ->
    last (lexer.indentStack l) = Some top ->
    (top <= 4 * t)%nat ->
    exists tok l',
      lexer.NextToken LookupIdent (S fuel) l = Some (tok, l')
      /\ token.Type_ tok = (if Nat.eqb (4 * t) top then token.NEWLINE else token.INDENT)
      /\ lexer.charIndex l' = (4 * t)%nat
      /\ lexer.currLine l' = tabbed t content
      /\ lexer.lineIndex l' = lexer.lineIndex l.
Proof.
  intros LookupIdent fuel l t top content Hfin Hzero Hres Hline Hcontent Hlast Htop.
  cbn [lexer.NextToken]. rewrite Hfin, Hzero, Hres. cbn [Nat.eqb negb andb].
  rewrite Hline, measureIndent_tabbed, Hcontent, Nat.add_0_r.
  unfold lexer.handleIndentChange. cbn [lexer.indentStack lexer.with_indentResolved].
  rewrite Hlast.
  destruct (Nat.eqb (4 * t) top) eqn:Heq.
  - do 2 eexists. split; [reflexivity |]. cbn. rewrite Hline. auto.
  - apply Nat.eqb_neq in Heq.
    replace (Nat.ltb top (4 * t)) with true by (symmetry; apply Nat.ltb_lt; lia).
    do 2 eexists. split; [reflexivity |]. cbn. rewrite Hline. auto.
Qed.

Lemma tab_indentation_moves_the_cursor_into_the_content_witness :
  exists tok l',
    lexer.NextToken lookup_if 1 at_tabbed_line = Some (tok, l')
    /\ token.Type_ tok = token.INDENT
    /\ lexer.charIndex l' = 4%nat
    /\ lexer.currLine l' = tabbed 1 "bcdefg"
    /\ lexer.lineIndex l' = lexer.lineIndex at_tabbed_line.
Proof.
  exact (tab_indentation_moves_the_cursor_into_the_content lookup_if 0 at_tabbed_line
           1 0 "bcdefg" eq_refl eq_refl eq_refl eq_refl eq_refl eq_refl ltac:(lia)).
Defined.

(** On the line ["\tbcdefg"] the first content token is [efg]. *)
Example tabbed_line_loses_its_first_bytes :
  lexer.tokens lookup_if 20 3 at_tabbed_line
  = [(token.INDENT, ""); (token.IDENT, "efg"); (token.NEWLINE, "\n")].
Proof. vm_compute. reflexivity. Qed.

(** ** String literals *)

Lemma get_append_right (pre s : string) (j : nat) :
  String.get (String.length pre + j) (pre +:+ s) = String.get j s.
Proof. induction pre as [| c pre IH]; [reflexivity | exact IH]. Qed.

Lemma append_byte_assoc (sb : string) (c : ascii) (s : string) :
  lexer.append_byte sb c +:+ s = sb +:+ String c s.
Proof.
  unfold lexer.append_byte. induction sb as [| a sb IH]; [reflexivity |].
  change (String a ((sb +:+ String c EmptyString) +:+ s) = String a (sb +:+ String c s)).
  f_equal. exact IH.
Qed.

Lemma append_empty_left (s : string) : EmptyString +:+ s = s.
Proof. reflexivity. Qed.

Lemma append_String (c : ascii) (s1 s2 : string) :
  String c s1 +:+ s2 = String c (s1 +:+ s2).
Proof. reflexivity. Qed.

Lemma length_append (s1 s2 : string) :
  String.length (s1 +:+ s2) = (String.length s1 + String.length s2)%nat.
Proof.
  induction s1 as [| a s1 IH]; [reflexivity |].
  rewrite append_String. cbn [String.length]. rewrite IH. reflexivity.
Qed.

Lemma append_associative (s1 s2 s3 : string) : (s1 +:+ s2) +:+ s3 = s1 +:+ (s2 +:+ s3).
Proof.
  induction s1 as [| a s1 IH]; [reflexivity |].
  rewrite !append_String. f_equal. exact IH.
Qed.

Lemma append_empty_right (s : string) : s +:+ EmptyString = s.
Proof.
  induction s as [| a s IH]; [reflexivity |].
  change (String a (s +:+ EmptyString) = String a s). f_equal. exact IH.
Qed.

(** The loop of a single-line body over a plain body that starts under the
    cursor: it appends the body and stops after the closing quote, or at the
    end of the line when there is none. *)
Lemma readSingle_plain (quote : ascii) (closing : option string) :
  forall (body : string) (fuel : nat) (sb pre : string) (l : lexer.Lexer),
    lexer.currLine l = pre +:+ (body +:+ closing_of quote closing) ->
    lexer.charIndex l = String.length pre ->
    plain quote body = true ->
    (String.length body < fuel)%nat ->
    lexer.readSingle fuel quote sb l
    = Some (sb +:+ body,
            lexer.with_charIndex l
              (String.length pre + String.length body
               + match closing with Some _ => 1 | None => 0 end)).
Proof.
  induction body as [| c body IH]; intros fuel sb pre l Hline Hci Hplain Hfuel.
  - destruct fuel as [| fuel]; [cbn in Hfuel; lia |].
    cbn [lexer.readSingle]. unfold lexer.charAt. rewrite Hline, Hci.
    replace (String.length pre) with (String.length pre + 0)%nat at 1 by lia.
    rewrite get_append_right. rewrite append_empty_right.
    destruct closing as [rest |]; cbn [closing_of]; rewrite append_empty_left;
      cbn [String.get String.length].
    + rewrite Ascii.eqb_refl. do 3 f_equal. lia.
    + replace (String.length pre + 0 + 0)%nat with (lexer.charIndex l) by lia.
      destruct l; reflexivity.
  - destruct fuel as [| fuel]; [cbn in Hfuel; lia |].
    cbn [plain] in Hplain. apply andb_true_iff in Hplain as [Hc Hplain].
    apply andb_true_iff in Hc as [Hq Hb].
    apply negb_true_iff in Hq. apply negb_true_iff in Hb.
    cbn [lexer.readSingle]. unfold lexer.charAt at 1. rewrite Hline, Hci.
    replace (String.length pre) with (String.length pre + 0)%nat at 1 by lia.
    rewrite get_append_right. rewrite append_String. cbn [String.get]. rewrite Hq.
    unfold lexer.string_step. rewrite Hb.
    rewrite (IH fuel (lexer.append_byte sb c) (pre +:+ String c EmptyString)
               (lexer.with_charIndex l (S (lexer.charIndex l)))).
    + rewrite append_byte_assoc. do 2 f_equal.
      unfold lexer.with_charIndex. cbn. f_equal.
      rewrite length_append. cbn. lia.
    + cbn [lexer.currLine lexer.with_charIndex]. rewrite Hline.
      rewrite append_associative. reflexivity.
    + cbn [lexer.charIndex lexer.with_charIndex]. rewrite Hci.
      rewrite length_append. cbn. lia.
    + exact Hplain.
    + cbn in Hfuel. lia.
Qed.

(** A string literal without escapes: on the opening quote of a literal
    whose body holds neither the quote nor a backslash, [NextToken] answers
    a STRING token whose literal is the body, byte for byte, and leaves the
    cursor after the closing quote.  A literal that is not closed on its
    line is a STRING token as well, holding the rest of the line: the lexer
    reports no error for it. *)
Theorem string_literal_is_its_body :
  forall (LookupIdent : string -> token.TokenType) (fuel : nat) (l : lexer.Lexer)
         (quote : ascii) (pre body : string) (closing : option string),
    quote = lexer.DQUOTE \/ quote = lexer.SQUOTE ->
    lexer.finished l = false ->
    lexer.indentResolved l = true ->
    lexer.currLine l = pre +:+ String quote (body +:+ closing_of quote closing) ->
    lexer.charIndex l = String.length pre ->
    plain quote body = true ->
    (body = EmptyString -> forall rest, closing <> Some (String quote rest)) ->
    (String.length body < fuel)%nat ->
    lexer.NextToken LookupIdent (S fuel) l
    = Some (token.mkToken token.STRING body (lexer.position l),
            lexer.with_charIndex l
              (String.length pre + 1 + String.length body
               + match closing with Some _ => 1 | None => 0 end)).
Proof.
  intros LookupIdent fuel l quote pre body closing Hquote Hfin Hres Hline Hci Hplain
    Hsingle Hfuel.
  assert (Hch : lexer.charAt l (lexer.charIndex l) = Some quote).
  { unfold lexer.charAt. rewrite Hline, Hci.
    replace (String.length pre) with (String.length pre + 0)%nat by lia.
    rewrite get_append_right. reflexivity. }
  assert (Hnot : lexer.opensTriple quote (lexer.with_charIndex l (S (lexer.charIndex l)))
                 = false).
  { unfold lexer.opensTriple, lexer.charAt.
    cbn [lexer.charIndex lexer.currLine lexer.with_charIndex]. rewrite Hline, Hci.
    replace (S (String.length pre)) with (String.length pre + 1)%nat by lia.
    replace (S (String.length pre + 1)) with (String.length pre + 2)%nat by lia.
    rewrite !get_append_right. cbn [String.get].
    destruct body as [| c body].
    - rewrite append_empty_left. destruct closing as [[| c rest] |]; cbn; try reflexivity.
      destruct (Ascii.eqb_spec quote quote); [| congruence]. cbn.
      destruct (Ascii.eqb_spec c quote) as [-> | Hne]; [| reflexivity].
      exfalso. exact (Hsingle eq_refl rest eq_refl).
    - rewrite append_String. cbn [String.get].
      cbn [plain] in Hplain. apply andb_true_iff in Hplain as [Hc _].
      apply andb_true_iff in Hc as [Hc _]. apply negb_true_iff in Hc.
      destruct (String.get 0 (body +:+ closing_of quote closing)); [| reflexivity].
      rewrite Hc. reflexivity. }
  cbn [lexer.NextToken]. rewrite Hfin, Hres. cbn [negb]. rewrite andb_false_r.
  rewrite Hch.
  replace (lexer.isHorizontalWhitespace quote) with false
    by (destruct Hquote as [-> | ->]; reflexivity).
  replace (Ascii.eqb quote "f") with false by (destruct Hquote as [-> | ->]; reflexivity).
  replace (Ascii.eqb quote "_") with false by (destruct Hquote as [-> | ->]; reflexivity).
  replace (Ascii.eqb quote "/") with false by (destruct Hquote as [-> | ->]; reflexivity).
  replace (Ascii.eqb quote lexer.DQUOTE || Ascii.eqb quote lexer.SQUOTE) with true
    by (destruct Hquote as [-> | ->]; reflexivity).
  unfold lexer.readString. rewrite Hch, Hnot.
  rewrite (readSingle_plain quote closing body fuel EmptyString (pre +:+ String quote EmptyString)).
  - rewrite append_empty_left. do 2 f_equal.
    unfold lexer.with_charIndex. cbn. f_equal. rewrite length_append. cbn. lia.
  - cbn [lexer.currLine lexer.with_charIndex]. rewrite Hline.
    rewrite append_associative. reflexivity.
  - cbn [lexer.charIndex lexer.with_charIndex]. rewrite Hci, length_append. cbn. lia.
  - exact Hplain.
  - exact Hfuel.
Qed.

Lemma string_literal_is_its_body_witness :
  lexer.NextToken lookup_if 5 at_quoted
  = Some (token.mkToken token.STRING "abc" (lexer.position at_quoted),
          lexer.with_charIndex at_quoted 9)
  /\ lexer.NextToken lookup_if 5 at_unclosed
     = Some (token.mkToken token.STRING "abc" (lexer.position at_unclosed),
             lexer.with_charIndex at_unclosed 8).
Proof.
  split.
  - exact (string_literal_is_its_body lookup_if 4 at_quoted lexer.SQUOTE "x = " "abc"
             (Some " + x") (or_intror eq_refl) eq_refl eq_refl eq_refl eq_refl eq_refl
             ltac:(discriminate) ltac:(cbn; lia)).
  - exact (string_literal_is_its_body lookup_if 4 at_unclosed lexer.SQUOTE "x = " "abc"
             None (or_intror eq_refl) eq_refl eq_refl eq_refl eq_refl eq_refl
             ltac:(discriminate) ltac:(cbn; lia)).
Defined.

(** ** Source context of an error *)

Lemma append_byte_String (cur : string) (c : ascii) (x : string) :
  (cur +:+ String c EmptyString) +:+ x = cur +:+ String c x.
Proof. rewrite append_associative. reflexivity. Qed.

Lemma split_lines_noLF :
  forall (x s cur : string),
    noLF x = true ->
    lexer.split_lines (x +:+ s) cur = lexer.split_lines s (cur +:+ x).
Proof.
  induction x as [| c x IH]; intros s cur Hx.
  - rewrite append_empty_left, append_empty_right. reflexivity.
  - cbn [noLF] in Hx. apply andb_true_iff in Hx as [Hc Hx]. apply negb_true_iff in Hc.
    rewrite append_String. cbn [lexer.split_lines]. rewrite Hc.
    rewrite IH by exact Hx. rewrite append_byte_String. reflexivity.
Qed.

Lemma split_lines_Join :
  forall (rest : list string) (x cur : string),
    Forall (fun line => noLF line = true) (x :: rest) ->
    lexer.split_lines (error_handling.Join (x :: rest) error_handling.LF) cur
    = (cur +:+ x) :: rest.
Proof.
  induction rest as [| y rest IH]; intros x cur Hall.
  - cbn [error_handling.Join]. rewrite <- (append_empty_right x) at 1.
    rewrite split_lines_noLF by (inversion Hall; assumption). reflexivity.
  - change (error_handling.Join (x :: y :: rest) error_handling.LF)
      with (x +:+ error_handling.LF +:+ error_handling.Join (y :: rest) error_handling.LF).
    inversion Hall as [| ? ? Hx Hrest]; subst.
    rewrite split_lines_noLF by exact Hx.
    unfold error_handling.LF at 1. rewrite append_String, append_empty_left.
    cbn [lexer.split_lines]. rewrite Ascii.eqb_refl.
    rewrite IH by exact Hrest. rewrite append_empty_left. reflexivity.
Qed.

(** Splitting what [Join] made of lines gives the lines back. *)
Lemma Split_Join (ls : list string) :
  ls <> [] ->
  Forall (fun line => noLF line = true) ls ->
  error_handling.Split (error_handling.Join ls error_handling.LF) = ls.
Proof.
  intros Hne Hall. destruct ls as [| x rest]; [congruence |].
  unfold error_handling.Split. rewrite split_lines_Join by exact Hall.
  rewrite append_empty_left. reflexivity.
Qed.

Lemma split_lines_are_noLF :
  forall (s cur : string),
    noLF cur = true ->
    Forall (fun line => noLF line = true) (lexer.split_lines s cur).
Proof.
  induction s as [| c s IH]; intros cur Hcur.
  - cbn. constructor; [exact Hcur | constructor].
  - cbn [lexer.split_lines]. destruct (Ascii.eqb c lexer.LF) eqn:Hc.
    + constructor; [exact Hcur |]. apply IH. reflexivity.
    + apply IH. clear IH. induction cur as [| a cur IHc].
      * rewrite append_empty_left. cbn. rewrite Hc. reflexivity.
      * rewrite append_String. cbn [noLF] in *. apply andb_true_iff in Hcur as [Ha Hcur].
        rewrite Ha. cbn [andb]. apply IHc. exact Hcur.
Qed.

Lemma lines_between_noLF (lines : list string) (lo hi : Z) :
  Forall (fun line => noLF line = true) lines ->
  Forall (fun line => noLF line = true) (error_handling.lines_between lines lo hi).
Proof.
  intros Hall. unfold error_handling.lines_between.
  apply Forall_take, Forall_drop. exact Hall.
Qed.

(** [GetContextFromSource] on a position inside the source.  With
    [contextLines = c > 0] the snippet, split into lines again, is the
    lines of the source from index [max 0 (Line - c)] up to, not including,
    index [min n (Line + c)]: the line of the error, which has index
    [Line - 1], the [c - 1] lines before it and the [c] lines after it, as
    far as the source has them.  With [c = 0] the snippet is empty. *)
Theorem context_snippet_is_a_window_of_lines :
  forall (source : string) (position : token.Position) (c : Z),
    let lines := error_handling.Split source in
    let n := Z.of_nat (length lines) in
    let L := token.Line position in
    source <> EmptyString ->
    1 <= L <= n ->
    0 < c ->
    L + c <= int64.max ->
    error_handling.Split (error_handling.GetContextFromSource source position c)
    = take (Z.to_nat (Z.min n (L + c) - Z.max 0 (L - c)))
        (drop (Z.to_nat (Z.max 0 (L - c))) lines)
    /\ take (Z.to_nat (Z.min n (L + c) - Z.max 0 (L - c)))
         (drop (Z.to_nat (Z.max 0 (L - c))) lines)
       !! Z.to_nat (L - 1 - Z.max 0 (L - c))
       = lines !! Z.to_nat (L - 1)
    /\ error_handling.GetContextFromSource source position 0 = EmptyString.
Proof.
  intros source position c lines n L Hsource HL Hc Hmax.
  assert (Hsub : int64.sub L c = L - c).
  { apply int64_wrap_in_range. unfold int64.in_range, int64.min, int64.max in *. lia. }
  assert (Hadd : int64.add L c = L + c).
  { apply int64_wrap_in_range. unfold int64.in_range, int64.min, int64.max in *. lia. }
  assert (Hsrc : String.eqb source EmptyString = false) by (apply String.eqb_neq; exact Hsource).
  assert (HL0 : (L <=? 0) = false) by (apply Z.leb_gt; lia).
  assert (HLn : (L >? n) = false) by (rewrite Z.gtb_ltb; apply Z.ltb_ge; lia).
  assert (Hwindow : error_handling.GetContextFromSource source position c
                    = error_handling.Join
                        (error_handling.lines_between lines (Z.max 0 (L - c)) (Z.min n (L + c)))
                        error_handling.LF).
  { unfold error_handling.GetContextFromSource. fold lines. fold n. fold L.
    rewrite Hsrc, HL0. cbn [orb]. rewrite HLn. rewrite Hsub, Hadd.
    f_equal. f_equal.
    - destruct (Z.ltb_spec (L - c) 0); lia.
    - destruct (Z.gtb_spec (L + c) n); lia. }
  split; [| split].
  - rewrite Hwindow. apply Split_Join.
    + unfold error_handling.lines_between. intros Hnil.
      apply (f_equal length) in Hnil. rewrite length_take, length_drop in Hnil.
      cbn in Hnil. subst n. lia.
    + apply lines_between_noLF. apply split_lines_are_noLF. reflexivity.
  - rewrite lookup_take_lt by lia. rewrite lookup_drop. f_equal. lia.
  - unfold error_handling.GetContextFromSource. fold lines. fold n. fold L.
    rewrite Hsrc, HL0. cbn [orb]. rewrite HLn.
    replace (int64.sub L 0) with L
      by (symmetry; unfold int64.sub; rewrite Z.sub_0_r; apply int64_wrap_in_range;
          unfold int64.in_range, int64.min, int64.max in *; lia).
    replace (int64.add L 0) with L
      by (symmetry; unfold int64.add; rewrite Z.add_0_r; apply int64_wrap_in_range;
          unfold int64.in_range, int64.min, int64.max in *; lia).
    replace (L <? 0) with false by (symmetry; apply Z.ltb_ge; lia).
    rewrite HLn. unfold error_handling.lines_between.
    rewrite Z.sub_diag. reflexivity.
Qed.

Lemma context_snippet_is_a_window_of_lines_witness :
  error_handling.Split (error_handling.GetContextFromSource four_lines at_second_line 1)
  = ["b = 2"; "c = 3"].
Proof.
  exact (proj1 (context_snippet_is_a_window_of_lines four_lines at_second_line 1
                  ltac:(discriminate) ltac:(vm_compute; split; discriminate)
                  ltac:(lia) ltac:(vm_compute; discriminate))).
Defined.

(** ** How an error is rendered *)

Lemma int64_wrap_wrap_add (a b : Z) : int64.wrap (int64.wrap a + b) = int64.wrap (a + b).
Proof.
  unfold int64.wrap.
  replace (((a + 2 ^ 63) mod 2 ^ 64 - 2 ^ 63) + b + 2 ^ 63)
    with ((a + 2 ^ 63) mod 2 ^ 64 + b) by lia.
  rewrite Zplus_mod_idemp_l. f_equal. f_equal. lia.
Qed.

Lemma int64_wrap_sub_wrap (a b : Z) : int64.wrap (a - int64.wrap b) = int64.wrap (a - b).
Proof.
  unfold int64.wrap.
  replace (a - ((b + 2 ^ 63) mod 2 ^ 64 - 2 ^ 63) + 2 ^ 63)
    with ((a + 2 ^ 63 + 2 ^ 63) - (b + 2 ^ 63) mod 2 ^ 64) by lia.
  rewrite Zminus_mod_idemp_r. f_equal. f_equal. lia.
Qed.

(** The number a line of the context is shown under: the line at index [i]
    of [count] lines is shown under [Line - (count - 1) + i], so that the
    last line is the one shown under [Line]. *)
Lemma shown_number (L count i : Z) :
  int64.in_range (L - (count - 1) + i) ->
  int64.add (int64.sub L (int64.sub count 1)) i = L - (count - 1) + i.
Proof.
  intros Hrange. unfold int64.add, int64.sub.
  rewrite int64_wrap_wrap_add.
  replace (L - int64.wrap (count - 1) + i) with ((L + i) - int64.wrap (count - 1)) by lia.
  rewrite int64_wrap_sub_wrap.
  replace (L + i - (count - 1)) with (L - (count - 1) + i) by lia.
  apply int64_wrap_in_range. exact Hrange.
Qed.

Lemma split_lines_nonempty (s cur : string) : lexer.split_lines s cur <> [].
Proof.
  revert cur. induction s as [| c s IH]; intros cur; [discriminate |].
  cbn [lexer.split_lines]. destruct (Ascii.eqb c lexer.LF); [discriminate | apply IH].
Qed.

Lemma context_lines_panic (position : token.Position) (count : Z) :
  int64.in_range (token.Line position) ->
  int64.sub (token.Column position) 1 < 0 ->
  forall (lines : list string) (i : Z),
    lines <> [] ->
    i + Z.of_nat (length lines) = count ->
    error_handling.context_lines position count i lines = None.
Proof.
  intros HL Hcol. induction lines as [| line rest IH]; intros i Hne Hcount; [congruence |].
  cbn [error_handling.context_lines].
  destruct rest as [| line' rest].
  - cbn in Hcount. rewrite shown_number
      by (replace (token.Line position - (count - 1) + i) with (token.Line position) by lia;
          exact HL).
    replace (token.Line position - (count - 1) + i) with (token.Line position) by lia.
    unfold error_handling.context_line. rewrite Z.eqb_refl.
    unfold error_handling.Repeat_space.
    replace (int64.sub (token.Column position) 1 <? 0) with true
      by (symmetry; apply Z.ltb_lt; exact Hcol).
    reflexivity.
  - destruct (error_handling.context_line position _ line); [| reflexivity].
    rewrite IH; [reflexivity | discriminate |].
    cbn [length] in *. lia.
Qed.

(** [Inspect] panics on an error that carries a code context but no column:
    the last line of the context is always the highlighted one, its caret
    is indented by [strings.Repeat(" ", Column - 1)], and a negative count
    panics there.  An error made by [NewError] without a position and given
    a context by [WithContext] is such an error. *)
Theorem Inspect_panics_on_a_context_without_column :
  forall (filepath_Rel : string -> string) (e : error_handling.Error),
    error_handling.Context e <> EmptyString ->
    int64.in_range (token.Line (error_handling.Position e)) ->
    int64.min < token.Column (error_handling.Position e) <= 0 ->
    error_handling.Inspect filepath_Rel e = None.
Proof.
  intros filepath_Rel e Hcontext HL Hcol.
  destruct e as [kind message trace position cause items context].
  cbn [error_handling.Context error_handling.Position] in *.
  cbn [error_handling.Inspect]. unfold error_handling.code_context.
  apply String.eqb_neq in Hcontext. rewrite Hcontext.
  rewrite context_lines_panic; [reflexivity | exact HL | | | lia].
  - unfold int64.sub. rewrite int64_wrap_in_range;
      unfold int64.in_range, int64.min, int64.max in *; lia.
  - apply split_lines_nonempty.
Qed.

Lemma Inspect_panics_on_a_context_without_column_witness :
  error_handling.Inspect no_Rel
    (error_handling.WithContext
       (error_handling.NewError object.RuntimeError "boom" token.Position_zero) "x = 1")
  = None.
Proof.
  apply (Inspect_panics_on_a_context_without_column no_Rel
           (error_handling.WithContext
              (error_handling.NewError object.RuntimeError "boom" token.Position_zero) "x = 1")).
  - discriminate.
  - vm_compute. split; discriminate.
  - vm_compute. split; [reflexivity | discriminate].
Defined.

Lemma take_drop_three (lines : list string) (k : nat) (a b c : string) :
  lines !! k = Some a -> lines !! S k = Some b -> lines !! S (S k) = Some c ->
  take 3 (drop k lines) = [a; b; c].
Proof.
  intros Ha Hb Hc.
  rewrite (drop_S _ _ _ Ha), (drop_S _ _ _ Hb), (drop_S _ _ _ Hc). reflexivity.
Qed.

Lemma Join_nonempty (a : string) (rest : list string) :
  rest <> [] ->
  String.eqb (error_handling.Join (a :: rest) error_handling.LF) EmptyString = false.
Proof.
  intros Hne. destruct rest as [| b rest]; [congruence |].
  change (error_handling.Join (a :: b :: rest) error_handling.LF)
    with (a +:+ error_handling.LF +:+ error_handling.Join (b :: rest) error_handling.LF).
  destruct a; reflexivity.
Qed.

(** The context that [CreateErrorWithContext] cuts out and the way
    [Inspect] numbers it do not fit together.  [CreateErrorWithContext]
    keeps the line before the error, the line of the error and the line
    after it; [Inspect] takes the last line of the context for the line of
    the error.  So for an error on line [L] of a source that has a line
    [L + 1], the three lines are shown under [L - 2], [L - 1] and [L], one
    less than their numbers in the source, and the line highlighted, with
    the caret under the error's column, is the line after the error. *)
Theorem rendered_context_highlights_the_line_after_the_error :
  forall (filepath_Rel : string -> string) (errorType : object.ErrorType)
         (message source : string) (position : token.Position) (a b c : string),
    let lines := error_handling.Split source in
    let L := token.Line position in
    source <> EmptyString ->
    2 <= L ->
    L + 1 <= int64.max ->
    1 <= token.Column position <= int64.max ->
    lines !! Z.to_nat (L - 2) = Some a ->
    lines !! Z.to_nat (L - 1) = Some b ->
    lines !! Z.to_nat L = Some c ->
    error_handling.Inspect filepath_Rel
      (error_handling.CreateErrorWithContext errorType message position source)
    = Some (error_handling.header errorType message
            +:+ error_handling.place filepath_Rel position
            +:+ error_handling.LF +:+ "Code context:" +:+ error_handling.LF
            +:+ error_handling.plain_context_line (L - 2) a
            +:+ error_handling.plain_context_line (L - 1) b
            +:+ error_handling.highlighted_context_line L c
                  (error_handling.spaces (Z.to_nat (token.Column position - 1)))).
Proof.
  intros filepath_Rel errorType message source position a b c lines L
    Hsource HL Hmax Hcol Ha Hb Hc.
  set (n := Z.of_nat (length lines)).
  assert (Hn : L < n).
  { apply lookup_lt_Some in Hc. subst n. lia. }
  assert (Hsub : int64.sub L 2 = L - 2).
  { apply int64_wrap_in_range. unfold int64.in_range, int64.min, int64.max in *. lia. }
  assert (Hadd : int64.add L 1 = L + 1).
  { apply int64_wrap_in_range. unfold int64.in_range, int64.min, int64.max in *. lia. }
  assert (Hall : Forall (fun line => noLF line = true) [a; b; c]).
  { pose proof (split_lines_are_noLF source EmptyString eq_refl) as Hlines.
    fold (error_handling.Split source) in Hlines. fold lines in Hlines.
    rewrite Forall_lookup in Hlines.
    repeat constructor; eapply Hlines; eassumption. }
  assert (Hcontext : error_handling.CreateErrorWithContext errorType message position source
                     = error_handling.WithContext
                         (error_handling.NewError errorType message position)
                         (error_handling.Join [a; b; c] error_handling.LF)).
  { unfold error_handling.CreateErrorWithContext. fold lines. fold L. fold n.
    apply String.eqb_neq in Hsource. rewrite Hsource. cbn [negb andb].
    replace (L >? 0) with true by (symmetry; rewrite Z.gtb_ltb; apply Z.ltb_lt; lia).
    replace (L <=? n) with true by (symmetry; apply Z.leb_le; lia).
    rewrite Hsub, Hadd.
    replace (L - 2 <? 0) with false by (symmetry; apply Z.ltb_ge; lia).
    replace (L + 1 >? n) with false by (symmetry; rewrite Z.gtb_ltb; apply Z.ltb_ge; lia).
    unfold error_handling.lines_between.
    replace (Z.to_nat (L + 1 - (L - 2))) with 3%nat by lia.
    rewrite (take_drop_three lines (Z.to_nat (L - 2)) a b c); [reflexivity | exact Ha | |].
    - replace (S (Z.to_nat (L - 2))) with (Z.to_nat (L - 1)) by lia. exact Hb.
    - replace (S (S (Z.to_nat (L - 2)))) with (Z.to_nat L) by lia. exact Hc. }
  rewrite Hcontext.
  unfold error_handling.WithContext, error_handling.NewError.
  cbn [error_handling.ErrorKind error_handling.Message error_handling.StackTrace
       error_handling.Position error_handling.Cause error_handling.Suggestions
       error_handling.Inspect].
  unfold error_handling.code_context.
  rewrite Join_nonempty by discriminate.
  rewrite Split_Join by (discriminate || exact Hall).
  cbn [length error_handling.context_lines]. fold L.
  rewrite !shown_number
    by (unfold int64.in_range, int64.min, int64.max in *; cbn; lia).
  replace (L - (Z.of_nat 3 - 1) + 0) with (L - 2) by lia.
  replace (L - (Z.of_nat 3 - 1) + (0 + 1)) with (L - 1) by lia.
  replace (L - (Z.of_nat 3 - 1) + (0 + 1 + 1)) with L by lia.
  unfold error_handling.context_line. fold L.
  replace (L - 2 =? L) with false by (symmetry; apply Z.eqb_neq; lia).
  replace (L - 1 =? L) with false by (symmetry; apply Z.eqb_neq; lia).
  rewrite Z.eqb_refl.
  unfold error_handling.Repeat_space.
  replace (int64.sub (token.Column position) 1) with (token.Column position - 1)
    by (symmetry; apply int64_wrap_in_range;
        unfold int64.in_range, int64.min, int64.max in *; lia).
  replace (token.Column position - 1 <? 0) with false by (symmetry; apply Z.ltb_ge; lia).
  cbn [error_handling.stack_trace error_handling.suggestions].
  f_equal.
  rewrite !append_empty_right. reflexivity.
Qed.

Lemma rendered_context_highlights_the_line_after_the_error_witness :
  error_handling.Inspect no_Rel
    (error_handling.CreateErrorWithContext object.NameError "undefined" at_second_line
       four_lines)
  = Some (error_handling.header object.NameError "undefined"
          +:+ error_handling.place no_Rel at_second_line
          +:+ error_handling.LF +:+ "Code context:" +:+ error_handling.LF
          +:+ error_handling.plain_context_line (2 - 2) "a = 1"
          +:+ error_handling.plain_context_line (2 - 1) "b = 2"
          +:+ error_handling.highlighted_context_line 2 "c = 3"
                (error_handling.spaces (Z.to_nat (3 - 1)))).
Proof.
  exact (rendered_context_highlights_the_line_after_the_error no_Rel object.NameError
           "undefined" four_lines at_second_line "a = 1" "b = 2" "c = 3"
           ltac:(discriminate) ltac:(vm_compute; discriminate) ltac:(vm_compute; discriminate)
           ltac:(vm_compute; split; discriminate) eq_refl eq_refl eq_refl).
Defined.
